(** * Confidential ledger: Pedersen commitments, ECIES openings, verification

    A shallow embedding of [ferits/ledger/core/ledger.impl.ts] (and of the
    [pedersen] helper of the shared crypto utilities) together with the
    properties its specification states.

    Layout:
    - [Js]        the part of the JavaScript runtime the code relies on:
                  exceptions, [BigInt(...)], [parseInt], [toString];
    - [hex], [b64] the two codecs defined in the source;
    - [Ristretto255], [Platform]  the contracts of the external libraries
                  (\@noble/curves, \@noble/hashes, WebCrypto, JSON);
    - section [Ledger]  the ledger operations, over any implementation of
                  the two contracts;
    - section [Properties]  what holds of them, over any implementation;
    - [Toy], [ToyImpl]  a small executable implementation of the contracts;
    - [Scenario]  the operations run on concrete ledgers.

    Around the ledger, with the same layout (operations, then
    properties, then runs in [Scenario2]):
    - stored key pairs, [ledger.verify.ts] and the rest of the shared
      crypto utilities;
    - [fundraising.impl.ts]: campaigns of Pedersen-committed pledges,
      over a clock ([Timed]);
    - [stablecoin.impl.ts], [stablecoin.verify.ts]: an asset on top of
      the ledger (module [stablecoin]), over the random bytes, the
      clock and [Math.random] ([IO]). *)

From Stdlib Require Import ZArith Lia Strings.Ascii Strings.String Strings.Byte Zmod Znumtheory.
From stdpp Require Import base option list strings gmap.

Local Open Scope Z_scope.

Abbreviation byte := Byte.byte.
Abbreviation bytes := (list Byte.byte).

#[global] Instance byte_eq_dec : EqDecision byte := Byte.byte_eq_dec.

(* ================================================================== *)
(** * The JavaScript runtime *)
(* ================================================================== *)

Module Js.

(** What a [throw] carries.  [Error msg] is [new Error(msg)] thrown by the
    ledger code itself; the other constructors are thrown by the platform or
    by a library. *)
Inductive exn : Type :=
| Error (msg : string)
| RangeError        (* BigInt(number) on a non-integer *)
| SyntaxError       (* BigInt(string), JSON.parse *)
| TypeError
| CurveError        (* noble-curves: scalar out of range, bad point, bad key *)
| CryptoError.      (* WebCrypto OperationError, atob InvalidCharacterError *)

(** A computation that returns or throws. *)
Inductive result (A : Type) : Type :=
| Ok (a : A)
| Throw (e : exn).
Arguments Ok {A} a.
Arguments Throw {A} e.

Definition bind {A B} (m : result A) (k : A -> result B) : result B :=
  match m with Ok a => k a | Throw e => Throw e end.

(** [try { body } catch { handler }] *)
Definition try_catch {A} (body : result A) (handler : result A) : result A :=
  match body with Ok a => Ok a | Throw _ => handler end.

Definition of_option {A} (o : option A) (e : exn) : result A :=
  match o with Some a => Ok a | None => Throw e end.

(** [xs.map(f)] where [f] may throw: the first throw aborts the map. *)
Fixpoint mapM {A B} (f : A -> result B) (xs : list A) : result (list B) :=
  match xs with
  | [] => Ok []
  | x :: xs' =>
      bind (f x) (fun y => bind (mapM f xs') (fun ys => Ok (y :: ys)))
  end.

(** A JavaScript [number] as far as [BigInt(n)] can tell: an integral value,
    or anything else (a fraction, NaN, an infinity). *)
Inductive number : Type :=
| Integral (z : Z)
| NonIntegral.

(** [BigInt(n)] for a number [n]. *)
Definition BigInt_of_number (n : number) : result Z :=
  match n with
  | Integral z => Ok z
  | NonIntegral => Throw RangeError
  end.

(** ** Characters.  A string is a sequence of code units; the strings of the
    ledger are hex, base64 and decimal text, so a code unit is an [ascii]. *)

Definition code (c : ascii) : Z := Z.of_N (N_of_ascii c).

(** WhiteSpace and LineTerminator code units below 256. *)
Definition isWhiteSpace (c : ascii) : bool :=
  let n := code c in
  ((9 <=? n) && (n <=? 13)) || (n =? 32) || (n =? 160).

(** The value of a digit in radixes up to 16. *)
Definition digitValue (c : ascii) : option Z :=
  let n := code c in
  if (48 <=? n) && (n <=? 57) then Some (n - 48)
  else if (97 <=? n) && (n <=? 102) then Some (n - 87)
  else if (65 <=? n) && (n <=? 70) then Some (n - 55)
  else None.

Definition digitIn (radix : Z) (c : ascii) : option Z :=
  match digitValue c with
  | Some d => if d <? radix then Some d else None
  | None => None
  end.

(** The digit character of [d < 16], lower case as [toString] prints it. *)
Definition digitChar (d : Z) : ascii :=
  ascii_of_N (Z.to_N (if d <? 10 then 48 + d else 87 + d)).

Fixpoint trimStart (s : string) : string :=
  match s with
  | String c s' => if isWhiteSpace c then trimStart s' else s
  | EmptyString => EmptyString
  end.

Fixpoint trimEnd (s : string) : string :=
  match s with
  | EmptyString => EmptyString
  | String c s' =>
      match trimEnd s' with
      | EmptyString => if isWhiteSpace c then EmptyString else String c EmptyString
      | t => String c t
      end
  end.

Definition trim (s : string) : string := trimEnd (trimStart s).

(** ** [parseInt(s, 16)]: leading white space, a sign, an optional [0x], then
    the longest run of hex digits; [None] is NaN. *)

Fixpoint hexPrefixValue (s : string) (acc : Z) : Z :=
  match s with
  | String c s' =>
      match digitIn 16 c with
      | Some d => hexPrefixValue s' (acc * 16 + d)
      | None => acc
      end
  | EmptyString => acc
  end.

Definition startsWithHexDigit (s : string) : bool :=
  match s with
  | String c _ => match digitIn 16 c with Some _ => true | None => false end
  | EmptyString => false
  end.

Definition strip0x (s : string) : string :=
  match s with
  | String "0" (String "x" r) => r
  | String "0" (String "X" r) => r
  | _ => s
  end.

Definition parseInt16 (s : string) : option Z :=
  let s1 := trimStart s in
  let '(sign, s2) :=
    match s1 with
    | String "-" r => (-1, r)
    | String "+" r => (1, r)
    | _ => (1, s1)
    end in
  let s3 := strip0x s2 in
  if startsWithHexDigit s3 then Some (sign * hexPrefixValue s3 0) else None.

(** Storing a number into a [Uint8Array]: NaN becomes 0, an integer is taken
    modulo 256. *)
Definition toUint8 (v : option Z) : byte :=
  match v with
  | None => x00
  | Some z => default x00 (Byte.of_N (Z.to_N (z mod 256)))
  end.

(** ** [BigInt(s)] for a string [s] (StringToBigInt): surrounding white space
    is dropped; the empty string is 0; then either a decimal literal with an
    optional sign, or an unsigned literal with prefix [0x], [0o] or [0b]. *)

Fixpoint digitsValue (radix : Z) (s : string) (acc : Z) : option Z :=
  match s with
  | EmptyString => Some acc
  | String c s' =>
      match digitIn radix c with
      | Some d => digitsValue radix s' (acc * radix + d)
      | None => None
      end
  end.

(** At least one digit. *)
Definition digits1 (radix : Z) (s : string) : option Z :=
  match s with
  | EmptyString => None
  | _ => digitsValue radix s 0
  end.

Definition StringToBigInt (s : string) : option Z :=
  let t := trim s in
  match t with
  | EmptyString => Some 0
  | String "0" (String "x" r) | String "0" (String "X" r) => digits1 16 r
  | String "0" (String "o" r) | String "0" (String "O" r) => digits1 8 r
  | String "0" (String "b" r) | String "0" (String "B" r) => digits1 2 r
  | String "+" r => digits1 10 r
  | String "-" r => Z.opp <$> digits1 10 r
  | _ => digits1 10 t
  end.

Definition BigInt (s : string) : result Z :=
  of_option (StringToBigInt s) SyntaxError.

(** ** [b.toString(10)] for a BigInt [b]. *)

Fixpoint decimalDigits (fuel : nat) (n : Z) (acc : string) : string :=
  match fuel with
  | O => acc
  | S fuel' =>
      let acc' := String (digitChar (n mod 10)) acc in
      if n <? 10 then acc' else decimalDigits fuel' (n / 10) acc'
  end.

Definition toString10 (z : Z) : string :=
  let n := Z.abs z in
  let ds := decimalDigits (S (Z.to_nat (Z.log2 n))) n EmptyString in
  if z <? 0 then String "-" ds else ds.

(** [n.toString(16).padStart(2, "0")] for a byte [n]. *)
Definition toString16 (n : Z) : string :=
  if n <? 16 then String (digitChar n) EmptyString
  else String (digitChar (n / 16)) (String (digitChar (n mod 16)) EmptyString).

Definition padStart2 (s : string) : string :=
  match s with
  | String c EmptyString => String "0" (String c EmptyString)
  | _ => s
  end.

(** [new TextEncoder().encode(s)] on text below U+0080. *)
Definition text (s : string) : bytes := list_byte_of_string s.

(** [bytes.slice(a, b)] and [bytes.slice(a)] on a [Uint8Array]. *)
Definition slice (a b : nat) (bs : bytes) : bytes := take (b - a) (drop a bs).
Definition sliceFrom (a : nat) (bs : bytes) : bytes := drop a bs.

(** [s.slice(0, n)] on a string. *)
Definition strPrefix (n : nat) (s : string) : string := String.substring 0 n s.

End Js.
Export Js.

Declare Scope js_scope.
Delimit Scope js_scope with js.
Notation "'let*' x ':=' e 'in' k" := (Js.bind e (fun x => k))
  (at level 10, x pattern, e at level 100, k at level 200) : js_scope.
Local Open Scope js_scope.

(* ================================================================== *)
(** * The codecs of the source *)
(* ================================================================== *)

(** [const hex = { fromBytes, toBytes }] *)
Module hex.

Fixpoint fromBytes (b : bytes) : string :=
  match b with
  | [] => EmptyString
  | x :: b' => (padStart2 (toString16 (Z.of_N (Byte.to_N x))) ++ fromBytes b')%string
  end.

(** [new Uint8Array(h.length / 2)] has [floor(h.length / 2)] cells and cell
    [i] receives [parseInt(h.slice(2i, 2i+2), 16)]: the string is consumed
    two code units at a time and an odd last one is ignored. *)
Fixpoint toBytes (h : string) : bytes :=
  match h with
  | String c1 (String c2 rest) =>
      toUint8 (parseInt16 (String c1 (String c2 EmptyString))) :: toBytes rest
  | _ => []
  end.

End hex.

(* ================================================================== *)
(** * The external libraries, as contracts *)
(* ================================================================== *)

(** The order of the ristretto255 group (the constant of [modL]). *)
Definition L : Z :=
  7237005577332262213973186563042994240857116359379907606001950938285454250989.

(** [ristretto255.Point] of \@noble/curves: a group of order [L] with its
    encoding.  [smul k P] is the scalar multiple [k·P] of the group; the
    method [P.multiply(k)] of the library is [multiply] below, which refuses
    scalars outside [1 <= k < L]. *)
Class Ristretto255 := {
  Point : Type;
  Point_eq_dec :: EqDecision Point;
  ZERO : Point;                          (* Point.ZERO *)
  BASE : Point;                          (* Point.BASE *)
  hashToCurve : bytes -> Point;          (* ristretto255_hasher.hashToCurve *)
  padd : Point -> Point -> Point;        (* P.add(Q) *)
  smul : Z -> Point -> Point;
  Point_toBytes : Point -> bytes;        (* P.toBytes() *)
  Point_fromBytes : bytes -> result Point;  (* Point.fromBytes(b) *)

  padd_assoc : forall P Q R, padd P (padd Q R) = padd (padd P Q) R;
  padd_comm : forall P Q, padd P Q = padd Q P;
  padd_ZERO_l : forall P, padd ZERO P = P;
  smul_0 : forall P, smul 0 P = ZERO;
  smul_1 : forall P, smul 1 P = P;
  smul_add : forall a b P, smul (a + b) P = padd (smul a P) (smul b P);
  smul_L : forall P, smul L P = ZERO;
  (* the two generators are not the identity: in a group of prime order
     each of them has order exactly [L] *)
  BASE_order : forall k, smul k BASE = ZERO -> k mod L = 0;
  H_order : forall k,
    smul k (hashToCurve (text "conf-ledger:H:v1")) = ZERO -> k mod L = 0;
  Point_fromBytes_toBytes : forall P, Point_fromBytes (Point_toBytes P) = Ok P;
}.

(** What [BigInt(v)] receives after [JSON.parse] and destructuring. *)
Inductive jsval : Type :=
| JsString (s : string)
| JsNumber (n : number)
| JsBool (b : bool)
| JsNullish                 (* null, undefined *)
| JsObject (prim : string). (* an object or array, with its ToPrimitive string *)

(** X25519 (\@noble/curves), HKDF-SHA256 (\@noble/hashes), AES-GCM
    (WebCrypto, the raw key imported first), base64 ([btoa]/[atob]) and the
    JSON text of an opening. *)
Class Platform := {
  x25519_getPublicKey : bytes -> bytes;
  x25519_getSharedSecret : bytes -> bytes -> result bytes;
  ed25519_getPublicKey : bytes -> bytes;
  hkdf_sha256 : bytes -> bytes -> bytes -> nat -> bytes;
  aes_gcm_encrypt : bytes -> bytes -> bytes -> result bytes;  (* key, iv, data *)
  aes_gcm_decrypt : bytes -> bytes -> bytes -> result bytes;
  btoa : string -> string;
  atob : string -> result string;
  (* JSON.stringify({ v: sv, r: sr }) *)
  JSON_stringify_vr : string -> string -> string;
  (* const { v, r } = JSON.parse(new TextDecoder().decode(pt)) *)
  JSON_parse_vr : bytes -> result (jsval * jsval);

  x25519_publicKey_length : forall sk,
    length sk = 32%nat -> length (x25519_getPublicKey sk) = 32%nat;
  x25519_agreement : forall a b,
    length a = 32%nat -> length b = 32%nat ->
    exists s, x25519_getSharedSecret a (x25519_getPublicKey b) = Ok s /\
              x25519_getSharedSecret b (x25519_getPublicKey a) = Ok s;
  hkdf_length : forall ikm salt info n,
    length (hkdf_sha256 ikm salt info n) = n;
  aes_gcm_encrypt_ok : forall key iv pt,
    length key = 32%nat -> length iv = 12%nat ->
    exists ct, aes_gcm_encrypt key iv pt = Ok ct;
  aes_gcm_decrypt_encrypt : forall key iv pt ct,
    aes_gcm_encrypt key iv pt = Ok ct -> aes_gcm_decrypt key iv ct = Ok pt;
  atob_btoa : forall s, atob (btoa s) = Ok s;
  JSON_parse_stringify : forall sv sr,
    JSON_parse_vr (text (JSON_stringify_vr sv sr)) = Ok (JsString sv, JsString sr);
}.

(** [BigInt(x)] for a parsed JSON value. *)
Definition BigInt_of_value (x : jsval) : result Z :=
  match x with
  | JsString s => BigInt s
  | JsNumber n => BigInt_of_number n
  | JsBool b => Ok (if b then 1 else 0)
  | JsNullish => Throw TypeError
  | JsObject prim => BigInt prim
  end.

(** [const b64 = { enc, dec }] *)
Module b64.

Definition enc `{Platform} (b : bytes) : string := btoa (string_of_list_byte b).

Definition dec `{Platform} (s : string) : result bytes :=
  let* binary := atob s in Ok (list_byte_of_string binary).

End b64.

(* ================================================================== *)
(** * Randomness *)
(* ================================================================== *)

(** [crypto.getRandomValues]: an unbounded tape of bytes and a cursor. *)
Record Entropy := { tape : nat -> byte; pos : nat }.

(** Code that draws random bytes and may throw. *)
Definition Rand (A : Type) : Type := Entropy -> result (A * Entropy).

Definition rret {A} (a : A) : Rand A := fun e => Ok (a, e).

Definition rbind {A B} (m : Rand A) (k : A -> Rand B) : Rand B :=
  fun e => match m e with Ok (a, e') => k a e' | Throw x => Throw x end.

Definition lift {A} (m : result A) : Rand A :=
  fun e => match m with Ok a => Ok (a, e) | Throw x => Throw x end.

Notation "'let!' x ':=' e 'in' k" := (rbind e (fun x => k))
  (at level 10, x pattern, e at level 100, k at level 200) : js_scope.

(** [export const randomBytes = (len = 32) => crypto.getRandomValues(...)] *)
Definition randomBytes (len : nat) : Rand bytes :=
  fun e => Ok ((fun i => tape e (pos e + i)%nat) <$> seq 0 len,
               {| tape := tape e; pos := (pos e + len)%nat |}).

(** [P.multiply(k)]: noble-curves accepts [1 <= k < L] only and throws on any
    other scalar, 0 included (hence the zero cases of [commit]). *)
Definition multiply `{Ristretto255} (P : Point) (k : Z) : result Point :=
  if (1 <=? k) && (k <? L) then Ok (smul k P) else Throw CurveError.

(** [P.equals(Q)] *)
Definition equals `{Ristretto255} (P Q : Point) : bool := bool_decide (P = Q).

(* ================================================================== *)
(** * The data model ([ledger.schema.ts]) *)
(* ================================================================== *)

Module KeyPair.
Record keys := { publicKey : bytes; secretKey : bytes }.
Record t := { id : string; ed25519 : keys; x25519 : keys }.
End KeyPair.

Module LedgerEntry.
Record t := { holderId : string; commit : string; openingEncrypted : string }.
End LedgerEntry.

Module LedgerTotal.
Record t := { T : string; R : string; commitSum : string }.
End LedgerTotal.

(** [allowSelfUpdate] is optional in the schema; the code only tests
    [!ledger.allowSelfUpdate], so an absent flag is [false]. *)
Module LedgerState.
Record t := {
  version : string;
  entries : list LedgerEntry.t;
  total : LedgerTotal.t;
  allowSelfUpdate : bool;
}.
End LedgerState.

Module MintAllocation.
Record t := { holder : KeyPair.t; amount : number }.
End MintAllocation.

Module UserView.
Record other := { holderId : string; commit : string; encrypted : string }.
Record t := {
  myBalance : option Z;
  myEntryValid : bool;
  publicTotal : option Z;
  others : list other;
}.
End UserView.

(** The three errors [updateOwnEntry] throws itself. *)
Definition PermissionDenied : exn := Error "Self-update is not allowed on this ledger".
Definition NotFound : exn := Error "You don't have an entry in this ledger".
Definition DecryptionFailure : exn := Error "Failed to decrypt your existing entry".

(* ================================================================== *)
(** * The heap *)
(* ================================================================== *)

(** The only object the ledger code ever writes to after creating it is an
    array of entries ([entries.push], [newEntries[myIndex] = ...]); entry,
    total and ledger objects are never assigned to.  So the heap holds the
    arrays, and a ledger object refers to its array by address. *)

Abbreviation Heap := (gmap positive (list LedgerEntry.t)).

Record LedgerObj := {
  o_version : string;
  o_entries : positive;
  o_total : LedgerTotal.t;
  o_allowSelfUpdate : bool;
}.

(** The ledger value an object denotes in a heap. *)
Definition load (h : Heap) (o : LedgerObj) : option LedgerState.t :=
  es ← h !! o_entries o;
  Some {| LedgerState.version := o_version o;
          LedgerState.entries := es;
          LedgerState.total := o_total o;
          LedgerState.allowSelfUpdate := o_allowSelfUpdate o |}.

(* ================================================================== *)
(** * The ledger operations ([ledger.impl.ts]) *)
(* ================================================================== *)

Section Ledger.
Context {curve : Ristretto255} {platform : Platform}.

(** [modL] (lines 60-67) *)
Definition modL (n : Z) : Z :=
  let x := Z.rem n L in
  if x <? 0 then x + L else x.

(** ** Pedersen commitments (lines 70-89) *)

Definition G : Point := BASE.
Definition H : Point := hashToCurve (text "conf-ledger:H:v1").

Definition commit (v r : Z) : result Point :=
  let* vPoint := if v =? 0 then Ok ZERO else multiply G v in
  let* rPoint := if r =? 0 then Ok ZERO else multiply H r in
  Ok (padd vPoint rPoint).

Definition pointToHex (P : Point) : string := hex.fromBytes (Point_toBytes P).

Definition pointFromHex (h : string) : result Point :=
  Point_fromBytes (hex.toBytes h).

Definition bigToDec (b : Z) : string := toString10 b.
Definition decToBig (s : string) : result Z := BigInt s.

(** ** ECIES (X25519 + HKDF + AES-GCM) (lines 92-138) *)

(** [hkdfKey]; [importAesKey] is part of [aes_gcm_encrypt]/[aes_gcm_decrypt]. *)
Definition hkdfKey (ikm : bytes) : bytes :=
  hkdf_sha256 ikm (text "salt") (text "info") 32.

(** [x25519.keygen()]: a random 32-byte secret key and its public key. *)
Definition x25519_keygen : Rand KeyPair.keys :=
  let! sk := randomBytes 32 in
  rret {| KeyPair.publicKey := x25519_getPublicKey sk; KeyPair.secretKey := sk |}.

Definition ed25519_keygen : Rand KeyPair.keys :=
  let! sk := randomBytes 32 in
  rret {| KeyPair.publicKey := ed25519_getPublicKey sk; KeyPair.secretKey := sk |}.

Definition eciesEncrypt (pub plaintext : bytes) : Rand string :=
  let! ephemeral := x25519_keygen in
  let! shared := lift (x25519_getSharedSecret (KeyPair.secretKey ephemeral) pub) in
  let key := hkdfKey shared in
  let! nonce := randomBytes 12 in
  let! ciphertext := lift (aes_gcm_encrypt key nonce plaintext) in
  let combined := KeyPair.publicKey ephemeral ++ nonce ++ ciphertext in
  rret (b64.enc combined).

Definition eciesDecrypt (sk : bytes) (payloadB64 : string) : result bytes :=
  let* bytes := b64.dec payloadB64 in
  let epk := slice 0 32 bytes in
  let nonce := slice 32 44 bytes in
  let ciphertext := sliceFrom 44 bytes in
  let* shared := x25519_getSharedSecret sk epk in
  let key := hkdfKey shared in
  aes_gcm_decrypt key nonce ciphertext.

(** ** Key generation (lines 142-150) *)

Definition generateKeyPair (id : string) : Rand KeyPair.t :=
  let! edKeys := ed25519_keygen in
  let! xKeys := x25519_keygen in
  rret {| KeyPair.id := id; KeyPair.ed25519 := edKeys; KeyPair.x25519 := xKeys |}.

(** ** Openings.  The source writes these three expressions inline, each in
    two places ([mintPoC] and [updateOwnEntry]; [getUserView] and
    [updateOwnEntry]). *)

(** [modL(BigInt("0x" + hex.fromBytes(randomBytes(32))))] *)
Definition freshBlinding : Rand Z :=
  let! rb := randomBytes 32 in
  let! z := lift (BigInt ("0x" ++ hex.fromBytes rb)) in
  rret (modL z).

(** [text(JSON.stringify({ v: v.toString(), r: r.toString() }))] *)
Definition openingText (v r : Z) : bytes :=
  text (JSON_stringify_vr (toString10 v) (toString10 r)).

Definition encryptOpening (pub : bytes) (v r : Z) : Rand string :=
  eciesEncrypt pub (openingText v r).

(** [pt = await eciesDecrypt(sk, enc); { v, r } = JSON.parse(decode(pt));
    BigInt(v); BigInt(r)] *)
Definition decryptOpening (sk : bytes) (enc : string) : result (Z * Z) :=
  let* pt := eciesDecrypt sk enc in
  let* (v, r) := JSON_parse_vr pt in
  let* vBig := BigInt_of_value v in
  let* rBig := BigInt_of_value r in
  Ok (vBig, rBig).

(** ** [mintPoC] (lines 187-220) *)

(** The variables of the loop: [entries], [T], [Rsum], [Csum]. *)
Record MintLoop := {
  m_entries : list LedgerEntry.t;
  m_T : Z;
  m_Rsum : Z;
  m_Csum : Point;
}.

(** One iteration of [for (const { holder, amount } of allocs)]. *)
Definition mintStep (st : MintLoop) (alloc : MintAllocation.t) : Rand MintLoop :=
  let holder := MintAllocation.holder alloc in
  let! v := lift (BigInt_of_number (MintAllocation.amount alloc)) in
  let! r := freshBlinding in
  let! C := lift (commit v r) in
  let! enc := encryptOpening (KeyPair.publicKey (KeyPair.x25519 holder)) v r in
  rret {|
    m_entries := m_entries st ++ [ {|
      LedgerEntry.holderId := KeyPair.id holder;
      LedgerEntry.commit := pointToHex C;
      LedgerEntry.openingEncrypted := enc |} ];
    m_T := m_T st + v;
    m_Rsum := modL (m_Rsum st + r);
    m_Csum := padd (m_Csum st) C |}.

Fixpoint mintLoop (allocs : list MintAllocation.t) (st : MintLoop) : Rand MintLoop :=
  match allocs with
  | [] => rret st
  | alloc :: rest => let! st' := mintStep st alloc in mintLoop rest st'
  end.

Definition mintPoC (allocs : list MintAllocation.t) (allowSelfUpdate : bool)
  : Rand LedgerState.t :=
  let! st := mintLoop allocs
    {| m_entries := []; m_T := 0; m_Rsum := 0; m_Csum := ZERO |} in
  rret {|
    LedgerState.version := "1";
    LedgerState.entries := m_entries st;
    LedgerState.total := {|
      LedgerTotal.T := bigToDec (m_T st);
      LedgerTotal.R := bigToDec (m_Rsum st);
      LedgerTotal.commitSum := pointToHex (m_Csum st) |};
    LedgerState.allowSelfUpdate := allowSelfUpdate |}.

(** ** Verification (lines 228-259) *)

(** [entries.map((e) => pointFromHex(e.commit)).reduce((a, b) => a.add(b), ZERO)] *)
Definition sumCommits (entries : list LedgerEntry.t) : result Point :=
  let* points := mapM (fun e => pointFromHex (LedgerEntry.commit e)) entries in
  Ok (foldl padd ZERO points).

Definition verifyTotal (ledger : LedgerState.t) : result bool :=
  try_catch
    (let total := LedgerState.total ledger in
     let* T := decToBig (LedgerTotal.T total) in
     let* R := decToBig (LedgerTotal.R total) in
     let* claimed := pointFromHex (LedgerTotal.commitSum total) in
     let* recomputed := sumCommits (LedgerState.entries ledger) in
     if negb (equals claimed recomputed) then Ok false else
     let* gT := multiply G T in
     let* hR := multiply H R in
     let openSum := padd gT hR in
     Ok (equals claimed openSum))
    (Ok false).

Definition verifyOpening (commitHex : string) (v r : Z) : result bool :=
  try_catch
    (let* claimed := pointFromHex commitHex in
     let* recomputed := commit v r in
     Ok (equals claimed recomputed))
    (Ok false).

(** ** The holder's view (lines 265-297) *)

(** [(e) => e.holderId === id] *)
Definition isHolder (id : string) (e : LedgerEntry.t) : Prop :=
  LedgerEntry.holderId e = id.

#[global] Instance isHolder_dec id e : Decision (isHolder id e) :=
  decide (LedgerEntry.holderId e = id).

Definition ellipsis : string :=
  String (ascii_of_nat 226) (String (ascii_of_nat 128) (String (ascii_of_nat 166) EmptyString)).

Definition getUserView (ledger : LedgerState.t) (me : KeyPair.t)
  : result UserView.t :=
  let mine := list_find (isHolder (KeyPair.id me)) (LedgerState.entries ledger) in
  let* (myBalance, myEntryValid) :=
    match mine with
    | Some (_, mine) =>
        try_catch
          (let* (vBig, rBig) :=
             decryptOpening (KeyPair.secretKey (KeyPair.x25519 me))
                            (LedgerEntry.openingEncrypted mine) in
           let* ok := verifyOpening (LedgerEntry.commit mine) vBig rBig in
           Ok (Some vBig, ok))
          (Ok (None, false))
    | None => Ok (None, true)
    end in
  let* totalOk := verifyTotal ledger in
  let* publicTotal :=
    if totalOk
    then let* t := BigInt (LedgerTotal.T (LedgerState.total ledger)) in Ok (Some t)
    else Ok None in
  Ok {|
    UserView.myBalance := myBalance;
    UserView.myEntryValid := myEntryValid;
    UserView.publicTotal := publicTotal;
    UserView.others :=
      (fun e => {|
         UserView.holderId := LedgerEntry.holderId e;
         UserView.commit := (strPrefix 20 (LedgerEntry.commit e) ++ ellipsis)%string;
         UserView.encrypted :=
           (strPrefix 20 (LedgerEntry.openingEncrypted e) ++ ellipsis)%string |})
      <$> filter (fun e => ~ isHolder (KeyPair.id me) e) (LedgerState.entries ledger) |}.

(** ** [updateOwnEntry] (lines 304-368) *)

(** What the first part of [updateOwnEntry] computes before it touches the
    array of entries: [myIndex], the replacement entry, [newT], [newRsum]. *)
Record OwnUpdate := {
  u_index : nat;
  u_entry : LedgerEntry.t;
  u_T : Z;
  u_Rsum : Z;
}.

(** From the policy check to "Update totals", with the entry literal of
    "Update entry". *)
Definition planOwnUpdate (ledger : LedgerState.t) (me : KeyPair.t)
  (newAmount : number) : Rand OwnUpdate :=
  if negb (LedgerState.allowSelfUpdate ledger) then lift (Throw PermissionDenied) else
  match list_find (isHolder (KeyPair.id me)) (LedgerState.entries ledger) with
  | None => lift (Throw NotFound)
  | Some (myIndex, myEntry) =>
      let! (oldV, oldR) :=
        lift (try_catch
                (decryptOpening (KeyPair.secretKey (KeyPair.x25519 me))
                                (LedgerEntry.openingEncrypted myEntry))
                (Throw DecryptionFailure)) in
      let! newV := lift (BigInt_of_number newAmount) in
      let! newR := freshBlinding in
      let! newC := lift (commit newV newR) in
      let! newEnc :=
        encryptOpening (KeyPair.publicKey (KeyPair.x25519 me)) newV newR in
      let! oldT := lift (decToBig (LedgerTotal.T (LedgerState.total ledger))) in
      let! oldRsum := lift (decToBig (LedgerTotal.R (LedgerState.total ledger))) in
      let newT := oldT - oldV + newV in
      let newRsum := modL (oldRsum - oldR + newR) in
      rret {|
        u_index := myIndex;
        u_entry := {|
          LedgerEntry.holderId := KeyPair.id me;
          LedgerEntry.commit := pointToHex newC;
          LedgerEntry.openingEncrypted := newEnc |};
        u_T := newT;
        u_Rsum := newRsum |}
  end.

(** The result object [{ ...ledger, entries: newEntries, total: {...} }]. *)
Definition updatedLedger (ledger : LedgerState.t) (newEntries : list LedgerEntry.t)
  (u : OwnUpdate) (newCsum : Point) : LedgerState.t :=
  {| LedgerState.version := LedgerState.version ledger;
     LedgerState.entries := newEntries;
     LedgerState.total := {|
       LedgerTotal.T := bigToDec (u_T u);
       LedgerTotal.R := bigToDec (u_Rsum u);
       LedgerTotal.commitSum := pointToHex newCsum |};
     LedgerState.allowSelfUpdate := LedgerState.allowSelfUpdate ledger |}.

(** [updateOwnEntry] on ledger values: [newEntries] is the list of entries
    with cell [myIndex] replaced ([myIndex] is in range, coming from
    [findIndex]). *)
Definition updateOwnEntry (ledger : LedgerState.t) (me : KeyPair.t)
  (newAmount : number) : Rand LedgerState.t :=
  let! u := planOwnUpdate ledger me newAmount in
  let newEntries := <[u_index u := u_entry u]> (LedgerState.entries ledger) in
  let! newCsum := lift (sumCommits newEntries) in
  rret (updatedLedger ledger newEntries u newCsum).

(** ** [updateOwnEntry] on the heap *)

Definition updateOwnEntry_heap (h : Heap) (o : LedgerObj) (me : KeyPair.t)
  (newAmount : number) : Rand (Heap * LedgerObj) :=
  match load h o with
  | None => lift (Throw TypeError)
  | Some ledger =>
      let! u := planOwnUpdate ledger me newAmount in
      (* const newEntries = [...ledger.entries] *)
      let a := fresh (dom h) in
      let h1 := <[a := LedgerState.entries ledger]> h in
      (* newEntries[myIndex] = { ... } *)
      let h2 := alter (fun es => <[u_index u := u_entry u]> es) a h1 in
      (* newEntries.map(...).reduce(...) *)
      let! newCsum := lift (sumCommits (default [] (h2 !! a))) in
      rret (h2, {| o_version := o_version o;
                   o_entries := a;
                   o_total := {|
                     LedgerTotal.T := bigToDec (u_T u);
                     LedgerTotal.R := bigToDec (u_Rsum u);
                     LedgerTotal.commitSum := pointToHex newCsum |};
                   o_allowSelfUpdate := o_allowSelfUpdate o |})
  end.

(** ** [pedersen] and [ristrettoAdd] of the shared crypto utilities
    (lines 65-85 there) *)

Definition pedersen (v : Z) (r : bytes) : result string :=
  let* rBig0 := BigInt ("0x" ++ hex.fromBytes r) in
  let rBig := modL rBig0 in
  let vMod := modL v in
  let* vPoint := if vMod =? 0 then Ok ZERO else multiply G vMod in
  let* rPoint := if rBig =? 0 then Ok ZERO else multiply H rBig in
  let C := padd vPoint rPoint in
  Ok (hex.fromBytes (Point_toBytes C)).

Definition ristrettoAdd (aHex bHex : string) : result string :=
  let* A := Point_fromBytes (hex.toBytes aHex) in
  let* B := Point_fromBytes (hex.toBytes bHex) in
  Ok (hex.fromBytes (Point_toBytes (padd A B))).

End Ledger.

(* ================================================================== *)
(** * Notions used in the statements *)
(* ================================================================== *)

(** ** Text *)

Fixpoint allChars (p : ascii -> bool) (s : string) : bool :=
  match s with
  | EmptyString => true
  | String c s' => p c && allChars p s'
  end.

Definition isHexDigit (c : ascii) : bool := bool_decide (is_Some (digitIn 16 c)).
Definition isDecDigit (c : ascii) : bool := bool_decide (is_Some (digitIn 10 c)).
Definition notWhiteSpace (c : ascii) : bool := negb (isWhiteSpace c).

(** The two hex digits of a byte. *)
Definition byteHex (x : byte) : string := padStart2 (toString16 (Z.of_N (Byte.to_N x))).

(** The big-endian value of a byte string. *)
Definition beValue (acc : Z) (b : bytes) : Z :=
  foldl (fun a x => a * 256 + Z.of_N (Byte.to_N x)) acc b.

(** ** Tampering *)

(** Replacing single fields of a ledger value. *)
Definition withCommit (h : string) (en : LedgerEntry.t) : LedgerEntry.t :=
  {| LedgerEntry.holderId := LedgerEntry.holderId en;
     LedgerEntry.commit := h;
     LedgerEntry.openingEncrypted := LedgerEntry.openingEncrypted en |}.

Definition withEntries (l : LedgerState.t) (es : list LedgerEntry.t) : LedgerState.t :=
  {| LedgerState.version := LedgerState.version l;
     LedgerState.entries := es;
     LedgerState.total := LedgerState.total l;
     LedgerState.allowSelfUpdate := LedgerState.allowSelfUpdate l |}.

Definition withTotal (l : LedgerState.t) (t : LedgerTotal.t) : LedgerState.t :=
  {| LedgerState.version := LedgerState.version l;
     LedgerState.entries := LedgerState.entries l;
     LedgerState.total := t;
     LedgerState.allowSelfUpdate := LedgerState.allowSelfUpdate l |}.

Definition tamperCommit (l : LedgerState.t) (i : nat) (h : string) : LedgerState.t :=
  withEntries l (alter (withCommit h) i (LedgerState.entries l)).

Definition tamperT (l : LedgerState.t) (s : string) : LedgerState.t :=
  withTotal l {| LedgerTotal.T := s;
                 LedgerTotal.R := LedgerTotal.R (LedgerState.total l);
                 LedgerTotal.commitSum := LedgerTotal.commitSum (LedgerState.total l) |}.

Definition tamperR (l : LedgerState.t) (s : string) : LedgerState.t :=
  withTotal l {| LedgerTotal.T := LedgerTotal.T (LedgerState.total l);
                 LedgerTotal.R := s;
                 LedgerTotal.commitSum := LedgerTotal.commitSum (LedgerState.total l) |}.

Definition tamperCommitSum (l : LedgerState.t) (h : string) : LedgerState.t :=
  withTotal l {| LedgerTotal.T := LedgerTotal.T (LedgerState.total l);
                 LedgerTotal.R := LedgerTotal.R (LedgerState.total l);
                 LedgerTotal.commitSum := h |}.

Section Notions.
Context {curve : Ristretto255} {platform : Platform}.

(** The sum of a list of points, as [reduce((a, b) => a.add(b), ZERO)]. *)
Definition psum (ps : list Point) : Point := foldl padd ZERO ps.

(** A key pair as [x25519.keygen()] makes them. *)
Definition validKeys (k : KeyPair.keys) : Prop :=
  length (KeyPair.secretKey k) = 32%nat /\
  KeyPair.publicKey k = x25519_getPublicKey (KeyPair.secretKey k).

Definition amountValue (a : MintAllocation.t) : Z :=
  match MintAllocation.amount a with Integral z => z | NonIntegral => 0 end.

Definition totalAmount (allocs : list MintAllocation.t) : Z :=
  foldr (fun a acc => amountValue a + acc) 0 allocs.

(** An allocation [mintPoC] can process: an integral amount in the range of
    scalars, for a holder with a usable X25519 key pair. *)
Definition validAllocation (a : MintAllocation.t) : Prop :=
  (exists z, MintAllocation.amount a = Integral z /\ 0 <= z < L) /\
  validKeys (KeyPair.x25519 (MintAllocation.holder a)).

(** Entry [e] is the entry of allocation [a]: it commits to the amount under
    some blinding [r], and its opening decrypts to both under the holder's key. *)
Definition opensTo (a : MintAllocation.t) (e : LedgerEntry.t) (r : Z) : Prop :=
  0 <= amountValue a < L /\ 0 <= r < L /\
  LedgerEntry.holderId e = KeyPair.id (MintAllocation.holder a) /\
  LedgerEntry.commit e = pointToHex (padd (smul (amountValue a) G) (smul r H)) /\
  decryptOpening (KeyPair.secretKey (KeyPair.x25519 (MintAllocation.holder a)))
                 (LedgerEntry.openingEncrypted e) = Ok (amountValue a, r).

(** What the loop of [mintPoC] maintains. *)
Definition MintInv (st : MintLoop) : Prop :=
  sumCommits (m_entries st) = Ok (m_Csum st) /\
  m_Csum st = padd (smul (m_T st) G) (smul (m_Rsum st) H) /\
  0 <= m_Rsum st < L.

(** What [getUserView] computes for the caller's own entry. *)
Definition ownEntryView (me : KeyPair.t) (mine : option (nat * LedgerEntry.t))
  : result (option Z * bool) :=
  match mine with
  | Some (_, mine) =>
      try_catch
        (let* (vBig, rBig) :=
           decryptOpening (KeyPair.secretKey (KeyPair.x25519 me))
                          (LedgerEntry.openingEncrypted mine) in
         let* ok := verifyOpening (LedgerEntry.commit mine) vBig rBig in
         Ok (Some vBig, ok))
        (Ok (None, false))
  | None => Ok (None, true)
  end.

(** One field of [l] replaced by a value that does not decode to what the
    old value decodes to (it may not decode at all). *)
Inductive tampered (l : LedgerState.t) : LedgerState.t -> Prop :=
| tampered_commit i en h :
    LedgerState.entries l !! i = Some en ->
    pointFromHex h <> pointFromHex (LedgerEntry.commit en) ->
    tampered l (tamperCommit l i h)
| tampered_T s :
    decToBig s <> decToBig (LedgerTotal.T (LedgerState.total l)) ->
    tampered l (tamperT l s)
| tampered_R s :
    decToBig s <> decToBig (LedgerTotal.R (LedgerState.total l)) ->
    tampered l (tamperR l s)
| tampered_commitSum h :
    pointFromHex h <> pointFromHex (LedgerTotal.commitSum (LedgerState.total l)) ->
    tampered l (tamperCommitSum l h).

(** A ledger with a field that does not decode: a total that [BigInt]
    refuses, or a commitment (the sum's or an entry's) whose text is not the
    hex of a point. *)
Inductive malformed (l : LedgerState.t) : Prop :=
| malformed_T x :
    decToBig (LedgerTotal.T (LedgerState.total l)) = Throw x -> malformed l
| malformed_R x :
    decToBig (LedgerTotal.R (LedgerState.total l)) = Throw x -> malformed l
| malformed_commitSum x :
    pointFromHex (LedgerTotal.commitSum (LedgerState.total l)) = Throw x -> malformed l
| malformed_commit i en x :
    LedgerState.entries l !! i = Some en ->
    pointFromHex (LedgerEntry.commit en) = Throw x ->
    malformed l.

End Notions.

(* ================================================================== *)
(** * A small executable implementation of the two contracts *)
(* ================================================================== *)

(** The group is the additive group of integers modulo [L] with generators 1
    and 2; key agreement, key derivation, cipher and codecs are the simplest
    functions that satisfy the contracts.  Nothing here is secure: the
    implementation only serves to run the ledger operations. *)
Module Toy.

Definition byteOfZ (z : Z) : byte := default x00 (Byte.of_N (Z.to_N (z mod 256))).
Definition byteToZ (b : byte) : Z := Z.of_N (Byte.to_N b).

(** Little-endian encoding on [n] bytes. *)
Fixpoint encodeLE (n : nat) (z : Z) : bytes :=
  match n with
  | O => []
  | S n' => byteOfZ z :: encodeLE n' (z / 256)
  end.

Definition decodeLE (bs : bytes) : Z :=
  foldr (fun b acc => byteToZ b + 256 * acc) 0 bs.

Definition Point : Type := Zmod L.
Definition ZERO : Point := Zmod.zero.
Definition BASE : Point := Zmod.of_Z L 1.
Definition hashToCurve (_ : bytes) : Point := Zmod.of_Z L 2.
Definition padd (P Q : Point) : Point := Zmod.add P Q.
Definition smul (k : Z) (P : Point) : Point := Zmod.mul (Zmod.of_Z L k) P.
Definition toBytes (P : Point) : bytes := encodeLE 32 (Zmod.to_Z P).
Definition fromBytes (bs : bytes) : result Point :=
  if bool_decide (length bs = 32%nat) && (decodeLE bs <? L)
  then Ok (Zmod.of_Z L (decodeLE bs))
  else Throw CurveError.

Definition addBytes (a b : byte) : byte := byteOfZ (byteToZ a + byteToZ b).

Definition getPublicKey (sk : bytes) : bytes := sk.
Definition getSharedSecret (sk pk : bytes) : result bytes :=
  if bool_decide (length sk = 32%nat) && bool_decide (length pk = 32%nat)
  then Ok (zip_with addBytes sk pk)
  else Throw CurveError.
Definition hkdf (ikm salt info : bytes) (n : nat) : bytes :=
  take n (ikm ++ replicate n x00).
Definition encrypt (key iv pt : bytes) : result bytes :=
  if bool_decide (length key = 32%nat) then Ok (key ++ iv ++ pt) else Throw CryptoError.
Definition decrypt (key iv ct : bytes) : result bytes :=
  let k := key ++ iv in
  if bool_decide (length key = 32%nat) && bool_decide (take (length k) ct = k)
  then Ok (drop (length k) ct)
  else Throw CryptoError.
Definition btoa (s : string) : string := s.
Definition atob (s : string) : result string := Ok s.

(** The text of [{v, r}]: the length of [sv] in unary, then [sv], then [sr]. *)
Fixpoint unary (n : nat) : string :=
  match n with
  | O => String "0" EmptyString
  | S n' => String "1" (unary n')
  end.

Fixpoint readUnary (s : string) : option (nat * string) :=
  match s with
  | String "0" s' => Some (O, s')
  | String "1" s' =>
      match readUnary s' with
      | Some (n, r) => Some (S n, r)
      | None => None
      end
  | _ => None
  end.

Fixpoint splitAt (n : nat) (s : string) : string * string :=
  match n, s with
  | S n', String c s' => let (a, b) := splitAt n' s' in (String c a, b)
  | _, _ => (EmptyString, s)
  end.

Definition stringify_vr (sv sr : string) : string :=
  (unary (String.length sv) ++ sv ++ sr)%string.

Definition parse_vr (pt : bytes) : result (jsval * jsval) :=
  match readUnary (string_of_list_byte pt) with
  | Some (n, rest) => let (sv, sr) := splitAt n rest in Ok (JsString sv, JsString sr)
  | None => Throw SyntaxError
  end.

(** A tape of random bytes. *)
Definition entropy : Entropy :=
  {| tape := fun i => byteOfZ (Z.of_nat i * 37 + 11); pos := 0 |}.

End Toy.

(* ================================================================== *)
(** * Stored key pairs, the public summary and the shared utilities *)
(* ================================================================== *)

(** The rest of [ledger.impl.ts], [ledger.verify.ts], and [randomScalar]
    and [verifyOpening] of [shared/crypto.ts]. *)

Module SerializedKeyPair.
Record keys := { publicKey : string; secretKey : string }.
Record t := { id : string; ed25519 : keys; x25519 : keys }.
End SerializedKeyPair.

Module LedgerPublicSummary.
Record t := {
  version : string;
  participantCount : nat;
  total : LedgerTotal.t;
  verified : bool;
}.
End LedgerPublicSummary.

Module VerificationStatus.
Record check := { name : string; passed : bool; description : string }.
Record t := { verified : bool; checks : list check }.
End VerificationStatus.

Section Helpers.
Context {curve : Ristretto255} {platform : Platform}.

(** ** Stored key pairs (lines 152-178) *)

Definition serializeKeyPair (kp : KeyPair.t) : SerializedKeyPair.t :=
  {| SerializedKeyPair.id := KeyPair.id kp;
     SerializedKeyPair.ed25519 := {|
       SerializedKeyPair.publicKey := b64.enc (KeyPair.publicKey (KeyPair.ed25519 kp));
       SerializedKeyPair.secretKey := b64.enc (KeyPair.secretKey (KeyPair.ed25519 kp)) |};
     SerializedKeyPair.x25519 := {|
       SerializedKeyPair.publicKey := b64.enc (KeyPair.publicKey (KeyPair.x25519 kp));
       SerializedKeyPair.secretKey := b64.enc (KeyPair.secretKey (KeyPair.x25519 kp)) |} |}.

Definition deserializeKeyPair (skp : SerializedKeyPair.t) : result KeyPair.t :=
  let* edPub := b64.dec (SerializedKeyPair.publicKey (SerializedKeyPair.ed25519 skp)) in
  let* edSec := b64.dec (SerializedKeyPair.secretKey (SerializedKeyPair.ed25519 skp)) in
  let* xPub := b64.dec (SerializedKeyPair.publicKey (SerializedKeyPair.x25519 skp)) in
  let* xSec := b64.dec (SerializedKeyPair.secretKey (SerializedKeyPair.x25519 skp)) in
  Ok {| KeyPair.id := SerializedKeyPair.id skp;
        KeyPair.ed25519 := {| KeyPair.publicKey := edPub; KeyPair.secretKey := edSec |};
        KeyPair.x25519 := {| KeyPair.publicKey := xPub; KeyPair.secretKey := xSec |} |}.

(** ** [ledger.verify.ts] *)

Definition getPublicSummary (ledger : LedgerState.t) : result LedgerPublicSummary.t :=
  let* verified := verifyTotal ledger in
  Ok {| LedgerPublicSummary.version := LedgerState.version ledger;
        LedgerPublicSummary.participantCount := length (LedgerState.entries ledger);
        LedgerPublicSummary.total := LedgerState.total ledger;
        LedgerPublicSummary.verified := verified |}.

(** The sign [×] of the second description, as UTF-8. *)
Definition times : string :=
  String (ascii_of_nat 195) (String (ascii_of_nat 151) EmptyString).

Definition getVerificationStatus (ledger : LedgerState.t) : result VerificationStatus.t :=
  let* totalOk := verifyTotal ledger in
  let checks := [
    {| VerificationStatus.name := "schema_version";
       VerificationStatus.passed := bool_decide (LedgerState.version ledger = "1"%string);
       VerificationStatus.description := "Ledger uses expected schema version" |};
    {| VerificationStatus.name := "total_verification";
       VerificationStatus.passed := totalOk;
       VerificationStatus.description :=
         ("Sum of commitments matches total commitment (G" ++ times ++ "T + H"
          ++ times ++ "R)")%string |};
    {| VerificationStatus.name := "has_entries";
       VerificationStatus.passed :=
         bool_decide (0 < length (LedgerState.entries ledger))%nat;
       VerificationStatus.description := "Ledger contains at least one entry" |} ] in
  Ok {| VerificationStatus.verified := forallb VerificationStatus.passed checks;
        VerificationStatus.checks := checks |}.

End Helpers.

(** ** The shared crypto utilities ([shared/crypto.ts]) *)
Module crypto.
Section Crypto.
Context {curve : Ristretto255} {platform : Platform}.

Definition randomScalar : Rand bytes := randomBytes 32.

Definition verifyOpening (commitHex : string) (v : Z) (r : bytes) : result bool :=
  let* C := Point_fromBytes (hex.toBytes commitHex) in
  let* rBig := BigInt ("0x" ++ hex.fromBytes r) in
  let* expected := pedersen v r in
  Ok (bool_decide (commitHex = expected)).

End Crypto.
End crypto.

(* ================================================================== *)
(** * The clock *)
(* ================================================================== *)

(** [Date.now()]: the successive readings of the clock, in milliseconds. *)
Record Clock := { readings : nat -> Z; reads : nat }.

(** Code that reads the clock and may throw. *)
Definition Timed (A : Type) : Type := Clock -> result (A * Clock).

Definition tret {A} (a : A) : Timed A := fun c => Ok (a, c).

Definition tbind {A B} (m : Timed A) (k : A -> Timed B) : Timed B :=
  fun c => match m c with Ok (a, c') => k a c' | Throw x => Throw x end.

Definition tlift {A} (m : result A) : Timed A :=
  fun c => match m with Ok a => Ok (a, c) | Throw x => Throw x end.

Definition throw {A} (x : exn) : Timed A := fun _ => Throw x.

Notation "'let@' x ':=' e 'in' k" := (tbind e (fun x => k))
  (at level 10, x pattern, e at level 100, k at level 200) : js_scope.

Definition Date_now : Timed Z :=
  fun c => Ok (readings c (reads c), {| readings := readings c; reads := S (reads c) |}).

(* ================================================================== *)
(** * Fundraising: the data model ([fundraising.schema.ts]) *)
(* ================================================================== *)

Module PledgeEntry.
Record t := {
  pledgerId : string;
  commit : string;
  openingEncrypted : string;
  signedAt : Z;
  signature : option string;
}.
End PledgeEntry.

Module Beneficiary.
Inductive kind := budget | treasury | project.
Record t := { type : kind; id : string }.
End Beneficiary.

(** The five values of [status]. *)
Inductive CampaignStatus := draft | active | funded | failed | settled.

#[global] Instance CampaignStatus_eq_dec : EqDecision CampaignStatus.
Proof. solve_decision. Defined.

(** The string a status is in the source, as template literals print it. *)
Definition statusName (s : CampaignStatus) : string :=
  match s with
  | draft => "draft"
  | active => "active"
  | funded => "funded"
  | failed => "failed"
  | settled => "settled"
  end.

(** Timestamps ([deadline], [createdAt], [signedAt], [settledAt]) are the
    integers [Date.now()] returns. *)
Module Campaign.
Record t := {
  version : string;
  campaignId : string;
  name : string;
  description : string;
  targetAmount : string;
  deadline : Z;
  beneficiary : Beneficiary.t;
  pledges : list PledgeEntry.t;
  totalCommit : string;
  status : CampaignStatus;
  createdAt : Z;
  createdBy : string;
  settledAt : option Z;
  assetId : option string;
}.
End Campaign.

Module CreateCampaignParams.
Record t := {
  campaignId : string;
  name : string;
  description : string;
  targetAmount : string;
  deadline : Z;
  beneficiary : Beneficiary.t;
  createdBy : string;
  assetId : option string;
}.
End CreateCampaignParams.

Module SubmitPledgeParams.
Record t := {
  pledgerId : string;
  amount : string;
  blinding : bytes;
  recipientPublicKey : bytes;
}.
End SubmitPledgeParams.

Module FundingStatus.
Record t := { isFunded : bool; totalPledged : Z; isVerified : bool }.
End FundingStatus.

(** The text of a pledge opening, as Node's [Buffer] and [JSON] make and read
    it. *)
Class PledgeCodec := {
  (* Buffer.from(JSON.stringify({ amount, r: Array.from(blinding) })).toString("base64") *)
  encodePledgeOpening : string -> bytes -> string;
  (* const opening = JSON.parse(Buffer.from(s, "base64").toString());
     { amount: opening.amount, r: new Uint8Array(opening.r) } *)
  decodePledgeOpening : string -> result (jsval * bytes);
  decode_encode_pledgeOpening : forall amount r,
    decodePledgeOpening (encodePledgeOpening amount r) = Ok (JsString amount, r);
}.

(* ================================================================== *)
(** * Fundraising: the operations ([fundraising.impl.ts]) *)
(* ================================================================== *)

Section Fundraising.
Context {curve : Ristretto255} {codec : PledgeCodec}.

(** The literal of 64 zeros the source writes for the identity point. *)
Definition identityHex : string :=
  "0000000000000000000000000000000000000000000000000000000000000000".

Definition withStatus (c : Campaign.t) (s : CampaignStatus) (settledAt : option Z)
  : Campaign.t :=
  {| Campaign.version := Campaign.version c;
     Campaign.campaignId := Campaign.campaignId c;
     Campaign.name := Campaign.name c;
     Campaign.description := Campaign.description c;
     Campaign.targetAmount := Campaign.targetAmount c;
     Campaign.deadline := Campaign.deadline c;
     Campaign.beneficiary := Campaign.beneficiary c;
     Campaign.pledges := Campaign.pledges c;
     Campaign.totalCommit := Campaign.totalCommit c;
     Campaign.status := s;
     Campaign.createdAt := Campaign.createdAt c;
     Campaign.createdBy := Campaign.createdBy c;
     Campaign.settledAt := settledAt;
     Campaign.assetId := Campaign.assetId c |}.

Definition createCampaign (params : CreateCampaignParams.t) : Timed Campaign.t :=
  let@ target := tlift (BigInt (CreateCampaignParams.targetAmount params)) in
  if target <=? 0 then throw (Error "Target amount must be positive") else
  let@ now := Date_now in
  if CreateCampaignParams.deadline params <=? now
  then throw (Error "Deadline must be in the future") else
  let@ createdAt := Date_now in
  tret {| Campaign.version := "1";
          Campaign.campaignId := CreateCampaignParams.campaignId params;
          Campaign.name := CreateCampaignParams.name params;
          Campaign.description := CreateCampaignParams.description params;
          Campaign.targetAmount := CreateCampaignParams.targetAmount params;
          Campaign.deadline := CreateCampaignParams.deadline params;
          Campaign.beneficiary := CreateCampaignParams.beneficiary params;
          Campaign.pledges := [];
          Campaign.totalCommit := identityHex;
          Campaign.status := draft;
          Campaign.createdAt := createdAt;
          Campaign.createdBy := CreateCampaignParams.createdBy params;
          Campaign.settledAt := None;
          Campaign.assetId := CreateCampaignParams.assetId params |}.

Definition activateCampaign (campaign : Campaign.t) : Timed Campaign.t :=
  if negb (bool_decide (Campaign.status campaign = draft))
  then throw (Error ("Cannot activate campaign with status: "
                     ++ statusName (Campaign.status campaign))) else
  let@ now := Date_now in
  if Campaign.deadline campaign <=? now
  then throw (Error "Cannot activate campaign past deadline") else
  tret (withStatus campaign active (Campaign.settledAt campaign)).

(** [(p) => p.pledgerId === pledgerId] *)
Definition isPledger (id : string) (p : PledgeEntry.t) : Prop :=
  PledgeEntry.pledgerId p = id.

#[global] Instance isPledger_dec id p : Decision (isPledger id p) :=
  decide (PledgeEntry.pledgerId p = id).

Definition submitPledge (campaign : Campaign.t) (params : SubmitPledgeParams.t)
  : Timed Campaign.t :=
  let pledgerId := SubmitPledgeParams.pledgerId params in
  let amount := SubmitPledgeParams.amount params in
  let blinding := SubmitPledgeParams.blinding params in
  if negb (bool_decide (Campaign.status campaign = active))
  then throw (Error ("Cannot submit pledge to " ++ statusName (Campaign.status campaign)
                     ++ " campaign")) else
  let@ now := Date_now in
  if Campaign.deadline campaign <=? now
  then throw (Error "Campaign deadline has passed") else
  let@ pledgeAmount := tlift (BigInt amount) in
  if pledgeAmount <=? 0 then throw (Error "Pledge amount must be positive") else
  if bool_decide (Exists (isPledger pledgerId) (Campaign.pledges campaign))
  then throw (Error (pledgerId ++ " has already pledged to this campaign")) else
  let@ commit := tlift (pedersen pledgeAmount blinding) in
  let openingEncrypted := encodePledgeOpening amount blinding in
  let@ signedAt := Date_now in
  let pledge := {| PledgeEntry.pledgerId := pledgerId;
                   PledgeEntry.commit := commit;
                   PledgeEntry.openingEncrypted := openingEncrypted;
                   PledgeEntry.signedAt := signedAt;
                   PledgeEntry.signature := None |} in
  let@ newTotalCommit := tlift (ristrettoAdd (Campaign.totalCommit campaign) commit) in
  tret {| Campaign.version := Campaign.version campaign;
          Campaign.campaignId := Campaign.campaignId campaign;
          Campaign.name := Campaign.name campaign;
          Campaign.description := Campaign.description campaign;
          Campaign.targetAmount := Campaign.targetAmount campaign;
          Campaign.deadline := Campaign.deadline campaign;
          Campaign.beneficiary := Campaign.beneficiary campaign;
          Campaign.pledges := Campaign.pledges campaign ++ [pledge];
          Campaign.totalCommit := newTotalCommit;
          Campaign.status := Campaign.status campaign;
          Campaign.createdAt := Campaign.createdAt campaign;
          Campaign.createdBy := Campaign.createdBy campaign;
          Campaign.settledAt := Campaign.settledAt campaign;
          Campaign.assetId := Campaign.assetId campaign |}.

(** [for (const pledge of pledges) sum = ristrettoAdd(sum, pledge.commit)] *)
Fixpoint sumPledgeCommits (sum : string) (pledges : list PledgeEntry.t) : result string :=
  match pledges with
  | [] => Ok sum
  | pledge :: rest =>
      let* sum' := ristrettoAdd sum (PledgeEntry.commit pledge) in
      sumPledgeCommits sum' rest
  end.

Definition verifyCampaignTotal (campaign : Campaign.t) : result bool :=
  match Campaign.pledges campaign with
  | [] => Ok (bool_decide (Campaign.totalCommit campaign = identityHex))
  | pledges =>
      let* sum := sumPledgeCommits identityHex pledges in
      Ok (bool_decide (sum = Campaign.totalCommit campaign))
  end.

Definition decryptPledgeOpening (openingEncrypted : string) : result (jsval * bytes) :=
  decodePledgeOpening openingEncrypted.

(** The loop of [checkFundingStatus]: [None] when the [catch] returns. *)
Fixpoint sumOpenings (pledges : list PledgeEntry.t) (totalPledged : Z) : option Z :=
  match pledges with
  | [] => Some totalPledged
  | pledge :: rest =>
      match (let* (amount, _) := decryptPledgeOpening (PledgeEntry.openingEncrypted pledge) in
             BigInt_of_value amount) with
      | Ok a => sumOpenings rest (totalPledged + a)
      | Throw _ => None
      end
  end.

Definition checkFundingStatus (campaign : Campaign.t) : result FundingStatus.t :=
  let* isVerified := verifyCampaignTotal campaign in
  match sumOpenings (Campaign.pledges campaign) 0 with
  | None => Ok {| FundingStatus.isFunded := false;
                  FundingStatus.totalPledged := 0;
                  FundingStatus.isVerified := false |}
  | Some totalPledged =>
      let* target := BigInt (Campaign.targetAmount campaign) in
      Ok {| FundingStatus.isFunded := target <=? totalPledged;
            FundingStatus.totalPledged := totalPledged;
            FundingStatus.isVerified := isVerified |}
  end.

Definition closeCampaign (campaign : Campaign.t) : Timed Campaign.t :=
  if negb (bool_decide (Campaign.status campaign = active))
  then throw (Error ("Cannot close campaign with status: "
                     ++ statusName (Campaign.status campaign))) else
  let@ now := Date_now in
  let deadlinePassed := Campaign.deadline campaign <=? now in
  let@ fs := tlift (checkFundingStatus campaign) in
  if negb (FundingStatus.isVerified fs)
  then throw (Error "Cannot close campaign with unverified commitments") else
  let@ newStatus :=
    if deadlinePassed
    then tret (if FundingStatus.isFunded fs then funded else failed)
    else if FundingStatus.isFunded fs then tret funded
         else throw (Error "Cannot close campaign before deadline unless funded") in
  tret (withStatus campaign newStatus (Campaign.settledAt campaign)).

Definition settleCampaign (campaign : Campaign.t) : Timed Campaign.t :=
  if negb (bool_decide (Campaign.status campaign = funded))
     && negb (bool_decide (Campaign.status campaign = failed))
  then throw (Error ("Cannot settle campaign with status: "
                     ++ statusName (Campaign.status campaign))) else
  let@ now := Date_now in
  tret (withStatus campaign settled (Some now)).

End Fundraising.

(* ================================================================== *)
(** * The stablecoin: data model ([stablecoin.schema.ts]) *)
(* ================================================================== *)

(** A JavaScript [number] with its value: [m * 2^e] for a finite one (every
    finite double has this form), NaN or an infinity. *)
Inductive num : Type :=
| Finite (m e : Z)
| NaN
| Infinity (negative : bool).

(** [n <= 0] *)
Definition num_le0 (n : num) : bool :=
  match n with
  | Finite m _ => m <=? 0
  | NaN => false
  | Infinity negative => negative
  end.

(** What the platform prints and draws for the stablecoin code. *)
Class NumberFormat := {
  (* n.toString() and `${n}` for a number n *)
  Number_toString : number -> string;
}.

Module AssetRules.
Record t := {
  allowSelfMint : option bool;
  allowSelfBurn : option bool;
  transferable : option bool;
  cappedSupply : option bool;
  maxSupply : option string;
}.
End AssetRules.

Module Operation.
Inductive kind := mint | burn | transfer.
Inductive state := pending | confirmed | settled.
Record t := {
  id : string;
  type : kind;
  timestamp : Z;
  authority : option string;
  from : option string;
  to : option string;
  amount : string;
  reason : option string;
  status : state;
  signature : option jsval;
}.
End Operation.

#[global] Instance Operation_kind_eq_dec : EqDecision Operation.kind.
Proof. solve_decision. Defined.

Module Authorities.
Record t := { mintAuthority : list string; burnAuthority : list string }.
End Authorities.

Module AssetState.
Record t := {
  version : string;
  assetId : string;
  assetName : string;
  ledger : LedgerState.t;
  operations : list Operation.t;
  authorities : Authorities.t;
  rules : AssetRules.t;
}.
End AssetState.

Module AssetAllocation.
Record t := { recipient : string; amount : number }.
End AssetAllocation.

Module AssetPublicSummary.
Record t := {
  version : string;
  assetId : string;
  assetName : string;
  holderCount : nat;
  totalSupply : string;
  operationCount : nat;
  verified : bool;
  transferable : bool;
  cappedSupply : bool;
  maxSupply : option string;
}.
End AssetPublicSummary.

Module WalletView.
Record t := {
  assetId : string;
  assetName : string;
  myBalance : option Z;
  myBalanceValid : bool;
  publicTotalSupply : option Z;
  myOperations : list Operation.t;
  canMint : bool;
  canBurn : bool;
}.
End WalletView.

(** Truthiness of an optional boolean and of an optional string. *)
Definition truthy (b : option bool) : bool := default false b.

Definition truthyString (s : option string) : bool :=
  match s with
  | Some s => negb (bool_decide (s = EmptyString))
  | None => false
  end.

(** The double quote of the error messages. *)
Definition dq : string := String (ascii_of_nat 34) EmptyString.

(* ================================================================== *)
(** * The world of [createAsset]: random bytes, the clock, [Math.random] *)
(* ================================================================== *)

Record World := {
  w_entropy : Entropy;
  w_clock : Clock;
  (* the successive values of Math.random().toString(36).slice(2, 11) *)
  w_suffixes : nat -> string;
  w_drawn : nat;
}.

Definition IO (A : Type) : Type := World -> result (A * World).

Definition iret {A} (a : A) : IO A := fun w => Ok (a, w).

Definition ibind {A B} (m : IO A) (k : A -> IO B) : IO B :=
  fun w => match m w with Ok (a, w') => k a w' | Throw x => Throw x end.

Notation "'let$' x ':=' e 'in' k" := (ibind e (fun x => k))
  (at level 10, x pattern, e at level 100, k at level 200) : js_scope.

Definition ofResult {A} (m : result A) : IO A :=
  fun w => match m with Ok a => Ok (a, w) | Throw x => Throw x end.

Definition ofRand {A} (m : Rand A) : IO A :=
  fun w => match m (w_entropy w) with
           | Ok (a, e') => Ok (a, {| w_entropy := e'; w_clock := w_clock w;
                                     w_suffixes := w_suffixes w; w_drawn := w_drawn w |})
           | Throw x => Throw x
           end.

Definition ofTimed {A} (m : Timed A) : IO A :=
  fun w => match m (w_clock w) with
           | Ok (a, c') => Ok (a, {| w_entropy := w_entropy w; w_clock := c';
                                     w_suffixes := w_suffixes w; w_drawn := w_drawn w |})
           | Throw x => Throw x
           end.

(** [Math.random().toString(36).slice(2, 11)] *)
Definition randomSuffix : IO string :=
  fun w => Ok (w_suffixes w (w_drawn w),
               {| w_entropy := w_entropy w; w_clock := w_clock w;
                  w_suffixes := w_suffixes w; w_drawn := S (w_drawn w) |}).

(** [xs.map((x, index) => f(x, index))] for an [f] with effects. *)
Fixpoint imapM {A B} (f : nat -> A -> IO B) (index : nat) (xs : list A) : IO (list B) :=
  match xs with
  | [] => iret []
  | x :: rest =>
      let$ y := f index x in
      let$ ys := imapM f (S index) rest in
      iret (y :: ys)
  end.

(** [xs.reduce((acc, x) => f(acc, x), init)] for an [f] that may throw. *)
Fixpoint reduceM {A B} (f : B -> A -> result B) (xs : list A) (acc : B) : result B :=
  match xs with
  | [] => Ok acc
  | x :: rest => let* acc' := f acc x in reduceM f rest acc'
  end.

(* ================================================================== *)
(** * The stablecoin: operations ([stablecoin.impl.ts], [stablecoin.verify.ts]) *)
(* ================================================================== *)

Module stablecoin.
Section Stablecoin.
Context {curve : Ristretto255} {platform : Platform} {format : NumberFormat}.

Definition operationTypeName (k : Operation.kind) : string :=
  match k with
  | Operation.mint => "mint"
  | Operation.burn => "burn"
  | Operation.transfer => "transfer"
  end.

(** [generateOperationId(type, timestamp)] *)
Definition generateOperationId (type : Operation.kind) (timestamp : Z) : IO string :=
  let$ suffix := randomSuffix in
  iret (operationTypeName type ++ "_" ++ Number_toString (Integral timestamp)
        ++ "_" ++ suffix)%string.

(** The supply-cap check of [createAsset]. *)
Definition checkInitialSupply (rules : AssetRules.t)
    (initialAllocations : list AssetAllocation.t) : result unit :=
  if truthy (AssetRules.cappedSupply rules) && truthyString (AssetRules.maxSupply rules)
  then
    let* totalInitialSupply :=
      reduceM (fun sum alloc =>
                 let* a := BigInt_of_number (AssetAllocation.amount alloc) in Ok (sum + a))
              initialAllocations 0 in
    let* maxSupply := BigInt (default EmptyString (AssetRules.maxSupply rules)) in
    if maxSupply <? totalInitialSupply
    then Throw (Error ("Initial allocations total (" ++ toString10 totalInitialSupply
                       ++ ") would exceed max supply of " ++ toString10 maxSupply))
    else Ok tt
  else Ok tt.

(** The conversion of the allocations to the ledger's format. *)
Definition toLedgerAllocation (holderKeys : gmap string KeyPair.t)
    (alloc : AssetAllocation.t) : result MintAllocation.t :=
  match holderKeys !! AssetAllocation.recipient alloc with
  | None =>
      Throw (Error ("No KeyPair found for recipient " ++ dq
                    ++ AssetAllocation.recipient alloc ++ dq
                    ++ ". Create the identity first."))
  | Some holder =>
      Ok {| MintAllocation.holder := holder;
            MintAllocation.amount := AssetAllocation.amount alloc |}
  end.

(** The log entry of an initial allocation. *)
Definition initialOperation (authorities : Authorities.t) (index : nat)
    (alloc : AssetAllocation.t) : IO Operation.t :=
  let$ now := ofTimed Date_now in
  let$ id := generateOperationId Operation.mint (now + Z.of_nat index) in
  let$ now' := ofTimed Date_now in
  iret {| Operation.id := id;
          Operation.type := Operation.mint;
          Operation.timestamp := now' + Z.of_nat index;
          Operation.authority := head (Authorities.mintAuthority authorities);
          Operation.from := None;
          Operation.to := Some (AssetAllocation.recipient alloc);
          Operation.amount := Number_toString (AssetAllocation.amount alloc);
          Operation.reason := Some "Initial allocation"%string;
          Operation.status := Operation.confirmed;
          Operation.signature := None |}.

Definition createAsset (assetId assetName : string) (authorities : Authorities.t)
    (rules : AssetRules.t) (initialAllocations : list AssetAllocation.t)
    (holderKeys : gmap string KeyPair.t) : IO AssetState.t :=
  let$ _ := ofResult (checkInitialSupply rules initialAllocations) in
  let$ ledgerAllocations :=
    ofResult (mapM (toLedgerAllocation holderKeys) initialAllocations) in
  let$ ledger :=
    ofRand (mintPoC ledgerAllocations
              (truthy (AssetRules.allowSelfMint rules)
               || truthy (AssetRules.allowSelfBurn rules))) in
  let$ operations := imapM (initialOperation authorities) 0 initialAllocations in
  iret {| AssetState.version := "1";
          AssetState.assetId := assetId;
          AssetState.assetName := assetName;
          AssetState.ledger := ledger;
          AssetState.operations := operations;
          AssetState.authorities := authorities;
          AssetState.rules := rules |}.

(** [checkAuthority ? await checkAuthority(authority) : list.includes(authority)] *)
Definition hasAuthority (checkAuthority : option (string -> result bool))
    (list : list string) (authority : string) : result bool :=
  match checkAuthority with
  | Some check => check authority
  | None => Ok (bool_decide (authority ∈ list))
  end.

(** [mint]: every path ends in a [throw]; the statements after the last
    [if] of the source cannot be reached. *)
Definition mint (state : AssetState.t) (authority recipient : string) (amount : number)
    (reason : option string) (recipientKey : option KeyPair.t)
    (checkAuthority : option (string -> result bool)) : result AssetState.t :=
  let rules := AssetState.rules state in
  let* _ :=
    if negb (truthy (AssetRules.allowSelfMint rules)) then
      let* hasAuth :=
        hasAuthority checkAuthority
          (Authorities.mintAuthority (AssetState.authorities state)) authority in
      if negb hasAuth
      then Throw (Error ("AID " ++ dq ++ authority ++ dq
                         ++ " does not have mint authority for asset " ++ dq
                         ++ AssetState.assetId state ++ dq))
      else Ok tt
    else Ok tt in
  let* _ :=
    if truthy (AssetRules.cappedSupply rules) && truthyString (AssetRules.maxSupply rules)
    then
      let* currentSupply :=
        BigInt (LedgerTotal.T (LedgerState.total (AssetState.ledger state))) in
      let* maxSupply := BigInt (default EmptyString (AssetRules.maxSupply rules)) in
      let* minted := BigInt_of_number amount in
      let newSupply := currentSupply + minted in
      if maxSupply <? newSupply
      then Throw (Error ("Minting " ++ Number_toString amount
                         ++ " would exceed max supply of " ++ toString10 maxSupply
                         ++ ". Current supply: " ++ toString10 currentSupply))
      else Ok tt
    else Ok tt in
  let existingEntry :=
    list_find (isHolder recipient) (LedgerState.entries (AssetState.ledger state)) in
  if bool_decide (is_Some existingEntry) && bool_decide (is_Some recipientKey)
  then Throw (Error ("Minting to existing holders not yet implemented. "
                     ++ "Please mint to new holders only for now."))
  else Throw (Error ("Dynamic minting not yet fully implemented. "
                     ++ "Use createAsset with initialAllocations for now.")).

Definition burn (state : AssetState.t) (authority holder : string) (amount : number)
    (reason : option string) (holderKey : option KeyPair.t)
    (checkAuthority : option (string -> result bool)) : result AssetState.t :=
  let isSelfBurn :=
    bool_decide (authority = holder)
    && truthy (AssetRules.allowSelfBurn (AssetState.rules state)) in
  let* _ :=
    if negb isSelfBurn then
      let* hasAuth :=
        hasAuthority checkAuthority
          (Authorities.burnAuthority (AssetState.authorities state)) authority in
      if negb hasAuth
      then Throw (Error ("AID " ++ dq ++ authority ++ dq
                         ++ " does not have burn authority for asset " ++ dq
                         ++ AssetState.assetId state ++ dq))
      else Ok tt
    else Ok tt in
  match holderKey with
  | None =>
      Throw (Error ("KeyPair required for holder " ++ dq ++ holder ++ dq
                    ++ " to burn tokens"))
  | Some _ =>
      match list_find (isHolder holder)
                      (LedgerState.entries (AssetState.ledger state)) with
      | None =>
          Throw (Error ("Holder " ++ dq ++ holder ++ dq ++ " has no balance to burn"))
      | Some _ =>
          Throw (Error ("Burning not yet fully implemented. "
                        ++ "Ledger modification for burn operations requires additional "
                        ++ "F1 API enhancements."))
      end
  end.

Definition transfer (state : AssetState.t) (from to : string) (amount : num)
    (memo : option string) (fromKey toKey : option KeyPair.t) : result AssetState.t :=
  if bool_decide (AssetRules.transferable (AssetState.rules state) = Some false)
  then Throw (Error ("Asset " ++ dq ++ AssetState.assetId state ++ dq
                     ++ " is non-transferable. Transfers are disabled."))
  else if num_le0 amount then Throw (Error "Transfer amount must be positive")
  else if bool_decide (from = to) then Throw (Error "Cannot transfer to yourself")
  else
    match list_find (isHolder from) (LedgerState.entries (AssetState.ledger state)) with
    | None =>
        Throw (Error ("Sender " ++ dq ++ from ++ dq ++ " has no balance in this asset"))
    | Some _ =>
        match fromKey with
        | None =>
            Throw (Error ("KeyPair required for sender " ++ dq ++ from ++ dq
                          ++ " to transfer tokens"))
        | Some _ =>
            Throw (Error ("Transfers not yet fully implemented. "
                          ++ "Ledger modification for transfers requires additional "
                          ++ "F1 API enhancements."))
        end
    end.

Definition getTotalSupply (state : AssetState.t) : result Z :=
  BigInt (LedgerTotal.T (LedgerState.total (AssetState.ledger state))).

Definition getHolderCount (state : AssetState.t) : nat :=
  length (LedgerState.entries (AssetState.ledger state)).

(** The filter of [getUserOperations]. *)
Definition involves (aid : string) (op : Operation.t) : bool :=
  bool_decide (Operation.from op = Some aid)
  || bool_decide (Operation.to op = Some aid)
  || (bool_decide (Operation.authority op = Some aid)
      && (bool_decide (Operation.type op = Operation.mint)
          || bool_decide (Operation.type op = Operation.burn))).

Definition getUserOperations (state : AssetState.t) (aid : string) : list Operation.t :=
  List.filter (involves aid) (AssetState.operations state).

Definition hasMintAuthority (state : AssetState.t) (aid : string) : bool :=
  truthy (AssetRules.allowSelfMint (AssetState.rules state))
  || bool_decide (aid ∈ Authorities.mintAuthority (AssetState.authorities state)).

Definition hasBurnAuthority (state : AssetState.t) (aid : string) : bool :=
  truthy (AssetRules.allowSelfBurn (AssetState.rules state))
  || bool_decide (aid ∈ Authorities.burnAuthority (AssetState.authorities state)).

(** ** [stablecoin.verify.ts] *)

Definition getPublicSummary (state : AssetState.t) : result AssetPublicSummary.t :=
  let* verified := verifyTotal (AssetState.ledger state) in
  let* totalSupply := getTotalSupply state in
  let holderCount := getHolderCount state in
  Ok {| AssetPublicSummary.version := AssetState.version state;
        AssetPublicSummary.assetId := AssetState.assetId state;
        AssetPublicSummary.assetName := AssetState.assetName state;
        AssetPublicSummary.holderCount := holderCount;
        AssetPublicSummary.totalSupply := toString10 totalSupply;
        AssetPublicSummary.operationCount := length (AssetState.operations state);
        AssetPublicSummary.verified := verified;
        AssetPublicSummary.transferable :=
          negb (bool_decide (AssetRules.transferable (AssetState.rules state) = Some false));
        AssetPublicSummary.cappedSupply :=
          truthy (AssetRules.cappedSupply (AssetState.rules state));
        AssetPublicSummary.maxSupply := AssetRules.maxSupply (AssetState.rules state) |}.

Definition getWalletView (state : AssetState.t) (userKey : KeyPair.t)
  : result WalletView.t :=
  let* ledgerView := getUserView (AssetState.ledger state) userKey in
  let canMint :=
    truthy (AssetRules.allowSelfMint (AssetState.rules state))
    || bool_decide (KeyPair.id userKey
                    ∈ Authorities.mintAuthority (AssetState.authorities state)) in
  let canBurn :=
    truthy (AssetRules.allowSelfBurn (AssetState.rules state))
    || bool_decide (KeyPair.id userKey
                    ∈ Authorities.burnAuthority (AssetState.authorities state)) in
  let myOperations := getUserOperations state (KeyPair.id userKey) in
  Ok {| WalletView.assetId := AssetState.assetId state;
        WalletView.assetName := AssetState.assetName state;
        WalletView.myBalance := UserView.myBalance ledgerView;
        WalletView.myBalanceValid := UserView.myEntryValid ledgerView;
        WalletView.publicTotalSupply := UserView.publicTotal ledgerView;
        WalletView.myOperations := myOperations;
        WalletView.canMint := canMint;
        WalletView.canBurn := canBurn |}.

(** The loop over the operation log: [operationIds] is the set of ids seen
    so far. *)
Fixpoint duplicateErrors (operations : list Operation.t) (operationIds : gset string)
  : list string :=
  match operations with
  | [] => []
  | op :: rest =>
      (if bool_decide (Operation.id op ∈ operationIds)
       then ["Duplicate operation ID: " ++ Operation.id op]%string
       else [])
      ++ duplicateErrors rest ({[ Operation.id op ]} ∪ operationIds)
  end.

Definition verifyAssetState (state : AssetState.t) : result (bool * list string) :=
  let rules := AssetState.rules state in
  let* verified := verifyTotal (AssetState.ledger state) in
  let errors1 :=
    if negb verified
    then ["Ledger verification failed: commitSum doesn't match entries"%string]
    else [] in
  let* errors2 :=
    if truthy (AssetRules.cappedSupply rules) && truthyString (AssetRules.maxSupply rules)
    then
      let* totalSupply := getTotalSupply state in
      let* maxSupply := BigInt (default EmptyString (AssetRules.maxSupply rules)) in
      if maxSupply <? totalSupply
      then Ok ["Total supply (" ++ toString10 totalSupply ++ ") exceeds max supply ("
               ++ toString10 maxSupply ++ ")"]%string
      else Ok []
    else Ok [] in
  let holderCount := getHolderCount state in
  let errors3 :=
    if (Z.of_nat holderCount <? 0)
    then ["Invalid holder count: " ++ toString10 (Z.of_nat holderCount)]%string
    else [] in
  let errors4 := duplicateErrors (AssetState.operations state) ∅ in
  let errors := errors1 ++ errors2 ++ errors3 ++ errors4 in
  Ok (bool_decide (length errors = 0%nat), errors).

End Stablecoin.
End stablecoin.

(* ================================================================== *)
(** * Notions used in the statements about campaigns and assets *)
(* ================================================================== *)

(** The ids of the holders of a list of allocations. *)
Definition holderIds (allocs : list MintAllocation.t) : list string :=
  (fun a => KeyPair.id (MintAllocation.holder a)) <$> allocs.

(** The transitions of a campaign: one successful call of an operation. *)
Inductive campaignStep `{Ristretto255} `{PledgeCodec} : Campaign.t -> Campaign.t -> Prop :=
| step_activate c clk c' clk' :
    activateCampaign c clk = Ok (c', clk') -> campaignStep c c'
| step_pledge c params clk c' clk' :
    submitPledge c params clk = Ok (c', clk') -> campaignStep c c'
| step_close c clk c' clk' :
    closeCampaign c clk = Ok (c', clk') -> campaignStep c c'
| step_settle c clk c' clk' :
    settleCampaign c clk = Ok (c', clk') -> campaignStep c c'.

(** draft -> active -> funded | failed -> settled *)
Definition statusNext (s s' : CampaignStatus) : bool :=
  match s, s' with
  | draft, active | active, active
  | active, funded | active, failed
  | funded, settled | failed, settled => true
  | _, _ => false
  end.

Definition withPledgeCommit (h : string) (p : PledgeEntry.t) : PledgeEntry.t :=
  {| PledgeEntry.pledgerId := PledgeEntry.pledgerId p;
     PledgeEntry.commit := h;
     PledgeEntry.openingEncrypted := PledgeEntry.openingEncrypted p;
     PledgeEntry.signedAt := PledgeEntry.signedAt p;
     PledgeEntry.signature := PledgeEntry.signature p |}.

Definition withPledges (c : Campaign.t) (ps : list PledgeEntry.t) : Campaign.t :=
  {| Campaign.version := Campaign.version c;
     Campaign.campaignId := Campaign.campaignId c;
     Campaign.name := Campaign.name c;
     Campaign.description := Campaign.description c;
     Campaign.targetAmount := Campaign.targetAmount c;
     Campaign.deadline := Campaign.deadline c;
     Campaign.beneficiary := Campaign.beneficiary c;
     Campaign.pledges := ps;
     Campaign.totalCommit := Campaign.totalCommit c;
     Campaign.status := Campaign.status c;
     Campaign.createdAt := Campaign.createdAt c;
     Campaign.createdBy := Campaign.createdBy c;
     Campaign.settledAt := Campaign.settledAt c;
     Campaign.assetId := Campaign.assetId c |}.

Definition withTotalCommit (c : Campaign.t) (h : string) : Campaign.t :=
  {| Campaign.version := Campaign.version c;
     Campaign.campaignId := Campaign.campaignId c;
     Campaign.name := Campaign.name c;
     Campaign.description := Campaign.description c;
     Campaign.targetAmount := Campaign.targetAmount c;
     Campaign.deadline := Campaign.deadline c;
     Campaign.beneficiary := Campaign.beneficiary c;
     Campaign.pledges := Campaign.pledges c;
     Campaign.totalCommit := h;
     Campaign.status := Campaign.status c;
     Campaign.createdAt := Campaign.createdAt c;
     Campaign.createdBy := Campaign.createdBy c;
     Campaign.settledAt := Campaign.settledAt c;
     Campaign.assetId := Campaign.assetId c |}.

(** The clock after [n] more readings. *)
Definition later (n : nat) (clk : Clock) : Clock :=
  {| readings := readings clk; reads := (n + reads clk)%nat |}.

(** The log entry of an initial allocation, as far as it does not depend on
    the clock and on [Math.random]. *)
Definition recordsAllocation `{NumberFormat} (authorities : Authorities.t)
    (alloc : AssetAllocation.t) (op : Operation.t) : Prop :=
  Operation.type op = Operation.mint /\
  Operation.status op = Operation.confirmed /\
  Operation.to op = Some (AssetAllocation.recipient alloc) /\
  Operation.from op = None /\
  Operation.authority op = head (Authorities.mintAuthority authorities) /\
  Operation.amount op = Number_toString (AssetAllocation.amount alloc) /\
  Operation.reason op = Some "Initial allocation"%string.

(** The sum of the amounts of the allocations of an asset. *)
Definition initialSupply (allocs : list AssetAllocation.t) : Z :=
  foldr (fun a acc =>
           match AssetAllocation.amount a with Integral z => z | NonIntegral => 0 end + acc)
        0 allocs.

(* ================================================================== *)
(** * The small implementation: the text of a pledge opening and of a number *)
(* ================================================================== *)

(** The text of a pledge opening and of a number, in the small
    implementation. *)
Module ToyText.

Definition encodePledgeOpening (amount : string) (r : bytes) : string :=
  (Toy.unary (String.length amount) ++ amount ++ string_of_list_byte r)%string.

Definition decodePledgeOpening (s : string) : result (jsval * bytes) :=
  match Toy.readUnary s with
  | Some (n, rest) =>
      let (amount, r) := Toy.splitAt n rest in Ok (JsString amount, list_byte_of_string r)
  | None => Throw SyntaxError
  end.

Definition Number_toString (n : number) : string :=
  match n with
  | Integral z => toString10 z
  | NonIntegral => "NaN"
  end.

End ToyText.

(* ================================================================== *)
(** * Facts about the runtime functions *)
(* ================================================================== *)

Lemma allChars_app p a b : allChars p (a ++ b) = allChars p a && allChars p b.
Proof. induction a as [|c a IH]; simpl; [reflexivity|]. now rewrite IH, andb_assoc. Qed.

Lemma allChars_impl (p q : ascii -> bool) s :
  (forall c, p c = true -> q c = true) -> allChars p s = true -> allChars q s = true.
Proof.
  intros Hpq. induction s as [|c s IH]; simpl; [reflexivity|].
  intros [Hc Hs]%andb_prop. now rewrite (Hpq _ Hc), IH.
Qed.

Lemma hexDigit_notWhiteSpace c : isHexDigit c = true -> notWhiteSpace c = true.
Proof. destruct c as [[] [] [] [] [] [] [] []]; vm_compute; congruence. Qed.

Lemma decDigit_hexDigit c : isDecDigit c = true -> isHexDigit c = true.
Proof. destruct c as [[] [] [] [] [] [] [] []]; vm_compute; congruence. Qed.

Lemma trimStart_id c s : notWhiteSpace c = true -> trimStart (String c s) = String c s.
Proof. unfold notWhiteSpace. simpl. now destruct (isWhiteSpace c). Qed.

Lemma trimEnd_id s : allChars notWhiteSpace s = true -> trimEnd s = s.
Proof.
  induction s as [|c s IH]; simpl; [reflexivity|].
  intros [Hc Hs]%andb_prop. rewrite (IH Hs).
  unfold notWhiteSpace in Hc. destruct (isWhiteSpace c); [discriminate|].
  now destruct s.
Qed.

Lemma trim_id s : allChars notWhiteSpace s = true -> trim s = s.
Proof.
  intros Hs. unfold trim. destruct s as [|c s]; [reflexivity|].
  simpl in Hs. apply andb_prop in Hs as [Hc Hs'].
  rewrite trimStart_id by assumption. apply trimEnd_id. simpl. now rewrite Hc, Hs'.
Qed.

Lemma byteHex_spec (x : byte) :
  exists c1 c2 h l,
    byteHex x = String c1 (String c2 EmptyString) /\
    digitIn 16 c1 = Some h /\ digitIn 16 c2 = Some l /\
    h * 16 + l = Z.of_N (Byte.to_N x) /\
    toUint8 (parseInt16 (String c1 (String c2 EmptyString))) = x.
Proof. destruct x; do 4 eexists; repeat split; vm_compute; reflexivity. Qed.

Lemma hex_fromBytes_cons x b : hex.fromBytes (x :: b) = (byteHex x ++ hex.fromBytes b)%string.
Proof. reflexivity. Qed.

Lemma append_two c1 c2 s :
  (String c1 (String c2 EmptyString) ++ s)%string = String c1 (String c2 s).
Proof. reflexivity. Qed.

Lemma hex_toBytes_two c1 c2 s :
  hex.toBytes (String c1 (String c2 s))
  = toUint8 (parseInt16 (String c1 (String c2 EmptyString))) :: hex.toBytes s.
Proof. reflexivity. Qed.

(** [hex.toBytes] inverts [hex.fromBytes]. *)
Lemma hex_toBytes_fromBytes (b : bytes) : hex.toBytes (hex.fromBytes b) = b.
Proof.
  induction b as [|x b IH]; [reflexivity|].
  rewrite hex_fromBytes_cons.
  destruct (byteHex_spec x) as (c1 & c2 & h & l & -> & _ & _ & _ & Hx).
  rewrite append_two, hex_toBytes_two. now rewrite Hx, IH.
Qed.

Lemma allChars_hex_fromBytes b : allChars isHexDigit (hex.fromBytes b) = true.
Proof.
  induction b as [|x b IH]; [reflexivity|].
  rewrite hex_fromBytes_cons.
  destruct (byteHex_spec x) as (c1 & c2 & h & l & -> & H1 & H2 & _ & _).
  rewrite append_two. cbn [allChars]. unfold isHexDigit at 1 2. rewrite H1, H2, IH.
  rewrite !bool_decide_eq_true_2 by eauto. reflexivity.
Qed.

Lemma digitsValue_hex_fromBytes b acc :
  digitsValue 16 (hex.fromBytes b) acc = Some (beValue acc b).
Proof.
  revert acc. induction b as [|x b IH]; intros acc; [reflexivity|].
  rewrite hex_fromBytes_cons.
  destruct (byteHex_spec x) as (c1 & c2 & h & l & -> & H1 & H2 & Hv & _).
  rewrite append_two. cbn [digitsValue]. rewrite H1, H2, IH. cbn [beValue foldl].
  do 2 f_equal. lia.
Qed.

(** [BigInt("0x" + hex.fromBytes(b))] is the big-endian value of [b]. *)
Lemma hex_fromBytes_nonempty b : b <> [] -> hex.fromBytes b <> EmptyString.
Proof.
  destruct b as [|x b]; [congruence|]. intros _. rewrite hex_fromBytes_cons.
  destruct (byteHex_spec x) as (c1 & c2 & h & l & -> & _). discriminate.
Qed.

Lemma digits1_nonempty radix s :
  s <> EmptyString -> digits1 radix s = digitsValue radix s 0.
Proof. now destruct s. Qed.

Lemma BigInt_0x_hex (b : bytes) :
  b <> [] -> BigInt ("0x" ++ hex.fromBytes b) = Ok (beValue 0 b).
Proof.
  intros Hb. unfold BigInt, StringToBigInt.
  rewrite trim_id.
  2:{ rewrite append_two. cbn [allChars]. apply andb_true_intro; split; [reflexivity|].
      apply andb_true_intro; split; [reflexivity|].
      eapply allChars_impl; [apply hexDigit_notWhiteSpace|apply allChars_hex_fromBytes]. }
  rewrite append_two. cbv iota beta.
  rewrite digits1_nonempty by now apply hex_fromBytes_nonempty.
  rewrite digitsValue_hex_fromBytes. reflexivity.
Qed.

Lemma beValue_nonneg b acc : 0 <= acc -> 0 <= beValue acc b.
Proof.
  revert acc. induction b as [|x b IH]; intros acc Hacc; [exact Hacc|].
  cbn [beValue foldl]. apply IH. lia.
Qed.

(** ** Decimal text *)

Lemma digitIn_digitChar d : 0 <= d < 10 -> digitIn 10 (digitChar d) = Some d.
Proof.
  intros Hd.
  assert (d = 0 \/ d = 1 \/ d = 2 \/ d = 3 \/ d = 4 \/ d = 5 \/ d = 6 \/ d = 7 \/ d = 8 \/ d = 9) as Hc by lia.
  repeat (destruct Hc as [->|Hc]; [reflexivity|]). now subst.
Qed.

Lemma digitsValue_decimalDigits fuel n acc :
  0 <= n < 2 ^ Z.of_nat fuel ->
  digitsValue 10 (decimalDigits fuel n acc) 0 = digitsValue 10 acc n.
Proof.
  revert n acc. induction fuel as [|fuel IH]; intros n acc Hn.
  - simpl in *. now replace n with 0 by lia.
  - cbn [decimalDigits].
    assert (Hd : 0 <= n mod 10 < 10) by (apply Z.mod_pos_bound; lia).
    destruct (Z.ltb_spec n 10) as [Hlt|Hge].
    + cbn [digitsValue]. rewrite digitIn_digitChar by assumption.
      rewrite Z.mod_small by lia. reflexivity.
    + rewrite IH.
      * cbn [digitsValue]. rewrite digitIn_digitChar by assumption.
        f_equal. pose proof (Z.div_mod n 10). lia.
      * rewrite Nat2Z.inj_succ, Z.pow_succ_r in Hn by lia.
        split; [apply Z.div_pos; lia|].
        apply Z.div_lt_upper_bound; lia.
Qed.

Lemma allChars_decimalDigits fuel n acc :
  0 <= n -> allChars isDecDigit acc = true ->
  allChars isDecDigit (decimalDigits fuel n acc) = true.
Proof.
  revert n acc. induction fuel as [|fuel IH]; intros n acc Hn Hacc; [exact Hacc|].
  cbn [decimalDigits].
  assert (Hd : 0 <= n mod 10 < 10) by (apply Z.mod_pos_bound; lia).
  assert (Hc : isDecDigit (digitChar (n mod 10)) = true).
  { unfold isDecDigit. rewrite digitIn_digitChar by assumption.
    apply bool_decide_eq_true_2. eauto. }
  destruct (n <? 10).
  - cbn [allChars]. now rewrite Hc, Hacc.
  - apply IH; [apply Z.div_pos; lia|]. cbn [allChars]. now rewrite Hc, Hacc.
Qed.

Lemma decimalDigits_nonempty fuel n acc :
  decimalDigits (S fuel) n acc <> EmptyString.
Proof.
  revert n acc. induction fuel as [|fuel IH]; intros n acc.
  - cbn. destruct (n <? 10); discriminate.
  - change (decimalDigits (S (S fuel)) n acc)
      with (let acc' := String (digitChar (n mod 10)) acc in
            if n <? 10 then acc' else decimalDigits (S fuel) (n / 10) acc').
    cbv zeta. destruct (n <? 10); [discriminate|apply IH].
Qed.

(** A decimal literal without sign is read by the last case of
    [StringToBigInt]. *)
Lemma StringToBigInt_decimal s :
  allChars isDecDigit s = true -> s <> EmptyString ->
  StringToBigInt s = digitsValue 10 s 0.
Proof.
  intros Hs Hne. unfold StringToBigInt.
  rewrite trim_id.
  2:{ eapply allChars_impl; [|exact Hs]. intros c Hc.
      apply hexDigit_notWhiteSpace, decDigit_hexDigit, Hc. }
  destruct s as [|c1 s]; [congruence|].
  cbn [allChars] in Hs. apply andb_prop in Hs as [H1 Hs].
  destruct c1 as [[] [] [] [] [] [] [] []]; try discriminate H1; try reflexivity.
  destruct s as [|c2 s]; [reflexivity|].
  cbn [allChars] in Hs. apply andb_prop in Hs as [H2 Hs].
  destruct c2 as [[] [] [] [] [] [] [] []]; try discriminate H2; reflexivity.
Qed.

(** [BigInt] reads back what [toString(10)] prints. *)
Lemma BigInt_toString10 z : BigInt (toString10 z) = Ok z.
Proof.
  unfold BigInt, toString10.
  set (n := Z.abs z). set (fuel := Z.to_nat (Z.log2 n)).
  assert (Hn : 0 <= n) by (subst n; lia).
  assert (Hfuel : 0 <= n < 2 ^ Z.of_nat (S fuel)).
  { split; [lia|]. subst fuel. rewrite Nat2Z.inj_succ, Z2Nat.id by apply Z.log2_nonneg.
    destruct (Z.eq_dec n 0) as [->|]; [reflexivity|].
    apply Z.log2_spec. lia. }
  pose proof (allChars_decimalDigits (S fuel) n EmptyString Hn eq_refl) as Hall.
  pose proof (decimalDigits_nonempty fuel n EmptyString) as Hne.
  pose proof (digitsValue_decimalDigits (S fuel) n EmptyString Hfuel) as Hval.
  cbn [digitsValue] in Hval.
  destruct (Z.ltb_spec z 0) as [Hneg|Hpos].
  - unfold StringToBigInt. rewrite trim_id.
    2:{ cbn [allChars]. apply andb_true_intro; split; [reflexivity|].
        eapply allChars_impl; [|exact Hall]. intros c Hc.
        apply hexDigit_notWhiteSpace, decDigit_hexDigit, Hc. }
    unfold digits1. destruct (decimalDigits (S fuel) n EmptyString) eqn:E; [congruence|].
    rewrite Hval. simpl. f_equal. lia.
  - rewrite StringToBigInt_decimal, Hval by assumption. simpl. f_equal. lia.
Qed.

(** ** The runtime functions on a few inputs *)

Example hex_fromBytes_pads : hex.fromBytes [x00; x0a; xff] = "000aff"%string.
Proof. reflexivity. Qed.

Example hex_toBytes_ignores_case_and_odd_tail :
  hex.toBytes "000AFf7" = hex.toBytes "000aff".
Proof. reflexivity. Qed.

Example hex_toBytes_non_digits : hex.toBytes "zz-1 a0x" = [x00; xff; x0a; x00].
Proof. reflexivity. Qed.

Example BigInt_accepts_leading_zeros_and_space :
  BigInt " 0600 " = Ok 600 /\ BigInt "0x258" = Ok 600 /\ BigInt "" = Ok 0.
Proof. repeat split; reflexivity. Qed.

Example BigInt_rejects :
  BigInt "6e2" = Throw SyntaxError /\ BigInt "-0x1" = Throw SyntaxError /\
  BigInt "0x" = Throw SyntaxError.
Proof. repeat split; reflexivity. Qed.

Example toString10_signs : toString10 600 = "600"%string /\ toString10 (-45) = "-45"%string.
Proof. split; reflexivity. Qed.

(* ================================================================== *)
(** * Facts about the monads *)
(* ================================================================== *)

Lemma bind_Ok {A B} (m : result A) (k : A -> result B) b :
  Js.bind m k = Ok b <-> exists a, m = Ok a /\ k a = Ok b.
Proof.
  destruct m as [a|e]; simpl; split.
  - eauto.
  - now intros (a' & [= <-] & Hk).
  - discriminate.
  - now intros (a' & [=] & _).
Qed.

Lemma try_catch_Ok {A} (body : result A) (dflt : A) :
  exists a, try_catch body (Ok dflt) = Ok a.
Proof. destruct body; simpl; eauto. Qed.

Lemma rbind_Ok {A B} (m : Rand A) (k : A -> Rand B) e b e' :
  rbind m k e = Ok (b, e') <-> exists a e1, m e = Ok (a, e1) /\ k a e1 = Ok (b, e').
Proof.
  unfold rbind. destruct (m e) as [[a e1]|x]; split.
  - eauto.
  - now intros (a' & e1' & [= <- <-] & Hk).
  - discriminate.
  - now intros (a' & e1' & [=] & _).
Qed.

Lemma lift_Ok {A} (m : result A) e a e' :
  lift m e = Ok (a, e') <-> m = Ok a /\ e' = e.
Proof.
  unfold lift. destruct m; split.
  - now intros [= <- <-].
  - now intros [[= <-] ->].
  - discriminate.
  - now intros [[=] _].
Qed.

Lemma rret_Ok {A} (a b : A) e e' : rret a e = Ok (b, e') <-> b = a /\ e' = e.
Proof. unfold rret. split; [now intros [= <- <-]|now intros [-> ->]]. Qed.

Lemma mapM_Ok {A B} (f : A -> result B) xs ys :
  mapM f xs = Ok ys <-> Forall2 (fun x y => f x = Ok y) xs ys.
Proof.
  revert ys. induction xs as [|x xs IH]; intros ys; simpl.
  - split; [intros [= <-]; constructor|intros Hf; now inversion Hf].
  - rewrite bind_Ok. split.
    + intros (y & Hy & Hr). apply bind_Ok in Hr as (ys' & Hys & [= <-]).
      constructor; [exact Hy|now apply IH].
    + intros Hf. inversion Hf as [|? y ? ys' Hy Hys]; subst.
      exists y. split; [exact Hy|]. apply bind_Ok. exists ys'.
      split; [now apply IH|reflexivity].
Qed.

Lemma length_randomBytes n e bs e' :
  randomBytes n e = Ok (bs, e') -> length bs = n.
Proof. unfold randomBytes. intros [= <- _]. now rewrite length_fmap, length_seq. Qed.

Lemma randomBytes_Ok n e : exists bs e', randomBytes n e = Ok (bs, e') /\ length bs = n.
Proof.
  unfold randomBytes. do 2 eexists. split; [reflexivity|].
  now rewrite length_fmap, length_seq.
Qed.

(* ================================================================== *)
(** * Properties of the ledger operations *)
(* ================================================================== *)

Section Properties.
Context {curve : Ristretto255} {platform : Platform}.

Implicit Types (P Q : Point) (v r k : Z).

Lemma L_pos : 0 < L.
Proof. reflexivity. Qed.

(** ** [modL] *)

Lemma modL_mod n : modL n = n mod L.
Proof.
  unfold modL. pose proof L_pos as HL.
  pose proof (Z.quot_rem' n L) as Hqr.
  assert (Hb : (0 <= n -> 0 <= Z.rem n L < L) /\ (n <= 0 -> - L < Z.rem n L <= 0)).
  { split; intros Hn; [apply Z.rem_bound_pos|apply Z.rem_bound_pos_neg]; lia. }
  destruct (Z.ltb_spec (Z.rem n L) 0) as [Hneg|Hpos].
  - apply (Z.mod_unique_pos _ _ (Z.quot n L - 1)); lia.
  - apply (Z.mod_unique_pos _ _ (Z.quot n L)); lia.
Qed.

Lemma modL_range n : 0 <= modL n < L.
Proof. rewrite modL_mod. apply Z.mod_pos_bound, L_pos. Qed.

(** ** The group *)

Lemma padd_ZERO_r P : padd P ZERO = P.
Proof. now rewrite padd_comm, padd_ZERO_l. Qed.

Lemma padd_smul_opp k P : padd (smul k P) (smul (- k) P) = ZERO.
Proof. now rewrite <- smul_add, Z.add_opp_diag_r, smul_0. Qed.

Lemma padd_opp P : padd P (smul (-1) P) = ZERO.
Proof. rewrite <- (smul_1 P) at 1. apply padd_smul_opp. Qed.

Lemma padd_cancel_l P Q R : padd P Q = padd P R -> Q = R.
Proof.
  intros E. apply (f_equal (padd (smul (-1) P))) in E.
  rewrite !padd_assoc, (padd_comm _ P), padd_opp, !padd_ZERO_l in E. exact E.
Qed.

Lemma padd_cancel_r P Q R : padd Q P = padd R P -> Q = R.
Proof. rewrite !(padd_comm _ P). apply padd_cancel_l. Qed.

Lemma smul_nat_L (n : nat) P : smul (Z.of_nat n * L) P = ZERO.
Proof.
  induction n as [|n IH].
  - apply smul_0.
  - replace (Z.of_nat (S n) * L) with (Z.of_nat n * L + L) by lia.
    now rewrite smul_add, IH, smul_L, padd_ZERO_l.
Qed.

Lemma smul_mul_L q P : smul (q * L) P = ZERO.
Proof.
  destruct (Z.le_gt_cases 0 q) as [Hq|Hq].
  - rewrite <- (Z2Nat.id q Hq). apply smul_nat_L.
  - apply (padd_cancel_l (smul (- q * L) P)).
    replace (q * L) with (- (- q * L)) at 1 by lia.
    rewrite padd_smul_opp, padd_ZERO_r.
    rewrite <- (Z2Nat.id (- q)) by lia. symmetry. apply smul_nat_L.
Qed.

Lemma smul_mod k P : smul (k mod L) P = smul k P.
Proof.
  pose proof L_pos as HL.
  rewrite (Z.div_mod k L) at 2 by lia.
  rewrite smul_add, (Z.mul_comm L), smul_mul_L, padd_ZERO_l. reflexivity.
Qed.

Lemma smul_congr a b P : a mod L = b mod L -> smul a P = smul b P.
Proof. intros E. now rewrite <- (smul_mod a), <- (smul_mod b), E. Qed.

(** A generator of order [L] separates scalars modulo [L]. *)
Lemma smul_inj_mod P a b :
  (forall k, smul k P = ZERO -> k mod L = 0) ->
  smul a P = smul b P -> a mod L = b mod L.
Proof.
  intros Hord E. pose proof L_pos as HL.
  assert (Hd : smul (a - b) P = ZERO).
  { apply (padd_cancel_r (smul b P)).
    rewrite <- smul_add, padd_ZERO_l. replace (a - b + b) with a by lia. exact E. }
  apply Hord in Hd.
  replace a with ((a - b) + b) by lia.
  rewrite <- Zplus_mod_idemp_l, Hd. reflexivity.
Qed.

Lemma G_inj a b : smul a G = smul b G -> a mod L = b mod L.
Proof. apply smul_inj_mod, BASE_order. Qed.

Lemma H_inj a b : smul a H = smul b H -> a mod L = b mod L.
Proof. apply smul_inj_mod, H_order. Qed.

(** ** Sums of points *)

Lemma foldl_padd P ps : foldl padd P ps = padd P (psum ps).
Proof.
  unfold psum. revert P. induction ps as [|Q ps IH]; intros P; simpl.
  - now rewrite padd_ZERO_r.
  - rewrite IH, (IH (padd ZERO Q)), padd_ZERO_l, padd_assoc. reflexivity.
Qed.

Lemma psum_nil : psum [] = ZERO.
Proof. reflexivity. Qed.

Create Rewrite HintDb group.
#[local] Hint Rewrite padd_ZERO_l padd_ZERO_r smul_0 psum_nil : group.

Lemma psum_cons P ps : psum (P :: ps) = padd P (psum ps).
Proof. unfold psum at 1. simpl. now rewrite foldl_padd, padd_ZERO_l. Qed.

Lemma psum_app ps qs : psum (ps ++ qs) = padd (psum ps) (psum qs).
Proof.
  induction ps as [|P ps IH]; simpl.
  - now autorewrite with group.
  - now rewrite !psum_cons, IH, padd_assoc.
Qed.

(** Replacing one summand. *)
Lemma psum_insert ps i P Q :
  ps !! i = Some P ->
  padd (psum (<[i:=Q]> ps)) P = padd (psum ps) Q.
Proof.
  revert i. induction ps as [|P0 ps IH]; intros [|i] Hi; simpl in *; try discriminate.
  - injection Hi as ->. rewrite !psum_cons.
    now rewrite (padd_comm Q (psum ps)), (padd_comm P (psum ps)), <- !padd_assoc,
      (padd_comm Q P).
  - rewrite !psum_cons, <- !padd_assoc. now rewrite (IH _ Hi).
Qed.

(** ** Encodings *)

Lemma pointFromHex_pointToHex P : pointFromHex (pointToHex P) = Ok P.
Proof.
  unfold pointFromHex, pointToHex.
  now rewrite hex_toBytes_fromBytes, Point_fromBytes_toBytes.
Qed.

Lemma decToBig_bigToDec z : decToBig (bigToDec z) = Ok z.
Proof. apply BigInt_toString10. Qed.

Lemma b64_dec_enc (b : bytes) : b64.dec (b64.enc b) = Ok b.
Proof.
  unfold b64.dec, b64.enc. rewrite atob_btoa. simpl.
  now rewrite list_byte_of_string_of_list_byte.
Qed.

(** ** [multiply] and [commit] *)

Lemma multiply_Ok P k Q :
  multiply P k = Ok Q <-> 1 <= k < L /\ Q = smul k P.
Proof.
  unfold multiply.
  destruct (Z.leb_spec 1 k), (Z.ltb_spec k L); simpl; split;
    try (intros [= <-]; split; [lia|reflexivity]);
    try discriminate; try (intros [? ->]; reflexivity || lia).
Qed.

Lemma multiply_Throw P k : ~ (1 <= k < L) -> multiply P k = Throw CurveError.
Proof.
  intros Hk. unfold multiply.
  destruct (Z.leb_spec 1 k), (Z.ltb_spec k L); simpl; try reflexivity. lia.
Qed.

(** [commit] returns exactly on scalars in [0, L), and then returns
    [v·G + r·H]. *)
Lemma commit_Ok v r C :
  commit v r = Ok C <->
  0 <= v < L /\ 0 <= r < L /\ C = padd (smul v G) (smul r H).
Proof.
  unfold commit. pose proof L_pos as HL. rewrite bind_Ok. split.
  - intros (vP & Hv & Hr). apply bind_Ok in Hr as (rP & Hr & [= <-]).
    destruct (Z.eqb_spec v 0) as [->|Hv0], (Z.eqb_spec r 0) as [->|Hr0];
      repeat match goal with
      | E : Ok _ = Ok _ |- _ => injection E as <-
      | E : multiply _ _ = Ok _ |- _ => apply multiply_Ok in E as [? ->]
      end; rewrite ?smul_0; (split; [lia|split; [lia|reflexivity]]).
  - intros (Hv & Hr & ->).
    exists (smul v G). split.
    + destruct (Z.eqb_spec v 0) as [->|Hv0]; [now rewrite smul_0|].
      apply multiply_Ok. split; [lia|reflexivity].
    + apply bind_Ok. exists (smul r H). split; [|reflexivity].
      destruct (Z.eqb_spec r 0) as [->|Hr0]; [now rewrite smul_0|].
      apply multiply_Ok. split; [lia|reflexivity].
Qed.

(** ** ECIES *)

Lemma slices (a b c : bytes) :
  length a = 32%nat -> length b = 12%nat ->
  slice 0 32 (a ++ b ++ c) = a /\
  slice 32 44 (a ++ b ++ c) = b /\
  sliceFrom 44 (a ++ b ++ c) = c.
Proof.
  intros Ha Hb. unfold slice, sliceFrom. repeat split.
  - rewrite drop_0. now apply take_app_length'.
  - rewrite drop_app_length' by easy. now apply take_app_length'.
  - rewrite (assoc_L (++)). apply drop_app_length'. rewrite length_app. lia.
Qed.

Lemma hkdfKey_length ikm : length (hkdfKey ikm) = 32%nat.
Proof. apply hkdf_length. Qed.

(** [eciesEncrypt] to a valid public key returns, and [eciesDecrypt] with the
    secret key gives the plaintext back. *)
Lemma eciesDecrypt_eciesEncrypt (k : KeyPair.keys) (pt : bytes) (e : Entropy) :
  validKeys k ->
  exists blob e',
    eciesEncrypt (KeyPair.publicKey k) pt e = Ok (blob, e') /\
    eciesDecrypt (KeyPair.secretKey k) blob = Ok pt.
Proof.
  intros [Hlen Hpk].
  destruct (randomBytes_Ok 32 e) as (esk & e1 & He1 & Hesk).
  destruct (x25519_agreement esk (KeyPair.secretKey k) Hesk Hlen)
    as (s & Hs1 & Hs2).
  destruct (randomBytes_Ok 12 e1) as (nonce & e2 & He2 & Hnonce).
  destruct (aes_gcm_encrypt_ok (hkdfKey s) nonce pt (hkdfKey_length s) Hnonce)
    as (ct & Hct).
  exists (b64.enc (x25519_getPublicKey esk ++ nonce ++ ct)), e2. split.
  - unfold eciesEncrypt, x25519_keygen, rbind, rret, lift.
    rewrite He1. cbn [KeyPair.secretKey KeyPair.publicKey].
    rewrite Hpk, Hs1, He2, Hct. reflexivity.
  - unfold eciesDecrypt. rewrite b64_dec_enc. cbn [Js.bind].
    destruct (slices (x25519_getPublicKey esk) nonce ct
                (x25519_publicKey_length esk Hesk) Hnonce) as (-> & -> & ->).
    rewrite Hs2. cbn [Js.bind]. now apply aes_gcm_decrypt_encrypt.
Qed.

Lemma decryptOpening_encryptOpening (k : KeyPair.keys) v r (e : Entropy) :
  validKeys k ->
  exists blob e',
    encryptOpening (KeyPair.publicKey k) v r e = Ok (blob, e') /\
    decryptOpening (KeyPair.secretKey k) blob = Ok (v, r).
Proof.
  intros Hk.
  destruct (eciesDecrypt_eciesEncrypt k (openingText v r) e Hk) as (blob & e' & Henc & Hdec).
  exists blob, e'. split; [exact Henc|].
  unfold decryptOpening. rewrite Hdec. cbn [Js.bind].
  unfold openingText. rewrite JSON_parse_stringify. cbn [Js.bind BigInt_of_value].
  now rewrite !BigInt_toString10.
Qed.

Lemma freshBlinding_Ok (e : Entropy) :
  exists r e', freshBlinding e = Ok (r, e') /\ 0 <= r < L.
Proof.
  destruct (randomBytes_Ok 32 e) as (rb & e1 & He1 & Hrb).
  exists (modL (beValue 0 rb)), e1. split; [|apply modL_range].
  unfold freshBlinding, rbind, lift, rret. rewrite He1.
  rewrite BigInt_0x_hex; [reflexivity|]. intros ->. discriminate.
Qed.

(** ** [mintPoC] *)

Lemma mintStep_Ok (st : MintLoop) (a : MintAllocation.t) (e : Entropy) :
  validAllocation a ->
  exists r entry e',
    mintStep st a e =
      Ok ({| m_entries := m_entries st ++ [entry];
             m_T := m_T st + amountValue a;
             m_Rsum := modL (m_Rsum st + r);
             m_Csum := padd (m_Csum st) (padd (smul (amountValue a) G) (smul r H)) |}, e') /\
    opensTo a entry r.
Proof.
  intros [(z & Hz & Hzr) Hk].
  assert (Hav : amountValue a = z) by (unfold amountValue; now rewrite Hz).
  destruct (freshBlinding_Ok e) as (r & e1 & Hr & Hrr).
  destruct (decryptOpening_encryptOpening _ z r e1 Hk) as (enc & e2 & Henc & Hdec).
  assert (Hc : commit z r = Ok (padd (smul z G) (smul r H))) by now apply commit_Ok.
  exists r. eexists. exists e2. split.
  - unfold mintStep, rbind, lift, rret. rewrite Hz. cbn [BigInt_of_number].
    rewrite Hr, Hc, Henc, Hav. reflexivity.
  - unfold opensTo. rewrite Hav. repeat split; try lia; try reflexivity. exact Hdec.
Qed.

Lemma sumCommits_Ok (es : list LedgerEntry.t) P :
  sumCommits es = Ok P <->
  exists pts, mapM (fun e => pointFromHex (LedgerEntry.commit e)) es = Ok pts /\ P = psum pts.
Proof.
  unfold sumCommits. rewrite bind_Ok. split.
  - intros (pts & Hm & [= <-]). eauto.
  - intros (pts & Hm & ->). eauto.
Qed.

Lemma sumCommits_snoc es e P C :
  sumCommits es = Ok P -> pointFromHex (LedgerEntry.commit e) = Ok C ->
  sumCommits (es ++ [e]) = Ok (padd P C).
Proof.
  rewrite !sumCommits_Ok. intros (pts & Hm & ->) He.
  exists (pts ++ [C]). split.
  - apply mapM_Ok. apply mapM_Ok in Hm. apply Forall2_app; [exact Hm|]. now constructor.
  - rewrite psum_app, psum_cons. now autorewrite with group.
Qed.

Lemma padd_swap P1 P2 Q1 Q2 :
  padd (padd P1 Q1) (padd P2 Q2) = padd (padd P1 P2) (padd Q1 Q2).
Proof.
  rewrite <- !padd_assoc. f_equal.
  rewrite !padd_assoc. f_equal. apply padd_comm.
Qed.

Lemma mintLoop_Ok (allocs : list MintAllocation.t) :
  Forall validAllocation allocs ->
  forall (st : MintLoop) (e : Entropy), MintInv st ->
  exists st' e' es,
    mintLoop allocs st e = Ok (st', e') /\
    MintInv st' /\
    m_entries st' = m_entries st ++ es /\
    m_T st' = m_T st + totalAmount allocs /\
    Forall2 (fun a en => exists r, opensTo a en r) allocs es.
Proof.
  induction 1 as [|a allocs Ha _ IH]; intros st e Hinv.
  - exists st, e, []. cbn. rewrite app_nil_r, Z.add_0_r. repeat split; try apply Hinv.
    constructor.
  - destruct (mintStep_Ok st a e Ha) as (r & entry & e1 & Hstep & Hopen).
    set (st1 := {| m_entries := m_entries st ++ [entry] |}) in Hstep.
    assert (Hinv1 : MintInv st1).
    { destruct Hinv as (Hsum & Hcs & Hrr). destruct Hopen as (_ & _ & _ & Hcm & _).
      repeat split; cbn.
      - apply sumCommits_snoc; [exact Hsum|]. rewrite Hcm. apply pointFromHex_pointToHex.
      - rewrite Hcs, padd_swap, <- !smul_add. f_equal.
        apply smul_congr. rewrite modL_mod. now rewrite Z.mod_mod by (pose proof L_pos; lia).
      - apply modL_range.
      - apply modL_range. }
    destruct (IH st1 e1 Hinv1) as (st' & e' & es & Hloop & Hinv' & Hes & HT & Hall).
    exists st', e', (entry :: es). repeat split; try apply Hinv'.
    + cbn [mintLoop]. unfold rbind. now rewrite Hstep.
    + rewrite Hes. cbn. now rewrite <- (assoc_L (++)).
    + rewrite HT. unfold totalAmount, st1. cbn [foldr m_T]. lia.
    + constructor; [eauto|exact Hall].
Qed.

(** ** [verifyTotal] *)

Lemma try_catch_false_true (body : result bool) :
  try_catch body (Ok false) = Ok true <-> body = Ok true.
Proof. destruct body as [[]|]; simpl; split; congruence. Qed.

Lemma equals_true P Q : equals P Q = true <-> P = Q.
Proof. unfold equals. apply bool_decide_eq_true. Qed.

(** [verifyTotal] accepts exactly when both totals parse to scalars in
    [1, L), every commitment decodes, and the claimed sum is both the sum of
    the commitments and [T·G + R·H]. *)
Lemma verifyTotal_true (l : LedgerState.t) :
  verifyTotal l = Ok true <->
  exists T R pts,
    decToBig (LedgerTotal.T (LedgerState.total l)) = Ok T /\
    decToBig (LedgerTotal.R (LedgerState.total l)) = Ok R /\
    mapM (fun e => pointFromHex (LedgerEntry.commit e)) (LedgerState.entries l) = Ok pts /\
    pointFromHex (LedgerTotal.commitSum (LedgerState.total l)) = Ok (psum pts) /\
    1 <= T < L /\ 1 <= R < L /\
    psum pts = padd (smul T G) (smul R H).
Proof.
  unfold verifyTotal. rewrite try_catch_false_true. cbv zeta. split.
  - intros Hb.
    apply bind_Ok in Hb as (T & HT & Hb). apply bind_Ok in Hb as (R & HR & Hb).
    apply bind_Ok in Hb as (claimed & Hcl & Hb).
    apply bind_Ok in Hb as (recomputed & Hrec & Hb).
    apply sumCommits_Ok in Hrec as (pts & Hpts & ->).
    destruct (equals claimed (psum pts)) eqn:Heq; [|discriminate].
    apply equals_true in Heq as ->. cbn [negb] in Hb.
    apply bind_Ok in Hb as (gT & HgT & Hb). apply bind_Ok in Hb as (hR & HhR & Hb).
    apply multiply_Ok in HgT as [HTr ->]. apply multiply_Ok in HhR as [HRr ->].
    injection Hb as Hb. apply equals_true in Hb.
    exists T, R, pts. repeat split; try assumption; lia.
  - intros (T & R & pts & HT & HR & Hpts & Hcl & HTr & HRr & Hsum).
    rewrite HT, HR, Hcl. cbn [Js.bind].
    assert (Hrec : sumCommits (LedgerState.entries l) = Ok (psum pts))
      by (apply sumCommits_Ok; eauto).
    rewrite Hrec. cbn [Js.bind].
    assert (equals (psum pts) (psum pts) = true) as -> by now apply equals_true.
    cbn [negb].
    assert (multiply G T = Ok (smul T G)) as -> by now apply multiply_Ok.
    assert (multiply H R = Ok (smul R H)) as -> by now apply multiply_Ok.
    cbn [Js.bind]. f_equal. now apply equals_true.
Qed.

Lemma verifyTotal_Ok (l : LedgerState.t) : exists b, verifyTotal l = Ok b.
Proof. apply try_catch_Ok. Qed.

Lemma verifyOpening_Ok h v r : exists b, verifyOpening h v r = Ok b.
Proof. apply try_catch_Ok. Qed.

(** The minted ledger, its totals, and when it verifies. *)
Lemma mintPoC_Ok allocs flag (e : Entropy) :
  Forall validAllocation allocs ->
  exists l e' Rsum,
    mintPoC allocs flag e = Ok (l, e') /\
    LedgerState.allowSelfUpdate l = flag /\
    Forall2 (fun a en => exists r, opensTo a en r) allocs (LedgerState.entries l) /\
    decToBig (LedgerTotal.T (LedgerState.total l)) = Ok (totalAmount allocs) /\
    decToBig (LedgerTotal.R (LedgerState.total l)) = Ok Rsum /\
    0 <= Rsum < L /\
    (verifyTotal l = Ok true <-> 1 <= totalAmount allocs < L /\ Rsum <> 0).
Proof.
  intros Hall.
  set (st0 := {| m_entries := []; m_T := 0; m_Rsum := 0; m_Csum := ZERO |}).
  assert (Hinv0 : MintInv st0).
  { repeat split; cbn; try reflexivity.
    now autorewrite with group. }
  destruct (mintLoop_Ok allocs Hall st0 e Hinv0)
    as (st & e' & es & Hloop & (Hsum & Hcs & Hrr) & Hes & HT & Hopen).
  cbn in Hes, HT. subst es.
  eexists. exists e', (m_Rsum st). split.
  { unfold mintPoC, rbind, rret. fold st0. rewrite Hloop. reflexivity. }
  cbn [LedgerState.allowSelfUpdate LedgerState.entries LedgerState.total
       LedgerTotal.T LedgerTotal.R].
  split; [reflexivity|]. split; [exact Hopen|].
  split; [rewrite HT; apply decToBig_bigToDec|].
  split; [apply decToBig_bigToDec|]. split; [exact Hrr|].
  split.
  - intros Hv.
    apply verifyTotal_true in Hv as (T & R & pts & HpT & HpR & _ & _ & HTr & HRr & _).
    cbn in HpT, HpR. rewrite decToBig_bigToDec in HpT, HpR.
    injection HpT as <-. injection HpR as <-. lia.
  - intros [HTr HR0]. apply verifyTotal_true.
    apply sumCommits_Ok in Hsum as (pts & Hpts & Hps).
    exists (m_T st), (m_Rsum st), pts. cbn.
    rewrite !decToBig_bigToDec, Hps, pointFromHex_pointToHex, <- Hps.
    repeat split; try assumption; lia.
Qed.


(** A ledger whose total parses to 0 is never accepted; nor is one whose
    blinding sum parses to 0. *)
Lemma verifyTotal_zero (l : LedgerState.t) :
  decToBig (LedgerTotal.T (LedgerState.total l)) = Ok 0 \/
  decToBig (LedgerTotal.R (LedgerState.total l)) = Ok 0 ->
  verifyTotal l = Ok false.
Proof.
  intros Hz. destruct (verifyTotal_Ok l) as [[] Hb]; [|exact Hb].
  apply verifyTotal_true in Hb as (T & R & pts & HT & HR & _ & _ & HTr & HRr & _).
  destruct Hz as [Hz|Hz]; [rewrite Hz in HT|rewrite Hz in HR]; simplify_eq; lia.
Qed.

(** C5.  Encryption round trip: for a valid key pair and any opening
    [(v, r)], encrypting to the public key returns, and decrypting the blob
    with the secret key gives exactly [(v, r)]. *)
Theorem opening_round_trip (k : KeyPair.keys) v r (e : Entropy) :
  validKeys k ->
  exists blob e',
    encryptOpening (KeyPair.publicKey k) v r e = Ok (blob, e') /\
    decryptOpening (KeyPair.secretKey k) blob = Ok (v, r).
Proof. apply decryptOpening_encryptOpening. Qed.

(** ** The view *)

Lemma ownEntryView_Ok me mine : exists bv, ownEntryView me mine = Ok bv.
Proof. destruct mine as [[i en]|]; [apply try_catch_Ok|simpl; eauto]. Qed.

(** [getUserView] always returns; its first two fields are the own-entry
    view and its third is the total exactly when [verifyTotal] accepts. *)
Lemma getUserView_Ok (l : LedgerState.t) (me : KeyPair.t) :
  exists view,
    getUserView l me = Ok view /\
    ownEntryView me (list_find (isHolder (KeyPair.id me)) (LedgerState.entries l))
      = Ok (UserView.myBalance view, UserView.myEntryValid view) /\
    (verifyTotal l = Ok false -> UserView.publicTotal view = None) /\
    (forall T, verifyTotal l = Ok true ->
       decToBig (LedgerTotal.T (LedgerState.total l)) = Ok T ->
       UserView.publicTotal view = Some T).
Proof.
  unfold getUserView. cbv zeta.
  fold (ownEntryView me (list_find (isHolder (KeyPair.id me)) (LedgerState.entries l))).
  destruct (ownEntryView_Ok me (list_find (isHolder (KeyPair.id me)) (LedgerState.entries l)))
    as ([bal valid] & ->).
  cbn [Js.bind].
  destruct (verifyTotal_Ok l) as ([] & Hv); rewrite Hv; cbn [Js.bind].
  - pose proof Hv as Hv'.
    apply verifyTotal_true in Hv' as (T & R & pts & HT & _).
    unfold decToBig in HT. rewrite HT. cbn [Js.bind].
    eexists. split; [reflexivity|]. cbn. repeat split; auto; try discriminate.
    intros T' _ HT'. unfold decToBig in HT'. congruence.
  - eexists. split; [reflexivity|]. cbn. repeat split; auto; discriminate.
Qed.

(** What [verifyTotal] and the own-entry part of [getUserView] make of a
    failure. *)
Lemma verifyTotal_malformed (l : LedgerState.t) : malformed l -> verifyTotal l = Ok false.
Proof.
  intros Hbad. destruct (verifyTotal_Ok l) as [[] Hb]; [|exact Hb].
  apply verifyTotal_true in Hb as (T & R & pts & HT & HR & Hpts & Hcl & _).
  destruct Hbad as [x Hx|x Hx|x Hx|i en x Hi Hx]; try congruence.
  apply mapM_Ok in Hpts.
  destruct (Forall2_lookup_l _ _ _ _ _ Hpts Hi) as (P & _ & HP). simpl in HP. congruence.
Qed.

Lemma verifyTotal_out_of_range (l : LedgerState.t) T R :
  decToBig (LedgerTotal.T (LedgerState.total l)) = Ok T ->
  decToBig (LedgerTotal.R (LedgerState.total l)) = Ok R ->
  ~ (1 <= T < L /\ 1 <= R < L) ->
  verifyTotal l = Ok false.
Proof.
  intros HT HR Hout. destruct (verifyTotal_Ok l) as [[] Hb]; [|exact Hb].
  apply verifyTotal_true in Hb as (T' & R' & pts & HT' & HR' & _ & _ & HTr & HRr & _).
  rewrite HT in HT'. rewrite HR in HR'. simplify_eq. tauto.
Qed.

Lemma decryptOpening_b64_Throw sk enc x :
  b64.dec enc = Throw x -> decryptOpening sk enc = Throw x.
Proof. intros Hx. unfold decryptOpening, eciesDecrypt. now rewrite Hx. Qed.

Lemma verifyOpening_Throw_false h v r :
  (exists x, pointFromHex h = Throw x) \/ (exists x, commit v r = Throw x) ->
  verifyOpening h v r = Ok false.
Proof.
  intros Hbad. unfold verifyOpening.
  destruct (pointFromHex h) as [C|x1] eqn:Hh; cbn [Js.bind]; [|reflexivity].
  destruct Hbad as [[x Hx]|[x Hx]]; [discriminate|]. now rewrite Hx.
Qed.

Lemma ownEntryView_failure me i en :
  (forall x,
     decryptOpening (KeyPair.secretKey (KeyPair.x25519 me)) (LedgerEntry.openingEncrypted en)
       = Throw x ->
     ownEntryView me (Some (i, en)) = Ok (None, false)) /\
  (forall v r,
     decryptOpening (KeyPair.secretKey (KeyPair.x25519 me)) (LedgerEntry.openingEncrypted en)
       = Ok (v, r) ->
     (exists x, pointFromHex (LedgerEntry.commit en) = Throw x) \/
     (exists x, commit v r = Throw x) ->
     ownEntryView me (Some (i, en)) = Ok (Some v, false)).
Proof.
  split.
  - intros x Hx. unfold ownEntryView. now rewrite Hx.
  - intros v r Hd Hbad. unfold ownEntryView. rewrite Hd. cbn [Js.bind].
    now rewrite (verifyOpening_Throw_false _ _ _ Hbad).
Qed.

(** C8.  The verification path never throws, and every failure becomes
    [false] or [null]: on every ledger value [verifyTotal] returns a
    boolean, which is [false] when a total does not parse, when the
    commitment sum or an entry's commitment does not decode, and when a
    total is not a scalar in [1, L); [getUserView] returns a view, in which
    [publicTotal] is [null] whenever [verifyTotal] is [false], in which
    [myBalance] is [null] and [myEntryValid] is [false] when the caller's
    opening does not decrypt (malformed base64 included), and in which
    [myEntryValid] is [false] when the opening decrypts but the caller's
    commitment does not decode or the opening cannot be committed to. *)
Theorem verification_never_throws (l : LedgerState.t) (me : KeyPair.t) :
  (exists b, verifyTotal l = Ok b) /\
  (malformed l -> verifyTotal l = Ok false) /\
  (forall T R,
     decToBig (LedgerTotal.T (LedgerState.total l)) = Ok T ->
     decToBig (LedgerTotal.R (LedgerState.total l)) = Ok R ->
     ~ (1 <= T < L /\ 1 <= R < L) ->
     verifyTotal l = Ok false) /\
  exists view,
    getUserView l me = Ok view /\
    (verifyTotal l = Ok false -> UserView.publicTotal view = None) /\
    (forall i en,
       list_find (isHolder (KeyPair.id me)) (LedgerState.entries l) = Some (i, en) ->
       let sk := KeyPair.secretKey (KeyPair.x25519 me) in
       (forall x, b64.dec (LedgerEntry.openingEncrypted en) = Throw x ->
          UserView.myBalance view = None /\ UserView.myEntryValid view = false) /\
       (forall x, decryptOpening sk (LedgerEntry.openingEncrypted en) = Throw x ->
          UserView.myBalance view = None /\ UserView.myEntryValid view = false) /\
       (forall v r, decryptOpening sk (LedgerEntry.openingEncrypted en) = Ok (v, r) ->
          (exists x, pointFromHex (LedgerEntry.commit en) = Throw x) \/
          (exists x, commit v r = Throw x) ->
          UserView.myBalance view = Some v /\ UserView.myEntryValid view = false)).
Proof.
  split; [apply verifyTotal_Ok|].
  split; [apply verifyTotal_malformed|].
  split; [apply verifyTotal_out_of_range|].
  destruct (getUserView_Ok l me) as (view & Hv & Hown & Hpub & _).
  exists view. split; [exact Hv|]. split; [exact Hpub|].
  intros i en Hfind sk. rewrite Hfind in Hown.
  destruct (ownEntryView_failure me i en) as [Hthrow Hbad].
  assert (Hdec : forall x,
    decryptOpening sk (LedgerEntry.openingEncrypted en) = Throw x ->
    UserView.myBalance view = None /\ UserView.myEntryValid view = false).
  { intros x Hx. rewrite (Hthrow x Hx) in Hown. injection Hown as <- <-. now split. }
  split; [|split].
  - intros x Hx. apply (Hdec x). now apply decryptOpening_b64_Throw.
  - exact Hdec.
  - intros v r Hd Hc. rewrite (Hbad v r Hd Hc) in Hown. injection Hown as <- <-. now split.
Qed.

(** C10.  A caller with no entry gets no balance and a validity flag that
    stays [true]; the flag is [false] only when an entry of the caller exists
    and either does not decrypt or does not open its commitment. *)
Theorem view_without_entry (l : LedgerState.t) (me : KeyPair.t) :
  (Forall (fun en => LedgerEntry.holderId en <> KeyPair.id me) (LedgerState.entries l) ->
   exists view, getUserView l me = Ok view /\
     UserView.myBalance view = None /\ UserView.myEntryValid view = true) /\
  (forall view, getUserView l me = Ok view -> UserView.myEntryValid view = false ->
   exists i en,
     list_find (isHolder (KeyPair.id me)) (LedgerState.entries l) = Some (i, en) /\
     ((exists x, decryptOpening (KeyPair.secretKey (KeyPair.x25519 me))
                   (LedgerEntry.openingEncrypted en) = Throw x) \/
      (exists v r, decryptOpening (KeyPair.secretKey (KeyPair.x25519 me))
                     (LedgerEntry.openingEncrypted en) = Ok (v, r) /\
                   verifyOpening (LedgerEntry.commit en) v r = Ok false))).
Proof.
  destruct (getUserView_Ok l me) as (view & Hv & Hown & _).
  split.
  - intros Hnone. exists view. split; [exact Hv|].
    assert (Hf : list_find (isHolder (KeyPair.id me)) (LedgerState.entries l) = None).
    { apply list_find_None. exact Hnone. }
    rewrite Hf in Hown. cbn in Hown. now injection Hown as <- <-.
  - intros view' Hv' Hfalse. rewrite Hv in Hv'. injection Hv' as <-.
    destruct (list_find (isHolder (KeyPair.id me)) (LedgerState.entries l))
      as [[i en]|]; [|cbn in Hown; congruence].
    exists i, en. split; [reflexivity|]. cbn in Hown.
    destruct (decryptOpening _ _) as [[v r]|x]; [|eauto].
    right. exists v, r. split; [reflexivity|]. cbn in Hown.
    destruct (verifyOpening_Ok (LedgerEntry.commit en) v r) as (b & Hb).
    rewrite Hb in Hown. cbn in Hown. injection Hown as _ Hval. congruence.
Qed.

Lemma mapM_insert {A B} (f : A -> result B) xs ys i x y :
  mapM f xs = Ok ys -> f x = Ok y -> mapM f (<[i:=x]> xs) = Ok (<[i:=y]> ys).
Proof. rewrite !mapM_Ok. intros Hf Hx. now apply Forall2_insert. Qed.

Lemma mapM_lookup {A B} (f : A -> result B) xs ys i x :
  mapM f xs = Ok ys -> xs !! i = Some x -> exists y, ys !! i = Some y /\ f x = Ok y.
Proof.
  rewrite mapM_Ok. intros Hf Hx.
  destruct (Forall2_lookup_l _ _ _ _ _ Hf Hx) as (y & Hy & Hfy). eauto.
Qed.

Lemma alter_as_insert {A} (g : A -> A) (xs : list A) i x :
  xs !! i = Some x -> alter g i xs = <[i := g x]> xs.
Proof.
  revert i. induction xs as [|x0 xs IH]; intros [|i] Hi; simpl in *; try discriminate.
  - now injection Hi as ->.
  - f_equal. now apply IH.
Qed.

Lemma scalar_eq_of_mod a b : 1 <= a < L -> 1 <= b < L -> a mod L = b mod L -> a = b.
Proof. intros Ha Hb. rewrite !Z.mod_small by lia. auto. Qed.

(** C2 (as amended).  On a ledger that verifies, replacing one entry's
    commitment, [total.T], [total.R] or [total.commitSum] by a value that
    does not decode to the same group element (or integer) as before makes
    [verifyTotal] return [false], and then every holder's view has no public
    total. *)
Theorem tamper_detected (l l' : LedgerState.t) :
  verifyTotal l = Ok true ->
  tampered l l' ->
  verifyTotal l' = Ok false /\
  forall me : KeyPair.t,
    exists view, getUserView l' me = Ok view /\ UserView.publicTotal view = None.
Proof.
  intros Hv Ht.
  assert (Hfalse : verifyTotal l' = Ok false).
  { destruct (verifyTotal_Ok l') as [[] Hb]; [exfalso|exact Hb].
    apply verifyTotal_true in Hv as (T & R & pts & HT & HR & Hpts & Hcl & HTr & HRr & Hsum).
    apply verifyTotal_true in Hb as (T' & R' & pts' & HT' & HR' & Hpts' & Hcl' & HTr' & HRr' & Hsum').
    destruct Ht as [i en h Hi Hne|s Hne|s Hne|h Hne]; cbn in HT', HR', Hpts', Hcl'.
    - rewrite (alter_as_insert _ _ _ _ Hi) in Hpts'.
      destruct (mapM_lookup _ _ _ _ _ Hpts Hi) as (Pi & HPi & HfPi).
      assert (Hi' : <[i:=withCommit h en]> (LedgerState.entries l) !! i = Some (withCommit h en)).
      { apply list_lookup_insert_eq. now apply lookup_lt_Some in Hi. }
      destruct (mapM_lookup _ _ _ _ _ Hpts' Hi') as (P' & _ & HfP'). cbn in HfP'.
      pose proof (mapM_insert _ _ _ i (withCommit h en) P' Hpts HfP') as Hins.
      rewrite Hins in Hpts'. injection Hpts' as <-.
      rewrite Hcl in Hcl'. injection Hcl' as Heq.
      pose proof (psum_insert pts i Pi P' HPi) as Hrep.
      rewrite <- Heq in Hrep. apply padd_cancel_l in Hrep. subst P'.
      apply Hne. now rewrite HfP', HfPi.
    - rewrite HR in HR'. injection HR' as <-.
      rewrite Hpts in Hpts'. injection Hpts' as <-.
      rewrite Hsum in Hsum'. apply padd_cancel_r, G_inj in Hsum'.
      apply scalar_eq_of_mod in Hsum'; [|assumption..]. subst T'.
      apply Hne. now rewrite HT, HT'.
    - rewrite HT in HT'. injection HT' as <-.
      rewrite Hpts in Hpts'. injection Hpts' as <-.
      rewrite Hsum in Hsum'. apply padd_cancel_l, H_inj in Hsum'.
      apply scalar_eq_of_mod in Hsum'; [|assumption..]. subst R'.
      apply Hne. now rewrite HR, HR'.
    - rewrite Hpts in Hpts'. injection Hpts' as <-.
      apply Hne. now rewrite Hcl, Hcl'. }
  split; [exact Hfalse|]. intros me.
  destruct (getUserView_Ok l' me) as (view & Hview & _ & Hnone & _).
  exists view. split; [exact Hview|]. now apply Hnone.
Qed.

(** ** The caller's own entry *)

Lemma verifyOpening_true h v r :
  verifyOpening h v r = Ok true <->
  exists C, pointFromHex h = Ok C /\ commit v r = Ok C.
Proof.
  unfold verifyOpening. rewrite try_catch_false_true, bind_Ok. split.
  - intros (C & HC & Hb). apply bind_Ok in Hb as (C' & HC' & [= Heq]).
    apply equals_true in Heq as ->. eauto.
  - intros (C & HC & Hcm). exists C. split; [exact HC|].
    rewrite Hcm. cbn. f_equal. now apply equals_true.
Qed.

Lemma view_of_entry (l : LedgerState.t) (me : KeyPair.t) i en v r :
  list_find (isHolder (KeyPair.id me)) (LedgerState.entries l) = Some (i, en) ->
  decryptOpening (KeyPair.secretKey (KeyPair.x25519 me))
                 (LedgerEntry.openingEncrypted en) = Ok (v, r) ->
  exists view,
    getUserView l me = Ok view /\
    UserView.myBalance view = Some v /\
    verifyOpening (LedgerEntry.commit en) v r = Ok (UserView.myEntryValid view).
Proof.
  intros Hfind Hdec.
  destruct (getUserView_Ok l me) as (view & Hview & Hown & _).
  exists view. split; [exact Hview|].
  rewrite Hfind in Hown. cbn in Hown. rewrite Hdec in Hown. cbn in Hown.
  destruct (verifyOpening_Ok (LedgerEntry.commit en) v r) as (b & Hb).
  rewrite Hb in Hown. cbn in Hown. injection Hown as <- <-. auto.
Qed.

(** C7 (as amended).  In a minted ledger with distinct holder ids,
    replacing one holder's stored commitment by a string that does not decode
    to the same group element, the encrypted opening left as it is, gives a
    ledger in which that holder's view still shows the decrypted balance and
    has [myEntryValid = false]. *)
Theorem commitment_tamper_flags_entry allocs flag (e e' : Entropy)
    (l : LedgerState.t) i (a : MintAllocation.t) (en : LedgerEntry.t) (h : string) :
  Forall validAllocation allocs ->
  NoDup ((fun a => KeyPair.id (MintAllocation.holder a)) <$> allocs) ->
  mintPoC allocs flag e = Ok (l, e') ->
  allocs !! i = Some a ->
  LedgerState.entries l !! i = Some en ->
  pointFromHex h <> pointFromHex (LedgerEntry.commit en) ->
  exists view,
    getUserView (tamperCommit l i h) (MintAllocation.holder a) = Ok view /\
    UserView.myBalance view = Some (amountValue a) /\
    UserView.myEntryValid view = false.
Proof.
  intros Hall Hnd Hmint Ha Hen Hne.
  destruct (mintPoC_Ok allocs flag e Hall) as (l0 & e0 & Rsum & Hm & _ & Hopen & _).
  rewrite Hmint in Hm. injection Hm as <- <-.
  destruct (Forall2_lookup_l _ _ _ _ _ Hopen Ha) as (en' & Hen' & r & Hop).
  rewrite Hen in Hen'. injection Hen' as <-.
  destruct Hop as (Hvr & Hrr & Hid & Hcm & Hdec).
  set (me := MintAllocation.holder a).
  assert (Hfind : list_find (isHolder (KeyPair.id me))
                    (LedgerState.entries (tamperCommit l i h)) = Some (i, withCommit h en)).
  { cbn. rewrite (alter_as_insert _ _ _ _ Hen). apply list_find_Some. split; [|split].
    - apply list_lookup_insert_eq. now apply lookup_lt_Some in Hen.
    - exact Hid.
    - intros j y Hj Hlt Hy.
      rewrite list_lookup_insert_ne in Hj by lia.
      destruct (Forall2_lookup_r _ _ _ _ _ Hopen Hj) as (b & Hb & rb & Hopb).
      destruct Hopb as (_ & _ & Hidb & _).
      unfold isHolder in Hy. rewrite Hidb in Hy.
      assert (j = i); [|lia].
      apply (NoDup_lookup _ j i (KeyPair.id me) Hnd); rewrite list_lookup_fmap.
      + rewrite Hb. cbn. now rewrite Hy.
      + rewrite Ha. reflexivity. }
  destruct (view_of_entry _ me i (withCommit h en) (amountValue a) r Hfind Hdec)
    as (view & Hview & Hbal & Hval).
  exists view. split; [exact Hview|]. split; [exact Hbal|].
  destruct (UserView.myEntryValid view); [|reflexivity].
  exfalso. apply verifyOpening_true in Hval as (C & HC & Hcommit). cbn in HC.
  apply commit_Ok in Hcommit as (_ & _ & ->).
  apply Hne. rewrite HC, Hcm. symmetry. apply pointFromHex_pointToHex.
Qed.

(** ** [updateOwnEntry] *)

(** The three checks, in order. *)
Lemma planOwnUpdate_denied l me amt (e : Entropy) :
  LedgerState.allowSelfUpdate l = false ->
  planOwnUpdate l me amt e = Throw PermissionDenied.
Proof. intros Hf. unfold planOwnUpdate. now rewrite Hf. Qed.

Lemma planOwnUpdate_not_found l me amt (e : Entropy) :
  LedgerState.allowSelfUpdate l = true ->
  list_find (isHolder (KeyPair.id me)) (LedgerState.entries l) = None ->
  planOwnUpdate l me amt e = Throw NotFound.
Proof. intros Hf Hn. unfold planOwnUpdate. now rewrite Hf, Hn. Qed.

Lemma planOwnUpdate_undecryptable l me amt (e : Entropy) i en x :
  LedgerState.allowSelfUpdate l = true ->
  list_find (isHolder (KeyPair.id me)) (LedgerState.entries l) = Some (i, en) ->
  decryptOpening (KeyPair.secretKey (KeyPair.x25519 me))
                 (LedgerEntry.openingEncrypted en) = Throw x ->
  planOwnUpdate l me amt e = Throw DecryptionFailure.
Proof.
  intros Hf Hfind Hdec. unfold planOwnUpdate. rewrite Hf, Hfind. cbn [negb].
  unfold rbind, lift. now rewrite Hdec.
Qed.

(** Past the checks, the plan is computed whenever the new amount is a
    scalar, the caller's key pair is usable and both totals parse. *)
Lemma planOwnUpdate_Ok l me z (e : Entropy) i en oldV oldR T R :
  LedgerState.allowSelfUpdate l = true ->
  list_find (isHolder (KeyPair.id me)) (LedgerState.entries l) = Some (i, en) ->
  decryptOpening (KeyPair.secretKey (KeyPair.x25519 me))
                 (LedgerEntry.openingEncrypted en) = Ok (oldV, oldR) ->
  validKeys (KeyPair.x25519 me) ->
  0 <= z < L ->
  decToBig (LedgerTotal.T (LedgerState.total l)) = Ok T ->
  decToBig (LedgerTotal.R (LedgerState.total l)) = Ok R ->
  exists newR newEnc e',
    planOwnUpdate l me (Integral z) e =
      Ok ({| u_index := i;
             u_entry := {|
               LedgerEntry.holderId := KeyPair.id me;
               LedgerEntry.commit := pointToHex (padd (smul z G) (smul newR H));
               LedgerEntry.openingEncrypted := newEnc |};
             u_T := T - oldV + z;
             u_Rsum := modL (R - oldR + newR) |}, e') /\
    0 <= newR < L /\
    decryptOpening (KeyPair.secretKey (KeyPair.x25519 me)) newEnc = Ok (z, newR).
Proof.
  intros Hf Hfind Hdec Hk Hz HT HR.
  destruct (freshBlinding_Ok e) as (newR & e1 & Hr & Hrr).
  destruct (decryptOpening_encryptOpening _ z newR e1 Hk) as (enc & e2 & Henc & Hdec').
  assert (Hc : commit z newR = Ok (padd (smul z G) (smul newR H))) by now apply commit_Ok.
  exists newR, enc, e2. split; [|split; assumption].
  unfold planOwnUpdate. rewrite Hf, Hfind. cbn [negb].
  unfold rbind, lift, rret. rewrite Hdec. cbn [try_catch BigInt_of_number].
  rewrite Hr, Hc, Henc, HT, HR. reflexivity.
Qed.

Lemma updateOwnEntry_plan l me amt (e : Entropy) l' e' :
  updateOwnEntry l me amt e = Ok (l', e') <->
  exists u newCsum,
    planOwnUpdate l me amt e = Ok (u, e') /\
    sumCommits (<[u_index u := u_entry u]> (LedgerState.entries l)) = Ok newCsum /\
    l' = updatedLedger l (<[u_index u := u_entry u]> (LedgerState.entries l)) u newCsum.
Proof.
  unfold updateOwnEntry. rewrite rbind_Ok. split.
  - intros (u & e1 & Hplan & Hrest). apply rbind_Ok in Hrest as (cs & e2 & Hcs & Hret).
    apply lift_Ok in Hcs as [Hcs ->]. apply rret_Ok in Hret as [-> ->]. eauto.
  - intros (u & cs & Hplan & Hcs & ->). exists u, e'. split; [exact Hplan|].
    apply rbind_Ok. exists cs, e'. split; [now apply lift_Ok|now apply rret_Ok].
Qed.

Lemma planOwnUpdate_index l me amt (e : Entropy) u e' :
  planOwnUpdate l me amt e = Ok (u, e') ->
  exists en,
    list_find (isHolder (KeyPair.id me)) (LedgerState.entries l) = Some (u_index u, en) /\
    LedgerEntry.holderId (u_entry u) = KeyPair.id me.
Proof.
  unfold planOwnUpdate.
  destruct (LedgerState.allowSelfUpdate l); [|discriminate].
  destruct (list_find _ _) as [[i en]|]; [|discriminate]. cbn [negb].
  intros Hplan.
  repeat (apply rbind_Ok in Hplan as (? & ? & _ & Hplan); try destruct x as [? ?]).
  apply rret_Ok in Hplan as [-> _]. cbn. eauto.
Qed.

(** C6 (as amended).  [updateOwnEntry] throws [PermissionDenied] when
    self-update is off; otherwise [NotFound] when the caller has no entry;
    otherwise [DecryptionFailure] when the stored opening does not decrypt
    under the caller's key; and otherwise it returns a ledger whenever the
    new amount is an integer in the range of scalars, the caller's key pair
    is usable, both totals parse and every other commitment decodes. *)
Theorem updateOwnEntry_errors (l : LedgerState.t) (me : KeyPair.t) (amt : number)
    (e : Entropy) :
  (LedgerState.allowSelfUpdate l = false ->
   updateOwnEntry l me amt e = Throw PermissionDenied) /\
  (LedgerState.allowSelfUpdate l = true ->
   Forall (fun en => LedgerEntry.holderId en <> KeyPair.id me) (LedgerState.entries l) ->
   updateOwnEntry l me amt e = Throw NotFound) /\
  (forall i en x,
   LedgerState.allowSelfUpdate l = true ->
   list_find (isHolder (KeyPair.id me)) (LedgerState.entries l) = Some (i, en) ->
   decryptOpening (KeyPair.secretKey (KeyPair.x25519 me))
                  (LedgerEntry.openingEncrypted en) = Throw x ->
   updateOwnEntry l me amt e = Throw DecryptionFailure) /\
  (forall i en oldV oldR z T R,
   LedgerState.allowSelfUpdate l = true ->
   list_find (isHolder (KeyPair.id me)) (LedgerState.entries l) = Some (i, en) ->
   decryptOpening (KeyPair.secretKey (KeyPair.x25519 me))
                  (LedgerEntry.openingEncrypted en) = Ok (oldV, oldR) ->
   amt = Integral z -> 0 <= z < L ->
   validKeys (KeyPair.x25519 me) ->
   decToBig (LedgerTotal.T (LedgerState.total l)) = Ok T ->
   decToBig (LedgerTotal.R (LedgerState.total l)) = Ok R ->
   (forall j en', j <> i -> LedgerState.entries l !! j = Some en' ->
      exists P, pointFromHex (LedgerEntry.commit en') = Ok P) ->
   exists l' e', updateOwnEntry l me amt e = Ok (l', e')).
Proof.
  split; [|split; [|split]].
  - intros Hf. unfold updateOwnEntry, rbind. now rewrite planOwnUpdate_denied.
  - intros Hf Hnone. unfold updateOwnEntry, rbind.
    rewrite planOwnUpdate_not_found; [reflexivity|exact Hf|].
    apply list_find_None. exact Hnone.
  - intros i en x Hf Hfind Hdec. unfold updateOwnEntry, rbind.
    now rewrite (planOwnUpdate_undecryptable l me amt e i en x).
  - intros i en oldV oldR z T R Hf Hfind Hdec -> Hz Hk HT HR Hothers.
    destruct (planOwnUpdate_Ok l me z e i en oldV oldR T R Hf Hfind Hdec Hk Hz HT HR)
      as (newR & newEnc & e' & Hplan & _ & _).
    set (u := {| u_index := i |}) in Hplan.
    set (newEntries := <[i := u_entry u]> (LedgerState.entries l)).
    assert (Hsum : exists pts,
      mapM (fun en => pointFromHex (LedgerEntry.commit en)) newEntries = Ok pts).
    { assert (Hall : Forall (fun en => exists P, pointFromHex (LedgerEntry.commit en) = Ok P)
                       newEntries).
      { apply Forall_lookup. intros j en' Hj. unfold newEntries in Hj.
        destruct (decide (j = i)) as [->|Hji].
        - apply list_find_Some in Hfind as (Hi & _).
          rewrite list_lookup_insert_eq in Hj by now apply lookup_lt_Some in Hi.
          injection Hj as <-. cbn. eexists. apply pointFromHex_pointToHex.
        - rewrite list_lookup_insert_ne in Hj by congruence. eauto. }
      clearbody newEntries. induction Hall as [|en' es (P & HP) _ (pts & IH)].
      - exists []. reflexivity.
      - exists (P :: pts). cbn. now rewrite HP, IH. }
    destruct Hsum as (pts & Hpts).
    eexists. exists e'. apply updateOwnEntry_plan. exists u, (psum pts).
    split; [exact Hplan|]. split; [|reflexivity].
    apply sumCommits_Ok. eauto.
Qed.


(** ** The heap *)

Lemma updateOwnEntry_heap_spec (h : Heap) (o : LedgerObj) (l : LedgerState.t)
    (me : KeyPair.t) amt (e e' : Entropy) (h' : Heap) (o' : LedgerObj) :
  load h o = Some l ->
  updateOwnEntry_heap h o me amt e = Ok ((h', o'), e') <->
  exists l',
    updateOwnEntry l me amt e = Ok (l', e') /\
    h' = <[fresh (dom h) := LedgerState.entries l']> h /\
    o' = {| o_version := LedgerState.version l';
            o_entries := fresh (dom h);
            o_total := LedgerState.total l';
            o_allowSelfUpdate := LedgerState.allowSelfUpdate l' |}.
Proof.
  intros Hload. unfold updateOwnEntry_heap. rewrite Hload.
  assert (Hov : LedgerState.version l = o_version o /\
                LedgerState.allowSelfUpdate l = o_allowSelfUpdate o).
  { unfold load in Hload. destruct (h !! o_entries o); [|discriminate].
    cbn in Hload. injection Hload as <-. auto. }
  destruct Hov as [Hver Hallow].
  assert (Halter : forall u : OwnUpdate,
    alter (fun es => <[u_index u := u_entry u]> es) (fresh (dom h))
          (<[fresh (dom h) := LedgerState.entries l]> h)
    = <[fresh (dom h) := <[u_index u := u_entry u]> (LedgerState.entries l)]> h).
  { intros u. rewrite alter_insert_eq. reflexivity. }
  rewrite rbind_Ok. split.
  - intros (u & e1 & Hplan & Hrest). rewrite Halter in Hrest.
    rewrite lookup_insert_eq in Hrest. cbn [default] in Hrest.
    apply rbind_Ok in Hrest as (cs & e2 & Hcs & Hret).
    apply lift_Ok in Hcs as [Hcs ->]. apply rret_Ok in Hret as [[= -> ->] ->].
    eexists. split; [apply updateOwnEntry_plan; eauto|].
    cbn. rewrite Hver, Hallow. auto.
  - intros (l' & Hup & -> & ->).
    apply updateOwnEntry_plan in Hup as (u & cs & Hplan & Hcs & ->).
    exists u, e'. split; [exact Hplan|]. rewrite Halter, lookup_insert_eq.
    cbn [default]. apply rbind_Ok. exists cs, e'. split; [now apply lift_Ok|].
    apply rret_Ok. cbn. rewrite Hver, Hallow. auto.
Qed.

(** C9.  Copy-on-write: a successful [updateOwnEntry] writes to no array
    that existed before the call, so the input ledger still denotes the same
    value; the returned ledger has the same version and the same
    self-update flag, as many entries, and every entry except the caller's
    (the first with the caller's id) unchanged at its position. *)
Theorem updateOwnEntry_copy_on_write (h : Heap) (o : LedgerObj) (l : LedgerState.t)
    (me : KeyPair.t) amt (e e' : Entropy) (h' : Heap) (o' : LedgerObj) :
  load h o = Some l ->
  updateOwnEntry_heap h o me amt e = Ok ((h', o'), e') ->
  (forall a es, h !! a = Some es -> h' !! a = Some es) /\
  load h' o = Some l /\
  exists l' i en,
    load h' o' = Some l' /\
    updateOwnEntry l me amt e = Ok (l', e') /\
    list_find (isHolder (KeyPair.id me)) (LedgerState.entries l) = Some (i, en) /\
    length (LedgerState.entries l') = length (LedgerState.entries l) /\
    (forall j, j <> i -> LedgerState.entries l' !! j = LedgerState.entries l !! j) /\
    (exists en', LedgerState.entries l' !! i = Some en' /\
                 LedgerEntry.holderId en' = KeyPair.id me) /\
    LedgerState.version l' = LedgerState.version l /\
    LedgerState.allowSelfUpdate l' = LedgerState.allowSelfUpdate l.
Proof.
  intros Hload Hup.
  apply (updateOwnEntry_heap_spec h o l) in Hup as (l' & Hup & -> & ->); [|exact Hload].
  assert (Hframe : forall a es, h !! a = Some es ->
            <[fresh (dom h) := LedgerState.entries l']> h !! a = Some es).
  { intros a es Ha. rewrite lookup_insert_ne; [exact Ha|].
    intros <-. apply (is_fresh (dom h)). apply elem_of_dom. eauto. }
  split; [exact Hframe|]. split.
  { unfold load in *. destruct (h !! o_entries o) as [es|] eqn:Hes; [|discriminate].
    now rewrite (Hframe _ _ Hes). }
  pose proof Hup as Hplan.
  apply updateOwnEntry_plan in Hplan as (u & cs & Hplan & _ & ->).
  destruct (planOwnUpdate_index _ _ _ _ _ _ Hplan) as (en & Hfind & Hid).
  exists (updatedLedger l (<[u_index u := u_entry u]> (LedgerState.entries l)) u cs),
    (u_index u), en.
  split; [|split; [exact Hup|split; [exact Hfind|]]].
  { unfold load. cbn. rewrite lookup_insert_eq. reflexivity. }
  cbn. split; [apply length_insert|].
  split; [intros j Hj; apply list_lookup_insert_ne; congruence|].
  split; [|auto].
  exists (u_entry u). split; [|exact Hid].
  apply list_lookup_insert_eq. apply list_find_Some in Hfind as (Hi & _).
  now apply lookup_lt_Some in Hi.
Qed.

(** ** Homomorphism *)

Lemma commit_homomorphic v1 v2 r1 r2 :
  0 <= v1 -> 0 <= v2 -> v1 + v2 < L -> 0 <= r1 < L -> 0 <= r2 < L ->
  exists C1 C2,
    commit v1 r1 = Ok C1 /\ commit v2 r2 = Ok C2 /\
    commit (v1 + v2) (modL (r1 + r2)) = Ok (padd C1 C2).
Proof.
  intros Hv1 Hv2 Hv Hr1 Hr2.
  exists (padd (smul v1 G) (smul r1 H)), (padd (smul v2 G) (smul r2 H)).
  split; [|split]; apply commit_Ok.
  - repeat split; lia.
  - repeat split; lia.
  - pose proof (modL_range (r1 + r2)). repeat split; try lia.
    rewrite padd_swap, <- !smul_add. f_equal.
    apply smul_congr. rewrite modL_mod. pose proof L_pos as HL.
    now rewrite Z.mod_mod by lia.
Qed.

Lemma pedersen_Ok v (rb : bytes) :
  rb <> [] ->
  pedersen v rb = Ok (pointToHex (padd (smul v G) (smul (beValue 0 rb) H))).
Proof.
  intros Hrb. unfold pedersen. rewrite BigInt_0x_hex by assumption. cbn [Js.bind].
  pose proof (modL_range v) as Hv. pose proof (modL_range (beValue 0 rb)) as Hr.
  assert (Hm : forall (P : Point) k,
    (if modL k =? 0 then Ok ZERO else multiply P (modL k)) = Ok (smul k P)).
  { intros P k. pose proof (modL_range k) as Hk.
    destruct (Z.eqb_spec (modL k) 0) as [Hz|Hnz].
    - f_equal. rewrite <- (smul_mod k), <- modL_mod, Hz. symmetry. apply smul_0.
    - rewrite (proj2 (multiply_Ok P (modL k) (smul (modL k) P))) by (split; [lia|reflexivity]).
      f_equal. rewrite modL_mod. apply smul_mod. }
  rewrite !Hm. reflexivity.
Qed.

Lemma ristrettoAdd_pointToHex A B :
  ristrettoAdd (pointToHex A) (pointToHex B) = Ok (pointToHex (padd A B)).
Proof.
  unfold ristrettoAdd.
  change (Point_fromBytes (hex.toBytes (pointToHex A))) with (pointFromHex (pointToHex A)).
  change (Point_fromBytes (hex.toBytes (pointToHex B))) with (pointFromHex (pointToHex B)).
  now rewrite !pointFromHex_pointToHex.
Qed.

(** C4 (as amended).  [commit(v1, r1) + commit(v2, r2)] equals
    [commit(v1 + v2, (r1 + r2) mod L)] for non-negative [v1], [v2] with
    [v1 + v2 < L] and blindings in [0, L); for [pedersen], which reduces its
    value modulo [L], the same holds for all integers [v1], [v2]. *)
Theorem commitment_homomorphism :
  (forall v1 v2 r1 r2,
     0 <= v1 -> 0 <= v2 -> v1 + v2 < L -> 0 <= r1 < L -> 0 <= r2 < L ->
     exists C1 C2,
       commit v1 r1 = Ok C1 /\ commit v2 r2 = Ok C2 /\
       commit (v1 + v2) (modL (r1 + r2)) = Ok (padd C1 C2)) /\
  (forall v1 v2 (rb1 rb2 rb3 : bytes),
     rb1 <> [] -> rb2 <> [] -> rb3 <> [] ->
     modL (beValue 0 rb3) = modL (beValue 0 rb1 + beValue 0 rb2) ->
     exists c1 c2 c3,
       pedersen v1 rb1 = Ok c1 /\ pedersen v2 rb2 = Ok c2 /\
       pedersen (v1 + v2) rb3 = Ok c3 /\ ristrettoAdd c1 c2 = Ok c3).
Proof.
  split; [exact commit_homomorphic|].
  intros v1 v2 rb1 rb2 rb3 H1 H2 H3 Hr.
  do 3 eexists. rewrite !pedersen_Ok by assumption.
  split; [reflexivity|]. split; [reflexivity|]. split; [reflexivity|].
  rewrite ristrettoAdd_pointToHex. do 2 f_equal.
  rewrite padd_swap, <- !smul_add. f_equal.
  apply smul_congr. now rewrite <- !modL_mod.
Qed.

(** ** Further properties *)

(** X1.  [verifyTotal] rejects every ledger whose [total.T] or [total.R] parses
    to 0: [Point.multiply] refuses the scalar 0, and [verifyTotal] has no
    zero case as [commit] has. *)
Theorem zero_total_never_verifies (l : LedgerState.t) :
  decToBig (LedgerTotal.T (LedgerState.total l)) = Ok 0 \/
  decToBig (LedgerTotal.R (LedgerState.total l)) = Ok 0 ->
  verifyTotal l = Ok false.
Proof. apply verifyTotal_zero. Qed.

(** X2.  [hex.toBytes(hex.fromBytes(b))] is [b]. *)
Theorem hex_round_trip (b : bytes) : hex.toBytes (hex.fromBytes b) = b.
Proof. apply hex_toBytes_fromBytes. Qed.

(** X3.  [decToBig(bigToDec(z))] is [z]. *)
Theorem decimal_round_trip (z : Z) : decToBig (bigToDec z) = Ok z.
Proof. apply decToBig_bigToDec. Qed.

(** X4.  [modL] is reduction modulo [L] into [0, L). *)
Theorem modL_reduces (n : Z) : modL n = n mod L /\ 0 <= modL n < L.
Proof. split; [apply modL_mod|apply modL_range]. Qed.

End Properties.

(* ================================================================== *)
(** * Facts about the clock and the world *)
(* ================================================================== *)

Lemma tbind_Ok {A B} (m : Timed A) (k : A -> Timed B) c b c' :
  tbind m k c = Ok (b, c') <-> exists a c1, m c = Ok (a, c1) /\ k a c1 = Ok (b, c').
Proof.
  unfold tbind. destruct (m c) as [[a c1]|x]; split.
  - eauto.
  - now intros (a' & c1' & [= <- <-] & Hk).
  - discriminate.
  - now intros (a' & c1' & [=] & _).
Qed.

Lemma tlift_Ok {A} (m : result A) c a c' :
  tlift m c = Ok (a, c') <-> m = Ok a /\ c' = c.
Proof.
  unfold tlift. destruct m; split.
  - now intros [= <- <-].
  - now intros [[= <-] ->].
  - discriminate.
  - now intros [[=] _].
Qed.

Lemma tret_Ok {A} (a b : A) c c' : tret a c = Ok (b, c') <-> b = a /\ c' = c.
Proof. unfold tret. split; [now intros [= <- <-]|now intros [-> ->]]. Qed.

Lemma Date_now_Ok c t c' :
  Date_now c = Ok (t, c') <-> t = readings c (reads c) /\ c' = later 1 c.
Proof.
  unfold Date_now, later. cbn.
  split; [now intros [= <- <-]|now intros [-> ->]].
Qed.

Lemma later_later n m c : later n (later m c) = later (m + n) c.
Proof. unfold later. cbn. f_equal. lia. Qed.

Lemma ibind_Ok {A B} (m : IO A) (k : A -> IO B) w b w' :
  ibind m k w = Ok (b, w') <-> exists a w1, m w = Ok (a, w1) /\ k a w1 = Ok (b, w').
Proof.
  unfold ibind. destruct (m w) as [[a w1]|x]; split.
  - eauto.
  - now intros (a' & w1' & [= <- <-] & Hk).
  - discriminate.
  - now intros (a' & w1' & [=] & _).
Qed.

Lemma ofResult_Ok {A} (m : result A) w a w' :
  ofResult m w = Ok (a, w') <-> m = Ok a /\ w' = w.
Proof.
  unfold ofResult. destruct m; split.
  - now intros [= <- <-].
  - now intros [[= <-] ->].
  - discriminate.
  - now intros [[=] _].
Qed.

Lemma iret_Ok {A} (a b : A) w w' : iret a w = Ok (b, w') <-> b = a /\ w' = w.
Proof. unfold iret. split; [now intros [= <- <-]|now intros [-> ->]]. Qed.

Lemma ofRand_Ok {A} (m : Rand A) w a w' :
  ofRand m w = Ok (a, w') <->
  exists e', m (w_entropy w) = Ok (a, e') /\
    w' = {| w_entropy := e'; w_clock := w_clock w;
            w_suffixes := w_suffixes w; w_drawn := w_drawn w |}.
Proof.
  unfold ofRand. destruct (m (w_entropy w)) as [[a0 e0]|x]; split.
  - intros [= <- <-]. eauto.
  - now intros (e' & [= <- <-] & ->).
  - discriminate.
  - now intros (e' & [=] & _).
Qed.

(* ================================================================== *)
(** * Properties of stored key pairs, views, the summary and the shared utilities *)
(* ================================================================== *)

Section MoreProperties.
Context {curve : Ristretto255} {platform : Platform}.
Implicit Types (P Q : Point) (v r k : Z).

(** X5.  [deserializeKeyPair(serializeKeyPair(kp))] returns [kp], for every key
    pair: the four keys come back byte for byte and the id is kept. *)
Theorem keypair_serialization_round_trip (kp : KeyPair.t) :
  deserializeKeyPair (serializeKeyPair kp) = Ok kp.
Proof.
  destruct kp as [id [edp eds] [xp xs]].
  unfold deserializeKeyPair, serializeKeyPair. cbn.
  rewrite !b64_dec_enc. reflexivity.
Qed.

Lemma x25519_keygen_Ok (e : Entropy) :
  exists ks e', x25519_keygen e = Ok (ks, e') /\ validKeys ks.
Proof.
  destruct (randomBytes_Ok 32 e) as (sk & e1 & He1 & Hsk).
  exists {| KeyPair.publicKey := x25519_getPublicKey sk; KeyPair.secretKey := sk |}, e1.
  split.
  - unfold x25519_keygen, rbind, rret. now rewrite He1.
  - split; [exact Hsk|reflexivity].
Qed.

(** X6.  [generateKeyPair(id)] returns a key pair with that id, and every
    opening encrypted to its X25519 public key decrypts under its X25519
    secret key to the same [(v, r)]. *)
Theorem generateKeyPair_usable (id : string) (e : Entropy) :
  exists kp e1,
    generateKeyPair id e = Ok (kp, e1) /\
    KeyPair.id kp = id /\
    forall v r (e2 : Entropy), exists blob e3,
      encryptOpening (KeyPair.publicKey (KeyPair.x25519 kp)) v r e2 = Ok (blob, e3) /\
      decryptOpening (KeyPair.secretKey (KeyPair.x25519 kp)) blob = Ok (v, r).
Proof.
  destruct (randomBytes_Ok 32 e) as (edsk & e0 & He0 & _).
  destruct (x25519_keygen_Ok e0) as (xk & e1 & Hx & Hvalid).
  eexists. exists e1. split; [|split].
  - unfold generateKeyPair, ed25519_keygen, rbind, rret. rewrite He0, Hx. reflexivity.
  - reflexivity.
  - intros v r e2. cbn. now apply decryptOpening_encryptOpening.
Qed.

(** ** The view of a minted ledger *)

Lemma filter_fmap_comm {A B} (f : A -> B) (P : B -> Prop) `{!forall y, Decision (P y)}
    (xs : list A) :
  filter P (f <$> xs) = f <$> filter (fun x => P (f x)) xs.
Proof.
  induction xs as [|x xs IH]; [reflexivity|]. cbn [fmap list_fmap].
  rewrite !filter_cons. destruct (decide (P (f x))); cbn; now rewrite IH.
Qed.

Lemma filter_Forall_id {A} (P : A -> Prop) `{!forall x, Decision (P x)} (xs : list A) :
  Forall P xs -> filter P xs = xs.
Proof.
  induction 1 as [|x xs Hx _ IH]; [reflexivity|].
  rewrite filter_cons, decide_True by assumption. now rewrite IH.
Qed.

Lemma length_filter_ne_NoDup (x : string) (xs : list string) :
  NoDup xs -> x ∈ xs ->
  length (filter (fun y => y <> x) xs) = (length xs - 1)%nat.
Proof.
  induction 1 as [|y xs Hy Hnd IH]; intros Hin; [now apply elem_of_nil in Hin|].
  rewrite filter_cons. destruct (decide (y <> x)) as [Hne|Heq].
  - apply elem_of_cons in Hin as [->|Hin]; [congruence|].
    cbn [length]. rewrite (IH Hin).
    assert (0 < length xs)%nat; [|lia].
    destruct xs; [now apply elem_of_nil in Hin|cbn; lia].
  - assert (y = x) as -> by (destruct (decide (y = x)); [assumption|contradiction]).
    rewrite filter_Forall_id; [cbn [length]; lia|].
    apply Forall_forall. intros z Hz ->. contradiction.
Qed.

Lemma getUserView_others (l : LedgerState.t) (me : KeyPair.t) view :
  getUserView l me = Ok view ->
  UserView.holderId <$> UserView.others view
  = filter (fun id => id <> KeyPair.id me) (LedgerEntry.holderId <$> LedgerState.entries l).
Proof.
  unfold getUserView. cbv zeta. intros Hv.
  apply bind_Ok in Hv as ([bal valid] & _ & Hv).
  apply bind_Ok in Hv as (totalOk & _ & Hv).
  apply bind_Ok in Hv as (pt & _ & [= <-]).
  cbn [UserView.others]. rewrite <- list_fmap_compose.
  rewrite filter_fmap_comm. reflexivity.
Qed.

Lemma minted_holderIds allocs (es : list LedgerEntry.t) :
  Forall2 (fun a en => exists r, opensTo a en r) allocs es ->
  LedgerEntry.holderId <$> es = holderIds allocs.
Proof.
  induction 1 as [|a en allocs es (r & _ & _ & Hid & _) _ IH]; [reflexivity|].
  unfold holderIds in *. cbn. now rewrite Hid, IH.
Qed.

Lemma minted_entry_found allocs (es : list LedgerEntry.t) i a en :
  Forall2 (fun a en => exists r, opensTo a en r) allocs es ->
  NoDup (holderIds allocs) ->
  allocs !! i = Some a -> es !! i = Some en ->
  list_find (isHolder (KeyPair.id (MintAllocation.holder a))) es = Some (i, en).
Proof.
  intros Hopen Hnd Ha Hen.
  destruct (Forall2_lookup_l _ _ _ _ _ Hopen Ha) as (en' & Hen' & r & Hop).
  rewrite Hen in Hen'. injection Hen' as <-.
  destruct Hop as (_ & _ & Hid & _).
  apply list_find_Some. split; [exact Hen|]. split; [exact Hid|].
  intros j y Hj Hlt Hy.
  destruct (Forall2_lookup_r _ _ _ _ _ Hopen Hj) as (b & Hb & rb & Hopb).
  destruct Hopb as (_ & _ & Hidb & _).
  unfold isHolder in Hy. rewrite Hidb in Hy.
  assert (j = i); [|lia].
  apply (NoDup_lookup _ j i (KeyPair.id (MintAllocation.holder a)) Hnd);
    unfold holderIds; rewrite list_lookup_fmap.
  - rewrite Hb. cbn. now rewrite Hy.
  - rewrite Ha. reflexivity.
Qed.

Lemma mintPoC_view allocs flag (e e' : Entropy) (l : LedgerState.t) i a :
  Forall validAllocation allocs ->
  NoDup (holderIds allocs) ->
  mintPoC allocs flag e = Ok (l, e') ->
  allocs !! i = Some a ->
  exists view,
    getUserView l (MintAllocation.holder a) = Ok view /\
    UserView.myBalance view = Some (amountValue a) /\
    UserView.myEntryValid view = true /\
    UserView.holderId <$> UserView.others view
      = filter (fun id => id <> KeyPair.id (MintAllocation.holder a)) (holderIds allocs) /\
    length (UserView.others view) = (length allocs - 1)%nat /\
    (verifyTotal l = Ok true -> UserView.publicTotal view = Some (totalAmount allocs)) /\
    (verifyTotal l = Ok false -> UserView.publicTotal view = None).
Proof.
  intros Hall Hnd Hmint Ha.
  destruct (mintPoC_Ok allocs flag e Hall) as (l0 & e0 & Rsum & Hm & _ & Hopen & HT & _).
  rewrite Hmint in Hm. injection Hm as <- <-.
  destruct (Forall2_lookup_l _ _ _ _ _ Hopen Ha) as (en & Hen & r & Hop).
  pose proof (minted_entry_found _ _ _ _ _ Hopen Hnd Ha Hen) as Hfind.
  destruct Hop as (Hvr & Hrr & Hid & Hcm & Hdec).
  set (me := MintAllocation.holder a) in *.
  destruct (view_of_entry l me i en (amountValue a) r Hfind Hdec)
    as (view & Hview & Hbal & Hval).
  destruct (getUserView_Ok l me) as (view' & Hview' & _ & Hnone & Hsome).
  rewrite Hview in Hview'. injection Hview' as <-.
  pose proof (getUserView_others l me view Hview) as Hothers.
  rewrite (minted_holderIds _ _ Hopen) in Hothers.
  exists view. split; [exact Hview|]. split; [exact Hbal|]. split; [|split; [exact Hothers|split]].
  - assert (Hv : verifyOpening (LedgerEntry.commit en) (amountValue a) r = Ok true).
    { apply verifyOpening_true. eexists. split.
      - rewrite Hcm. apply pointFromHex_pointToHex.
      - apply commit_Ok. auto. }
    rewrite Hv in Hval. now injection Hval as <-.
  - rewrite <- (length_fmap UserView.holderId), Hothers.
    rewrite length_filter_ne_NoDup; [|exact Hnd|].
    + unfold holderIds. now rewrite length_fmap.
    + apply list_elem_of_lookup. exists i. unfold holderIds.
      rewrite list_lookup_fmap, Ha. reflexivity.
  - split; [|exact Hnone]. intros Hv. now apply Hsome.
Qed.

(** X7.  In a ledger minted from valid allocations with distinct holder ids,
    the view of each holder shows the allocated amount as [myBalance] with
    [myEntryValid = true]; [others] lists the ids of the other holders in
    the order of the allocations; [publicTotal] is the sum of the amounts
    when [verifyTotal] accepts the ledger and [null] when it rejects it. *)
Theorem minted_view_shows_balance allocs flag (e e' : Entropy) (l : LedgerState.t) i a :
  Forall validAllocation allocs ->
  NoDup (holderIds allocs) ->
  mintPoC allocs flag e = Ok (l, e') ->
  allocs !! i = Some a ->
  exists view,
    getUserView l (MintAllocation.holder a) = Ok view /\
    UserView.myBalance view = Some (amountValue a) /\
    UserView.myEntryValid view = true /\
    UserView.holderId <$> UserView.others view
      = filter (fun id => id <> KeyPair.id (MintAllocation.holder a)) (holderIds allocs) /\
    length (UserView.others view) = (length allocs - 1)%nat /\
    (verifyTotal l = Ok true -> UserView.publicTotal view = Some (totalAmount allocs)) /\
    (verifyTotal l = Ok false -> UserView.publicTotal view = None).
Proof. apply mintPoC_view. Qed.

(** ** The view after [updateOwnEntry] *)

Lemma planOwnUpdate_inv l me amt (e : Entropy) u e' :
  planOwnUpdate l me amt e = Ok (u, e') ->
  exists i en oldV oldR newV newR newC newEnc e1 T R,
    LedgerState.allowSelfUpdate l = true /\
    list_find (isHolder (KeyPair.id me)) (LedgerState.entries l) = Some (i, en) /\
    decryptOpening (KeyPair.secretKey (KeyPair.x25519 me))
                   (LedgerEntry.openingEncrypted en) = Ok (oldV, oldR) /\
    BigInt_of_number amt = Ok newV /\
    freshBlinding e = Ok (newR, e1) /\
    commit newV newR = Ok newC /\
    encryptOpening (KeyPair.publicKey (KeyPair.x25519 me)) newV newR e1 = Ok (newEnc, e') /\
    decToBig (LedgerTotal.T (LedgerState.total l)) = Ok T /\
    decToBig (LedgerTotal.R (LedgerState.total l)) = Ok R /\
    u = {| u_index := i;
           u_entry := {|
             LedgerEntry.holderId := KeyPair.id me;
             LedgerEntry.commit := pointToHex newC;
             LedgerEntry.openingEncrypted := newEnc |};
           u_T := T - oldV + newV;
           u_Rsum := modL (R - oldR + newR) |}.
Proof.
  unfold planOwnUpdate.
  destruct (LedgerState.allowSelfUpdate l) eqn:Hf; [|discriminate]. cbn [negb].
  destruct (list_find _ _) as [[i en]|] eqn:Hfind; [|discriminate].
  intros Hp.
  apply rbind_Ok in Hp as ([oldV oldR] & e0 & Hdec & Hp).
  apply lift_Ok in Hdec as [Hdec ->].
  assert (Hdec' : decryptOpening (KeyPair.secretKey (KeyPair.x25519 me))
                    (LedgerEntry.openingEncrypted en) = Ok (oldV, oldR)).
  { destruct (decryptOpening _ _); [exact Hdec|discriminate]. }
  apply rbind_Ok in Hp as (newV & e0 & HnewV & Hp). apply lift_Ok in HnewV as [HnewV ->].
  apply rbind_Ok in Hp as (newR & e1 & HnewR & Hp).
  apply rbind_Ok in Hp as (newC & e2 & HnewC & Hp). apply lift_Ok in HnewC as [HnewC ->].
  apply rbind_Ok in Hp as (newEnc & e2 & Henc & Hp).
  apply rbind_Ok in Hp as (T & e3 & HT & Hp). apply lift_Ok in HT as [HT ->].
  apply rbind_Ok in Hp as (R & e3 & HR & Hp). apply lift_Ok in HR as [HR ->].
  apply rret_Ok in Hp as [-> ->].
  exists i, en, oldV, oldR, newV, newR, newC, newEnc, e1, T, R.
  repeat split; assumption.
Qed.

Lemma decrypt_of_encryptOpening (ks : KeyPair.keys) v r (e e' : Entropy) blob :
  validKeys ks ->
  encryptOpening (KeyPair.publicKey ks) v r e = Ok (blob, e') ->
  decryptOpening (KeyPair.secretKey ks) blob = Ok (v, r).
Proof.
  intros Hk Henc.
  destruct (decryptOpening_encryptOpening ks v r e Hk) as (blob' & e'' & Henc' & Hdec).
  rewrite Henc in Henc'. now injection Henc' as -> _.
Qed.

Lemma list_find_insert_eq {A} (P : A -> Prop) `{!forall x, Decision (P x)}
    (xs : list A) i x y :
  list_find P xs = Some (i, x) -> P y -> list_find P (<[i := y]> xs) = Some (i, y).
Proof.
  intros Hfind Hy. apply list_find_Some in Hfind as (Hi & _ & Hbefore).
  apply list_find_Some. split; [|split; [exact Hy|]].
  - apply list_lookup_insert_eq. now apply lookup_lt_Some in Hi.
  - intros j z Hj Hlt. rewrite list_lookup_insert_ne in Hj by lia. eauto.
Qed.

Lemma list_find_insert_other {A} (P : A -> Prop) `{!forall x, Decision (P x)}
    (xs : list A) i x y :
  xs !! i = Some x -> ~ P x -> ~ P y -> list_find P (<[i := y]> xs) = list_find P xs.
Proof.
  revert i. induction xs as [|x0 xs IH]; intros [|i] Hi Hx Hy; simpl in *; try discriminate.
  - injection Hi as ->. rewrite !decide_False by assumption. reflexivity.
  - destruct (decide (P x0)); [reflexivity|]. now rewrite (IH i Hi Hx Hy).
Qed.

(** X8.  When [updateOwnEntry] returns for a caller with a usable key pair,
    the new amount is an integer in [0, L) and the caller's view of the
    returned ledger shows it as [myBalance], with [myEntryValid = true]. *)
Theorem updateOwnEntry_then_view (l l' : LedgerState.t) (me : KeyPair.t) amt (e e' : Entropy) :
  updateOwnEntry l me amt e = Ok (l', e') ->
  validKeys (KeyPair.x25519 me) ->
  exists z view,
    amt = Integral z /\ 0 <= z < L /\
    getUserView l' me = Ok view /\
    UserView.myBalance view = Some z /\
    UserView.myEntryValid view = true.
Proof.
  intros Hup Hk.
  apply updateOwnEntry_plan in Hup as (u & cs & Hplan & _ & ->).
  apply planOwnUpdate_inv in Hplan
    as (i & en & oldV & oldR & newV & newR & newC & newEnc & e1 & T & R &
        _ & Hfind & _ & HnewV & _ & HnewC & Henc & _ & _ & ->).
  destruct amt as [z|]; [|discriminate]. injection HnewV as <-.
  pose proof (decrypt_of_encryptOpening _ _ _ _ _ _ Hk Henc) as Hdec.
  pose proof HnewC as Hrange. apply commit_Ok in Hrange as (Hz & _ & _).
  cbn [u_index u_entry].
  set (new := {| LedgerEntry.holderId := KeyPair.id me |}) in *.
  set (l' := updatedLedger _ _ _ _).
  assert (Hfind' : list_find (isHolder (KeyPair.id me)) (LedgerState.entries l') = Some (i, new)).
  { cbn. now apply (list_find_insert_eq _ _ _ en). }
  destruct (view_of_entry l' me i new z newR Hfind' Hdec) as (view & Hview & Hbal & Hval).
  exists z, view. split; [reflexivity|]. split; [exact Hz|].
  split; [exact Hview|]. split; [exact Hbal|].
  assert (Hv : verifyOpening (LedgerEntry.commit new) z newR = Ok true).
  { apply verifyOpening_true. exists newC. split; [|exact HnewC].
    cbn. apply pointFromHex_pointToHex. }
  rewrite Hv in Hval. now injection Hval as <-.
Qed.

(** X9.  A successful [updateOwnEntry] leaves what every key pair with
    another id sees of its own entry as it was: the same [myBalance] and
    the same [myEntryValid] before and after. *)
Theorem updateOwnEntry_keeps_other_views (l l' : LedgerState.t) (me you : KeyPair.t) amt
    (e e' : Entropy) :
  updateOwnEntry l me amt e = Ok (l', e') ->
  KeyPair.id you <> KeyPair.id me ->
  exists view view',
    getUserView l you = Ok view /\ getUserView l' you = Ok view' /\
    UserView.myBalance view' = UserView.myBalance view /\
    UserView.myEntryValid view' = UserView.myEntryValid view.
Proof.
  intros Hup Hne.
  apply updateOwnEntry_plan in Hup as (u & cs & Hplan & _ & ->).
  destruct (planOwnUpdate_index _ _ _ _ _ _ Hplan) as (en & Hfind & Hid).
  apply list_find_Some in Hfind as (Hi & Hmine & _).
  set (l' := updatedLedger _ _ _ _).
  destruct (getUserView_Ok l you) as (view & Hview & Hown & _).
  destruct (getUserView_Ok l' you) as (view' & Hview' & Hown' & _).
  exists view, view'. split; [exact Hview|]. split; [exact Hview'|].
  assert (Hsame : list_find (isHolder (KeyPair.id you)) (LedgerState.entries l')
                  = list_find (isHolder (KeyPair.id you)) (LedgerState.entries l)).
  { cbn. apply (list_find_insert_other _ _ _ en); [exact Hi| |].
    - unfold isHolder in *. congruence.
    - unfold isHolder. congruence. }
  rewrite Hsame, Hown in Hown'. now injection Hown' as -> ->.
Qed.

(** ** [mintPoC] on amounts it cannot commit to *)

Lemma mintLoop_app (xs ys : list MintAllocation.t) (st : MintLoop) (e : Entropy) :
  mintLoop (xs ++ ys) st e
  = match mintLoop xs st e with
    | Ok (st', e') => mintLoop ys st' e'
    | Throw x => Throw x
    end.
Proof.
  revert st e. induction xs as [|a xs IH]; intros st e; [reflexivity|].
  cbn [app mintLoop]. unfold rbind. destruct (mintStep st a e) as [[st1 e1]|x]; [|reflexivity].
  apply IH.
Qed.

Lemma commit_Throw v r : ~ (0 <= v < L) -> commit v r = Throw CurveError.
Proof.
  intros Hv. unfold commit. pose proof L_pos as HL.
  destruct (Z.eqb_spec v 0) as [->|_]; [lia|].
  rewrite multiply_Throw by lia. reflexivity.
Qed.

(** X10.  [mintPoC] throws at the first allocation it cannot commit to:
    after valid allocations, an amount that is not an integer makes
    [BigInt] throw a RangeError, and an integer outside [0, L) makes
    [Point.multiply] throw; no ledger is returned, whatever follows. *)
Theorem mintPoC_rejects_bad_amount (pre post : list MintAllocation.t)
    (a : MintAllocation.t) flag (e : Entropy) :
  Forall validAllocation pre ->
  (MintAllocation.amount a = NonIntegral ->
   mintPoC (pre ++ a :: post) flag e = Throw RangeError) /\
  (forall z, MintAllocation.amount a = Integral z -> ~ (0 <= z < L) ->
   mintPoC (pre ++ a :: post) flag e = Throw CurveError).
Proof.
  intros Hpre.
  set (st0 := {| m_entries := []; m_T := 0; m_Rsum := 0; m_Csum := ZERO |}).
  assert (Hinv0 : MintInv st0).
  { repeat split; cbn; try reflexivity. now rewrite smul_0, smul_0, padd_ZERO_l. }
  destruct (mintLoop_Ok pre Hpre st0 e Hinv0) as (st & e1 & es & Hloop & _).
  assert (Hrun : mintPoC (pre ++ a :: post) flag e
                 = match mintStep st a e1 with
                   | Ok (st', e') =>
                       (let! st := mintLoop post st' in
                        rret {|
                          LedgerState.version := "1";
                          LedgerState.entries := m_entries st;
                          LedgerState.total := {|
                            LedgerTotal.T := bigToDec (m_T st);
                            LedgerTotal.R := bigToDec (m_Rsum st);
                            LedgerTotal.commitSum := pointToHex (m_Csum st) |};
                          LedgerState.allowSelfUpdate := flag |}) e'
                   | Throw x => Throw x
                   end).
  { unfold mintPoC, rbind. fold st0. rewrite mintLoop_app, Hloop. cbn [mintLoop].
    unfold rbind. destruct (mintStep st a e1) as [[st' e']|x]; reflexivity. }
  rewrite Hrun. split.
  - intros Ha. unfold mintStep, rbind, lift. now rewrite Ha.
  - intros z Ha Hz. unfold mintStep, rbind, lift. rewrite Ha. cbn [BigInt_of_number].
    destruct (freshBlinding_Ok e1) as (r & e2 & Hr & _). rewrite Hr.
    now rewrite commit_Throw.
Qed.

(** ** The order of the entries *)

Lemma mapM_Permutation {A B} (f : A -> result B) (xs xs' : list A) ys :
  xs ≡ₚ xs' -> mapM f xs = Ok ys -> exists ys', mapM f xs' = Ok ys' /\ ys ≡ₚ ys'.
Proof.
  intros Hp. revert ys. induction Hp as [|x xs xs' _ IH|x y xs|xs xs' xs'' _ IH1 _ IH2];
    intros ys Hm.
  - injection Hm as <-. now exists [].
  - cbn in Hm. apply bind_Ok in Hm as (b & Hb & Hm).
    apply bind_Ok in Hm as (bs & Hbs & [= <-]).
    destruct (IH _ Hbs) as (bs' & Hbs' & Hperm).
    exists (b :: bs'). cbn. rewrite Hb, Hbs'. split; [reflexivity|now constructor].
  - cbn in Hm. apply bind_Ok in Hm as (b & Hb & Hm).
    apply bind_Ok in Hm as (bs & Hm & [= <-]).
    apply bind_Ok in Hm as (c & Hc & Hm).
    apply bind_Ok in Hm as (cs & Hcs & [= <-]).
    exists (c :: b :: cs). cbn. rewrite Hc, Hb, Hcs. split; [reflexivity|constructor].
  - destruct (IH1 _ Hm) as (ys' & Hm' & Hp1).
    destruct (IH2 _ Hm') as (ys'' & Hm'' & Hp2).
    exists ys''. split; [exact Hm''|]. now transitivity ys'.
Qed.

Lemma psum_Permutation (ps qs : list Point) : ps ≡ₚ qs -> psum ps = psum qs.
Proof.
  induction 1 as [|P ps qs _ IH|P Q ps|ps qs rs _ IH1 _ IH2].
  - reflexivity.
  - now rewrite !psum_cons, IH.
  - rewrite !psum_cons, !padd_assoc. f_equal. apply padd_comm.
  - congruence.
Qed.

Lemma verifyTotal_Permutation_true (l : LedgerState.t) es' :
  LedgerState.entries l ≡ₚ es' ->
  verifyTotal l = Ok true -> verifyTotal (withEntries l es') = Ok true.
Proof.
  intros Hp Hv.
  apply verifyTotal_true in Hv as (T & R & pts & HT & HR & Hpts & Hcl & HTr & HRr & Hsum).
  destruct (mapM_Permutation _ _ _ _ Hp Hpts) as (pts' & Hpts' & Hpp).
  apply verifyTotal_true. exists T, R, pts'. cbn.
  rewrite <- (psum_Permutation _ _ Hpp). auto 10.
Qed.

(** X11.  [verifyTotal] does not depend on the order of the entries: on a
    ledger whose entries are a permutation of another's, all else equal,
    it returns the same boolean. *)
Theorem verifyTotal_ignores_entry_order (l : LedgerState.t) es' :
  LedgerState.entries l ≡ₚ es' ->
  verifyTotal (withEntries l es') = verifyTotal l.
Proof.
  intros Hp.
  destruct (verifyTotal_Ok l) as ([] & Hb), (verifyTotal_Ok (withEntries l es')) as ([] & Hb');
    rewrite Hb, Hb'; try reflexivity; exfalso.
  - apply (verifyTotal_Permutation_true _ _ Hp) in Hb. congruence.
  - assert (Hback : verifyTotal (withEntries (withEntries l es') (LedgerState.entries l)) = Ok true).
    { apply verifyTotal_Permutation_true; [symmetry; exact Hp|exact Hb']. }
    assert (Heq : withEntries (withEntries l es') (LedgerState.entries l) = l)
      by now destruct l.
    rewrite Heq in Hback. congruence.
Qed.

(** ** Openings *)

(** X12.  Binding: when [verifyOpening] accepts both [(v, r)] and [(v', r')]
    for one commitment, [v] and [r] are in [0, L) and the values are equal
    exactly when the blindings are: no commitment opens to one value
    under two blindings, or to two values under one blinding. *)
Theorem verifyOpening_determines_opening h v r v' r' :
  verifyOpening h v r = Ok true ->
  verifyOpening h v' r' = Ok true ->
  0 <= v < L /\ 0 <= r < L /\ (v = v' <-> r = r').
Proof.
  intros H1 H2.
  apply verifyOpening_true in H1 as (C & HC & H1).
  apply verifyOpening_true in H2 as (C' & HC' & H2).
  rewrite HC in HC'. injection HC' as <-.
  apply commit_Ok in H1 as (Hv & Hr & HCeq).
  apply commit_Ok in H2 as (Hv' & Hr' & HCeq').
  split; [exact Hv|]. split; [exact Hr|].
  rewrite HCeq in HCeq'. split; intros <-.
  - apply padd_cancel_l, H_inj in HCeq'. rewrite !Z.mod_small in HCeq' by lia. exact HCeq'.
  - apply padd_cancel_r, G_inj in HCeq'. rewrite !Z.mod_small in HCeq' by lia. exact HCeq'.
Qed.

(** ** [pedersen], [ristrettoAdd] and [verifyOpening] of the shared utilities *)



(** X14.  [pedersen] sees its value and its blinding only modulo [L]: values
    congruent modulo [L] with non-empty blindings congruent modulo [L]
    give the same commitment string. *)
Theorem pedersen_reduces_modulo_L v v' (rb rb' : bytes) :
  rb <> [] -> rb' <> [] ->
  v mod L = v' mod L ->
  beValue 0 rb mod L = beValue 0 rb' mod L ->
  pedersen v rb = pedersen v' rb'.
Proof.
  intros Hrb Hrb' Hv Hr. rewrite !pedersen_Ok by assumption.
  now rewrite (smul_congr v v'), (smul_congr (beValue 0 rb) (beValue 0 rb')).
Qed.

Lemma ristrettoAdd_Ok a b c :
  ristrettoAdd a b = Ok c <->
  exists A B, pointFromHex a = Ok A /\ pointFromHex b = Ok B /\ c = pointToHex (padd A B).
Proof.
  unfold ristrettoAdd, pointFromHex, pointToHex. rewrite bind_Ok. split.
  - intros (A & HA & Hb). apply bind_Ok in Hb as (B & HB & [= <-]). eauto.
  - intros (A & B & HA & HB & ->). exists A. split; [exact HA|]. now rewrite HB.
Qed.

(** X15.  [ristrettoAdd(a, b)] returns exactly when both strings decode to
    points, and then returns the hex of their sum; the result does not
    depend on the order of the arguments and is itself the canonical hex of
    a point. *)
Theorem ristrettoAdd_adds a b :
  (forall c, ristrettoAdd a b = Ok c <->
     exists A B, pointFromHex a = Ok A /\ pointFromHex b = Ok B /\
                 c = pointToHex (padd A B)) /\
  (forall c, ristrettoAdd a b = Ok c ->
     ristrettoAdd b a = Ok c /\ exists C, pointFromHex c = Ok C /\ pointToHex C = c).
Proof.
  split; [intros c; apply ristrettoAdd_Ok|].
  intros c Hc. apply ristrettoAdd_Ok in Hc as (A & B & HA & HB & ->). split.
  - apply ristrettoAdd_Ok. exists B, A. rewrite (padd_comm B A). auto.
  - exists (padd A B). split; [apply pointFromHex_pointToHex|reflexivity].
Qed.

(** X16.  [verifyOpening] of the shared utilities compares strings: it
    returns [true] exactly when the blinding is not empty and the commitment
    is literally the hex [pedersen] prints; whatever it accepts the ledger's
    [verifyOpening] accepts too (value and blinding reduced modulo [L]); and
    it throws where the ledger's returns [false]: on a string that decodes
    to no point, and on an empty blinding. *)
Theorem shared_verifyOpening_exact h v (rb : bytes) :
  (crypto.verifyOpening h v rb = Ok true <->
     rb <> [] /\ h = pointToHex (padd (smul v G) (smul (beValue 0 rb) H))) /\
  (crypto.verifyOpening h v rb = Ok true ->
     verifyOpening h (modL v) (modL (beValue 0 rb)) = Ok true) /\
  (forall x, pointFromHex h = Throw x ->
     crypto.verifyOpening h v rb = Throw x /\
     forall r, verifyOpening h v r = Ok false) /\
  ((exists C, pointFromHex h = Ok C) -> rb = [] ->
     crypto.verifyOpening h v rb = Throw SyntaxError).
Proof.
  assert (Hiff : crypto.verifyOpening h v rb = Ok true <->
     rb <> [] /\ h = pointToHex (padd (smul v G) (smul (beValue 0 rb) H))).
  { unfold crypto.verifyOpening. rewrite bind_Ok. split.
    - intros (C & HC & Hb). apply bind_Ok in Hb as (rBig & HrBig & Hb).
      apply bind_Ok in Hb as (expected & Hexp & [= Heq]).
      apply bool_decide_eq_true in Heq.
      assert (Hrb : rb <> []) by (intros ->; discriminate).
      rewrite pedersen_Ok in Hexp by assumption. injection Hexp as <-. auto.
    - intros (Hrb & ->). exists (padd (smul v G) (smul (beValue 0 rb) H)). split.
      + apply (pointFromHex_pointToHex (padd (smul v G) (smul (beValue 0 rb) H))).
      + rewrite BigInt_0x_hex, pedersen_Ok by assumption. cbn.
        now rewrite bool_decide_eq_true_2. }
  split; [exact Hiff|]. split; [|split].
  - intros Hv. apply Hiff in Hv as (_ & ->).
    apply verifyOpening_true. eexists. split; [apply pointFromHex_pointToHex|].
    apply commit_Ok. split; [apply modL_range|]. split; [apply modL_range|].
    now rewrite !modL_mod, !smul_mod.
  - intros x Hx. split.
    + unfold crypto.verifyOpening. unfold pointFromHex in Hx. now rewrite Hx.
    + intros r. unfold verifyOpening. now rewrite Hx.
  - intros (C & HC) ->. unfold crypto.verifyOpening. unfold pointFromHex in HC.
    now rewrite HC.
Qed.

(** ** [ledger.verify.ts] *)

Lemma getVerificationStatus_Ok (l : LedgerState.t) :
  exists st b,
    getVerificationStatus l = Ok st /\
    verifyTotal l = Ok b /\
    VerificationStatus.name <$> VerificationStatus.checks st
      = ["schema_version"; "total_verification"; "has_entries"]%string /\
    VerificationStatus.passed <$> VerificationStatus.checks st
      = [bool_decide (LedgerState.version l = "1"%string); b;
         bool_decide (LedgerState.entries l <> [])] /\
    (VerificationStatus.verified st = true <->
       LedgerState.version l = "1"%string /\ verifyTotal l = Ok true /\
       LedgerState.entries l <> []) /\
    exists sm, getPublicSummary l = Ok sm /\
      LedgerPublicSummary.verified sm = b /\
      LedgerPublicSummary.participantCount sm = length (LedgerState.entries l) /\
      (VerificationStatus.verified st = true -> LedgerPublicSummary.verified sm = true).
Proof.
  destruct (verifyTotal_Ok l) as (b & Hb).
  assert (Hne : bool_decide (0 < length (LedgerState.entries l))%nat
                = bool_decide (LedgerState.entries l <> [])).
  { apply bool_decide_ext. destruct (LedgerState.entries l); cbn; [split; [lia|congruence]|].
    split; [discriminate|lia]. }
  unfold getVerificationStatus, getPublicSummary. rewrite Hb. cbn [Js.bind].
  eexists. exists b. split; [reflexivity|]. split; [reflexivity|].
  cbn [VerificationStatus.checks VerificationStatus.verified fmap list_fmap
       VerificationStatus.name VerificationStatus.passed forallb].
  rewrite Hne. split; [reflexivity|]. split; [reflexivity|]. split.
  - rewrite !andb_true_iff, !bool_decide_eq_true. split.
    + intros (Hv & -> & Hn & _). auto.
    + intros (Hv & [= ->] & Hn). auto.
  - eexists. split; [reflexivity|]. cbn. repeat split.
    rewrite !andb_true_iff. tauto.
Qed.

(** X17.  [getVerificationStatus] returns on every ledger, with the three
    checks schema_version, total_verification and has_entries in that
    order; [verified] is [true] exactly when the version is 1,
    [verifyTotal] accepts the ledger and there is at least one entry.
    [getPublicSummary] returns too, and its [verified] flag is the result
    of [verifyTotal] alone. *)
Theorem getVerificationStatus_verified (l : LedgerState.t) :
  exists st b,
    getVerificationStatus l = Ok st /\
    verifyTotal l = Ok b /\
    VerificationStatus.name <$> VerificationStatus.checks st
      = ["schema_version"; "total_verification"; "has_entries"]%string /\
    VerificationStatus.passed <$> VerificationStatus.checks st
      = [bool_decide (LedgerState.version l = "1"%string); b;
         bool_decide (LedgerState.entries l <> [])] /\
    (VerificationStatus.verified st = true <->
       LedgerState.version l = "1"%string /\ verifyTotal l = Ok true /\
       LedgerState.entries l <> []) /\
    exists sm, getPublicSummary l = Ok sm /\
      LedgerPublicSummary.verified sm = b /\
      LedgerPublicSummary.participantCount sm = length (LedgerState.entries l) /\
      (VerificationStatus.verified st = true -> LedgerPublicSummary.verified sm = true).
Proof. apply getVerificationStatus_Ok. Qed.

(** X18.  On a ledger minted from valid allocations the public summary has
    version 1, as many participants as allocations and a total that reads
    as the sum of the amounts; the status is verified exactly when there is
    at least one allocation and the summary is verified. *)
Theorem minted_ledger_status allocs flag (e e' : Entropy) (l : LedgerState.t) :
  Forall validAllocation allocs ->
  mintPoC allocs flag e = Ok (l, e') ->
  exists st sm,
    getVerificationStatus l = Ok st /\ getPublicSummary l = Ok sm /\
    LedgerPublicSummary.version sm = "1"%string /\
    LedgerPublicSummary.participantCount sm = length allocs /\
    decToBig (LedgerTotal.T (LedgerPublicSummary.total sm)) = Ok (totalAmount allocs) /\
    (VerificationStatus.verified st = true <->
       allocs <> [] /\ LedgerPublicSummary.verified sm = true).
Proof.
  intros Hall Hmint.
  destruct (mintPoC_Ok allocs flag e Hall) as (l0 & e0 & Rsum & Hm & _ & Hopen & HT & _).
  rewrite Hmint in Hm. injection Hm as <- <-.
  assert (Hver : LedgerState.version l = "1"%string).
  { unfold mintPoC in Hmint. apply rbind_Ok in Hmint as (st & e1 & _ & Hret).
    apply rret_Ok in Hret as [-> _]. reflexivity. }
  destruct (getVerificationStatus_Ok l)
    as (st & b & Hst & Hb & _ & _ & Hiff & sm & Hsm & Hsv & Hcount & _).
  exists st, sm. split; [exact Hst|]. split; [exact Hsm|].
  assert (Hlen : length (LedgerState.entries l) = length allocs)
    by (symmetry; eapply Forall2_length, Hopen).
  unfold getPublicSummary in Hsm. rewrite Hb in Hsm. injection Hsm as <-. cbn.
  split; [exact Hver|]. split; [exact Hlen|]. split; [exact HT|].
  rewrite Hiff, Hb. split.
  - intros (_ & [= ->] & Hne). split; [|reflexivity]. intros ->.
    destruct (LedgerState.entries l); [congruence|discriminate].
  - intros (Hne & ->). split; [exact Hver|]. split; [reflexivity|].
    intros Hnil. rewrite Hnil in Hlen. destruct allocs; [congruence|discriminate].
Qed.

End MoreProperties.

(* ================================================================== *)
(** * Properties of the fundraising operations *)
(* ================================================================== *)

Section FundraisingProperties.
Context {curve : Ristretto255} {codec : PledgeCodec}.

(** ** [submitPledge] *)

Lemma submitPledge_inv c params clk c' clk' :
  submitPledge c params clk = Ok (c', clk') ->
  exists a cm total,
    Campaign.status c = active /\
    readings clk (reads clk) < Campaign.deadline c /\
    BigInt (SubmitPledgeParams.amount params) = Ok a /\ 0 < a /\
    ~ Exists (isPledger (SubmitPledgeParams.pledgerId params)) (Campaign.pledges c) /\
    pedersen a (SubmitPledgeParams.blinding params) = Ok cm /\
    ristrettoAdd (Campaign.totalCommit c) cm = Ok total /\
    clk' = later 2 clk /\
    c' = withTotalCommit
           (withPledges c
              (Campaign.pledges c ++
               [ {| PledgeEntry.pledgerId := SubmitPledgeParams.pledgerId params;
                    PledgeEntry.commit := cm;
                    PledgeEntry.openingEncrypted :=
                      encodePledgeOpening (SubmitPledgeParams.amount params)
                                          (SubmitPledgeParams.blinding params);
                    PledgeEntry.signedAt := readings clk (S (reads clk));
                    PledgeEntry.signature := None |} ]))
           total.
Proof.
  unfold submitPledge. cbv zeta.
  case_bool_decide as Hst; [|discriminate]. cbn [negb].
  intros Hs.
  apply tbind_Ok in Hs as (now & c1 & Hnow & Hs). apply Date_now_Ok in Hnow as [-> ->].
  destruct (Z.leb_spec (Campaign.deadline c) (readings clk (reads clk))) as [|Hdl];
    [discriminate|].
  apply tbind_Ok in Hs as (a & c1 & Ha & Hs). apply tlift_Ok in Ha as [Ha ->].
  destruct (Z.leb_spec a 0) as [|Hpos]; [discriminate|].
  case_bool_decide as Hdup; [discriminate|].
  apply tbind_Ok in Hs as (cm & c1 & Hcm & Hs). apply tlift_Ok in Hcm as [Hcm ->].
  apply tbind_Ok in Hs as (signedAt & c1 & Hsig & Hs). apply Date_now_Ok in Hsig as [-> ->].
  apply tbind_Ok in Hs as (total & c2 & Htot & Hs). apply tlift_Ok in Htot as [Htot ->].
  apply tret_Ok in Hs as [-> ->].
  exists a, cm, total. rewrite later_later. cbn [later reads readings Nat.add].
  split; [assumption|]. split; [lia|]. split; [assumption|]. split; [lia|].
  split; [assumption|]. split; [assumption|]. split; [assumption|].
  split; reflexivity.
Qed.

Lemma submitPledge_Ok c params clk a C :
  Campaign.status c = active ->
  readings clk (reads clk) < Campaign.deadline c ->
  BigInt (SubmitPledgeParams.amount params) = Ok a -> 0 < a ->
  ~ Exists (isPledger (SubmitPledgeParams.pledgerId params)) (Campaign.pledges c) ->
  SubmitPledgeParams.blinding params <> [] ->
  pointFromHex (Campaign.totalCommit c) = Ok C ->
  let Cp := padd (smul a G) (smul (beValue 0 (SubmitPledgeParams.blinding params)) H) in
  submitPledge c params clk
  = Ok (withTotalCommit
          (withPledges c
             (Campaign.pledges c ++
              [ {| PledgeEntry.pledgerId := SubmitPledgeParams.pledgerId params;
                   PledgeEntry.commit := pointToHex Cp;
                   PledgeEntry.openingEncrypted :=
                     encodePledgeOpening (SubmitPledgeParams.amount params)
                                         (SubmitPledgeParams.blinding params);
                   PledgeEntry.signedAt := readings clk (S (reads clk));
                   PledgeEntry.signature := None |} ]))
          (pointToHex (padd C Cp)),
        later 2 clk).
Proof.
  intros Hst Hdl Ha Hpos Hdup Hrb HC Cp.
  assert (Hadd : ristrettoAdd (Campaign.totalCommit c) (pointToHex Cp)
                 = Ok (pointToHex (padd C Cp))).
  { apply ristrettoAdd_Ok. exists C, Cp. split; [exact HC|].
    split; [apply pointFromHex_pointToHex|reflexivity]. }
  unfold submitPledge. cbv zeta.
  rewrite bool_decide_eq_true_2 by assumption. cbn [negb].
  unfold tbind at 1. unfold Date_now at 1.
  destruct (Z.leb_spec (Campaign.deadline c) (readings clk (reads clk))) as [|_]; [lia|].
  unfold tbind at 1. unfold tlift at 1. rewrite Ha.
  destruct (Z.leb_spec a 0) as [|_]; [lia|].
  rewrite bool_decide_eq_false_2 by assumption.
  unfold tbind, tlift, Date_now, tret. rewrite (pedersen_Ok a _ Hrb). fold Cp.
  cbn [readings reads]. rewrite Hadd. reflexivity.
Qed.

(** X19.  On an active campaign before its deadline, a positive amount from a
    new pledger with a non-empty blinding, the total decoding to a point
    [C]: [submitPledge] returns after two readings of the clock, appends one
    pledge whose commitment decodes to [G*a + H*r], and the new total
    decodes to [C + (G*a + H*r)]; the campaign stays active. *)
Theorem submitPledge_accumulates c params clk a C :
  Campaign.status c = active ->
  readings clk (reads clk) < Campaign.deadline c ->
  BigInt (SubmitPledgeParams.amount params) = Ok a -> 0 < a ->
  Forall (fun p => PledgeEntry.pledgerId p <> SubmitPledgeParams.pledgerId params)
         (Campaign.pledges c) ->
  SubmitPledgeParams.blinding params <> [] ->
  pointFromHex (Campaign.totalCommit c) = Ok C ->
  exists c' pledge,
    submitPledge c params clk = Ok (c', later 2 clk) /\
    Campaign.pledges c' = Campaign.pledges c ++ [pledge] /\
    PledgeEntry.pledgerId pledge = SubmitPledgeParams.pledgerId params /\
    pointFromHex (PledgeEntry.commit pledge)
      = Ok (padd (smul a G) (smul (beValue 0 (SubmitPledgeParams.blinding params)) H)) /\
    pointFromHex (Campaign.totalCommit c')
      = Ok (padd C (padd (smul a G)
                         (smul (beValue 0 (SubmitPledgeParams.blinding params)) H))) /\
    Campaign.status c' = active.
Proof.
  intros Hst Hdl Ha Hpos Hnew Hrb HC.
  assert (Hdup : ~ Exists (isPledger (SubmitPledgeParams.pledgerId params))
                          (Campaign.pledges c)).
  { rewrite <- Forall_Exists_neg. exact Hnew. }
  pose proof (submitPledge_Ok c params clk a C Hst Hdl Ha Hpos Hdup Hrb HC) as Hs.
  cbv zeta in Hs. do 2 eexists. split; [exact Hs|]. cbn.
  split; [reflexivity|]. split; [reflexivity|].
  split; [apply pointFromHex_pointToHex|]. split; [apply pointFromHex_pointToHex|].
  exact Hst.
Qed.

(** ** [verifyCampaignTotal] *)

Lemma sumPledgeCommits_app s ps qs :
  sumPledgeCommits s (ps ++ qs)
  = let* s' := sumPledgeCommits s ps in sumPledgeCommits s' qs.
Proof.
  revert s. induction ps as [|p ps IH]; intros s; [reflexivity|].
  cbn [app sumPledgeCommits]. destruct (ristrettoAdd s (PledgeEntry.commit p)); [|reflexivity].
  cbn [Js.bind]. apply IH.
Qed.

Lemma verifyCampaignTotal_nonempty c :
  Campaign.pledges c <> [] ->
  verifyCampaignTotal c
  = let* sum := sumPledgeCommits identityHex (Campaign.pledges c) in
    Ok (bool_decide (sum = Campaign.totalCommit c)).
Proof. unfold verifyCampaignTotal. now destruct (Campaign.pledges c). Qed.

Lemma verifyCampaignTotal_true c :
  verifyCampaignTotal c = Ok true ->
  sumPledgeCommits identityHex (Campaign.pledges c) = Ok (Campaign.totalCommit c).
Proof.
  unfold verifyCampaignTotal. destruct (Campaign.pledges c) as [|p ps] eqn:E.
  - intros [= Heq]. apply bool_decide_eq_true in Heq. now rewrite Heq.
  - intros Hb. apply bind_Ok in Hb as (sum & Hsum & [= Heq]).
    apply bool_decide_eq_true in Heq. now subst.
Qed.

Lemma submitPledge_verified c params clk c' clk' :
  verifyCampaignTotal c = Ok true ->
  submitPledge c params clk = Ok (c', clk') ->
  verifyCampaignTotal c' = Ok true.
Proof.
  intros Hv Hs.
  apply submitPledge_inv in Hs as (a & cm & total & _ & _ & _ & _ & _ & _ & Hadd & _ & ->).
  apply verifyCampaignTotal_true in Hv.
  rewrite verifyCampaignTotal_nonempty by (cbn; now destruct (Campaign.pledges c)).
  cbn [Campaign.pledges Campaign.totalCommit withTotalCommit withPledges].
  rewrite sumPledgeCommits_app, Hv. cbn [Js.bind sumPledgeCommits PledgeEntry.commit].
  rewrite Hadd. cbn. now rewrite bool_decide_eq_true_2.
Qed.

(** X20.  [submitPledge] keeps the campaign verified: if
    [verifyCampaignTotal] accepts a campaign and [submitPledge] returns,
    [verifyCampaignTotal] accepts the result. *)
Theorem submitPledge_preserves_verification c params clk c' clk' :
  verifyCampaignTotal c = Ok true ->
  submitPledge c params clk = Ok (c', clk') ->
  verifyCampaignTotal c' = Ok true.
Proof. apply submitPledge_verified. Qed.

(** The sum of the pledge commitments as a point. *)
Lemma sumPledgeCommits_points s0 P0 ps pts :
  pointFromHex s0 = Ok P0 ->
  mapM (fun p => pointFromHex (PledgeEntry.commit p)) ps = Ok pts ->
  ps <> [] ->
  sumPledgeCommits s0 ps = Ok (pointToHex (padd P0 (psum pts))).
Proof.
  revert s0 P0 pts. induction ps as [|p ps IH]; intros s0 P0 pts H0 Hm Hne; [congruence|].
  cbn in Hm. apply bind_Ok in Hm as (P1 & HP1 & Hm).
  apply bind_Ok in Hm as (pts' & Hpts' & [= <-]).
  cbn [sumPledgeCommits].
  assert (Hadd : ristrettoAdd s0 (PledgeEntry.commit p) = Ok (pointToHex (padd P0 P1))).
  { apply ristrettoAdd_Ok. eauto. }
  rewrite Hadd. cbn [Js.bind]. rewrite psum_cons, padd_assoc.
  destruct ps as [|p' ps'].
  - injection Hpts' as <-. cbn. unfold psum. cbn. now rewrite padd_ZERO_r.
  - apply IH; [apply pointFromHex_pointToHex|exact Hpts'|discriminate].
Qed.

Lemma sumPledgeCommits_decodes s0 ps s :
  sumPledgeCommits s0 ps = Ok s -> ps <> [] ->
  exists P0 pts,
    pointFromHex s0 = Ok P0 /\
    mapM (fun p => pointFromHex (PledgeEntry.commit p)) ps = Ok pts.
Proof.
  revert s0. induction ps as [|p ps IH]; intros s0 Hs Hne; [congruence|].
  cbn [sumPledgeCommits] in Hs. apply bind_Ok in Hs as (s1 & Hadd & Hs).
  apply ristrettoAdd_Ok in Hadd as (P0 & P1 & HP0 & HP1 & ->).
  exists P0. destruct ps as [|p' ps'].
  - exists [P1]. split; [exact HP0|]. cbn. now rewrite HP1.
  - destruct (IH _ Hs) as (_ & pts & _ & Hpts); [discriminate|].
    exists (P1 :: pts). split; [exact HP0|].
    change (mapM _ (p :: p' :: ps')) with
      (let* y := pointFromHex (PledgeEntry.commit p) in
       let* ys := mapM (fun p => pointFromHex (PledgeEntry.commit p)) (p' :: ps') in
       Ok (y :: ys)).
    now rewrite HP1, Hpts.
Qed.

Lemma sumPledgeCommits_Throw s0 P0 ps x :
  pointFromHex s0 = Ok P0 ->
  mapM (fun p => pointFromHex (PledgeEntry.commit p)) ps = Throw x ->
  sumPledgeCommits s0 ps = Throw x.
Proof.
  revert s0 P0. induction ps as [|p ps IH]; intros s0 P0 H0 Hm; [discriminate|].
  cbn in Hm. cbn [sumPledgeCommits]. unfold ristrettoAdd at 1.
  unfold pointFromHex in H0. rewrite H0. cbn [Js.bind].
  unfold pointFromHex in Hm.
  destruct (Point_fromBytes (hex.toBytes (PledgeEntry.commit p))) as [P1|y]; cbn in *;
    [|congruence].
  eapply IH; [apply pointFromHex_pointToHex|].
  unfold pointFromHex.
  destruct (mapM _ ps); [discriminate|exact Hm].
Qed.

Lemma mapM_insert_Throw {A B} (f : A -> result B) xs ys i y x :
  mapM f xs = Ok ys -> (i < length xs)%nat -> f y = Throw x ->
  mapM f (<[i := y]> xs) = Throw x.
Proof.
  revert ys i. induction xs as [|x0 xs IH]; intros ys [|i] Hm Hi Hy;
    cbn [length] in Hi; try lia.
  - cbn. now rewrite Hy.
  - cbn [mapM] in Hm. apply bind_Ok in Hm as (b & Hb & Hm).
    apply bind_Ok in Hm as (bs & Hbs & _).
    change (<[S i := y]> (x0 :: xs)) with (x0 :: <[i := y]> xs).
    cbn [mapM]. rewrite Hb. cbn [Js.bind].
    rewrite (IH bs i Hbs); [reflexivity|lia|exact Hy].
Qed.

(** X21.  On a campaign that verifies: any other string as total makes
    [verifyCampaignTotal] return [false]; replacing one pledge's commitment
    by the hex of another point makes it return [false]; replacing it by a
    string that decodes to no point makes it throw. *)
Theorem verifyCampaignTotal_tamper c :
  verifyCampaignTotal c = Ok true ->
  (forall h, h <> Campaign.totalCommit c ->
     verifyCampaignTotal (withTotalCommit c h) = Ok false) /\
  (forall i p h Q, Campaign.pledges c !! i = Some p ->
     pointFromHex h = Ok Q -> pointFromHex (PledgeEntry.commit p) <> Ok Q ->
     verifyCampaignTotal (withPledges c (<[i := withPledgeCommit h p]> (Campaign.pledges c)))
       = Ok false) /\
  (forall i p h x, Campaign.pledges c !! i = Some p ->
     pointFromHex h = Throw x ->
     verifyCampaignTotal (withPledges c (<[i := withPledgeCommit h p]> (Campaign.pledges c)))
       = Throw x).
Proof.
  intros Hv. pose proof (verifyCampaignTotal_true c Hv) as Hsum.
  split; [|split].
  - intros h Hne. unfold verifyCampaignTotal in *.
    cbn [withTotalCommit Campaign.pledges Campaign.totalCommit].
    destruct (Campaign.pledges c) as [|p ps].
    + injection Hsum as Hsum. rewrite bool_decide_eq_false_2; congruence.
    + rewrite Hsum. cbn [Js.bind]. rewrite bool_decide_eq_false_2; congruence.
  - intros i p h Q Hi HQ Hne.
    assert (Hnil : Campaign.pledges c <> []) by (intros E; now rewrite E in Hi).
    destruct (sumPledgeCommits_decodes _ _ _ Hsum Hnil) as (P0 & pts & HP0 & Hpts).
    destruct (mapM_lookup _ _ _ _ _ Hpts Hi) as (Pi & HPi & HfPi).
    pose proof (mapM_insert _ _ _ i (withPledgeCommit h p) Q Hpts HQ) as Hins.
    rewrite verifyCampaignTotal_nonempty
      by (cbn; intros E; apply (f_equal length) in E; rewrite length_insert in E;
          destruct (Campaign.pledges c); [congruence|discriminate]).
    cbn [withPledges Campaign.pledges Campaign.totalCommit].
    rewrite (sumPledgeCommits_points _ P0 _ _ HP0 Hins)
      by (intros E; apply (f_equal length) in E; rewrite length_insert in E;
          destruct (Campaign.pledges c); [congruence|discriminate]).
    cbn [Js.bind]. rewrite bool_decide_eq_false_2; [reflexivity|].
    rewrite (sumPledgeCommits_points _ P0 _ _ HP0 Hpts Hnil) in Hsum.
    injection Hsum as Hsum. intros Heq. rewrite <- Hsum in Heq.
    apply (f_equal pointFromHex) in Heq. rewrite !pointFromHex_pointToHex in Heq.
    injection Heq as Heq. apply padd_cancel_l in Heq.
    pose proof (psum_insert pts i Pi Q HPi) as Hrep.
    rewrite Heq in Hrep. apply padd_cancel_l in Hrep. subst Q. congruence.
  - intros i p h x Hi Hx.
    assert (Hnil : Campaign.pledges c <> []) by (intros E; now rewrite E in Hi).
    destruct (sumPledgeCommits_decodes _ _ _ Hsum Hnil) as (P0 & pts & HP0 & Hpts).
    rewrite verifyCampaignTotal_nonempty
      by (cbn; intros E; apply (f_equal length) in E; rewrite length_insert in E;
          destruct (Campaign.pledges c); [congruence|discriminate]).
    cbn [withPledges Campaign.pledges Campaign.totalCommit].
    rewrite (sumPledgeCommits_Throw _ P0 _ x HP0); [reflexivity|].
    eapply mapM_insert_Throw; [exact Hpts|now apply lookup_lt_Some in Hi|exact Hx].
Qed.

(** ** [checkFundingStatus] *)

Lemma sumOpenings_app ps qs acc :
  sumOpenings (ps ++ qs) acc
  = match sumOpenings ps acc with Some t => sumOpenings qs t | None => None end.
Proof.
  revert acc. induction ps as [|p ps IH]; intros acc; [reflexivity|].
  cbn [app sumOpenings]. destruct (Js.bind _ _); [apply IH|reflexivity].
Qed.

(** X22.  A pledge counts with its amount: on a verified campaign whose
    openings sum to [S] and whose target reads as [t], a pledge of [a] that
    returns has [a > 0], and [checkFundingStatus] goes from
    [(t <= S, S, verified)] to [(t <= S + a, S + a, verified)]. *)
Theorem submitPledge_counts_amount c params clk c' clk' S t :
  submitPledge c params clk = Ok (c', clk') ->
  verifyCampaignTotal c = Ok true ->
  sumOpenings (Campaign.pledges c) 0 = Some S ->
  BigInt (Campaign.targetAmount c) = Ok t ->
  exists a,
    BigInt (SubmitPledgeParams.amount params) = Ok a /\ 0 < a /\
    checkFundingStatus c
      = Ok {| FundingStatus.isFunded := t <=? S;
              FundingStatus.totalPledged := S;
              FundingStatus.isVerified := true |} /\
    checkFundingStatus c'
      = Ok {| FundingStatus.isFunded := t <=? S + a;
              FundingStatus.totalPledged := S + a;
              FundingStatus.isVerified := true |}.
Proof.
  intros Hs Hv HS Ht.
  pose proof (submitPledge_verified _ _ _ _ _ Hv Hs) as Hv'.
  apply submitPledge_inv in Hs as (a & cm & total & _ & _ & Ha & Hpos & _ & _ & _ & _ & ->).
  exists a. split; [exact Ha|]. split; [exact Hpos|]. split.
  - unfold checkFundingStatus. now rewrite Hv, HS, Ht.
  - unfold checkFundingStatus. rewrite Hv'. cbn [Js.bind].
    cbn [withTotalCommit withPledges Campaign.pledges Campaign.targetAmount].
    rewrite sumOpenings_app, HS. cbn [sumOpenings PledgeEntry.openingEncrypted].
    unfold decryptPledgeOpening. rewrite decode_encode_pledgeOpening.
    cbn [Js.bind BigInt_of_value]. rewrite Ha, Ht. reflexivity.
Qed.

(** ** The checks of [submitPledge] *)

(** X23.  The checks of [submitPledge], in the order of the source: a
    campaign that is not active; a deadline not after the clock; an amount
    that [BigInt] refuses; an amount that is not positive; a pledger who has
    pledged already.  Hence pledger ids that are distinct stay distinct
    after a pledge that returns. *)
Theorem submitPledge_checks c params clk :
  let now := readings clk (reads clk) in
  (Campaign.status c <> active ->
   submitPledge c params clk
   = Throw (Error ("Cannot submit pledge to " ++ statusName (Campaign.status c)
                   ++ " campaign"))) /\
  (Campaign.status c = active -> Campaign.deadline c <= now ->
   submitPledge c params clk = Throw (Error "Campaign deadline has passed")) /\
  (Campaign.status c = active -> now < Campaign.deadline c ->
   (forall x, BigInt (SubmitPledgeParams.amount params) = Throw x ->
      submitPledge c params clk = Throw x) /\
   (forall a, BigInt (SubmitPledgeParams.amount params) = Ok a ->
      (a <= 0 ->
       submitPledge c params clk = Throw (Error "Pledge amount must be positive")) /\
      (0 < a ->
       Exists (isPledger (SubmitPledgeParams.pledgerId params)) (Campaign.pledges c) ->
       submitPledge c params clk
       = Throw (Error (SubmitPledgeParams.pledgerId params
                       ++ " has already pledged to this campaign"))))) /\
  (forall c' clk', submitPledge c params clk = Ok (c', clk') ->
   NoDup (PledgeEntry.pledgerId <$> Campaign.pledges c) ->
   NoDup (PledgeEntry.pledgerId <$> Campaign.pledges c')).
Proof.
  cbv zeta. split; [|split; [|split]].
  - intros Hst. unfold submitPledge. cbv zeta.
    now rewrite bool_decide_eq_false_2 by assumption.
  - intros Hst Hdl. unfold submitPledge. cbv zeta.
    rewrite bool_decide_eq_true_2 by assumption. cbn [negb].
    unfold tbind, Date_now.
    destruct (Z.leb_spec (Campaign.deadline c) (readings clk (reads clk))); [reflexivity|lia].
  - intros Hst Hdl.
    assert (Hrun : forall (k : Z -> Timed Campaign.t),
      (let@ now := Date_now in
       if Campaign.deadline c <=? now
       then throw (Error "Campaign deadline has passed")
       else let@ pledgeAmount := tlift (BigInt (SubmitPledgeParams.amount params)) in
            k pledgeAmount) clk
      = match BigInt (SubmitPledgeParams.amount params) with
        | Ok a => k a (later 1 clk)
        | Throw x => Throw x
        end).
    { intros k. unfold tbind at 1. unfold Date_now at 1.
      destruct (Z.leb_spec (Campaign.deadline c) (readings clk (reads clk))); [lia|].
      unfold tbind, tlift. now destruct (BigInt _). }
    unfold submitPledge. cbv zeta.
    rewrite bool_decide_eq_true_2 by assumption. cbn [negb].
    rewrite Hrun. split.
    + intros x Hx. now rewrite Hx.
    + intros a Ha. rewrite Ha. split.
      * intros Hle. destruct (Z.leb_spec a 0); [reflexivity|lia].
      * intros Hpos Hdup. destruct (Z.leb_spec a 0); [lia|].
        now rewrite bool_decide_eq_true_2.
  - intros c' clk' Hs Hnd.
    apply submitPledge_inv in Hs as (a & cm & total & _ & _ & _ & _ & Hdup & _ & _ & _ & ->).
    cbn [withTotalCommit withPledges Campaign.pledges].
    rewrite fmap_app. cbn [fmap list_fmap PledgeEntry.pledgerId].
    apply NoDup_app. split; [exact Hnd|]. split; [|apply NoDup_singleton].
    intros id Hin Hin'. apply list_elem_of_singleton in Hin'. subst id.
    apply Hdup. apply list_elem_of_fmap in Hin as (p & Hid & Hp).
    apply Exists_exists. exists p. split; [exact Hp|]. now unfold isPledger.
Qed.

(** ** [createCampaign] *)

(** X24.  [createCampaign] throws what [BigInt] throws on a target that is no
    integer, then rejects a target that is not positive, then a deadline
    that is not after the clock; otherwise it returns a draft campaign with
    no pledges, the given target and deadline, created at the second
    reading of the clock, whose total verifies and whose funding status is
    verified, unfunded, with nothing pledged. *)
Theorem createCampaign_fresh params clk :
  let now := readings clk (reads clk) in
  (forall x, BigInt (CreateCampaignParams.targetAmount params) = Throw x ->
     createCampaign params clk = Throw x) /\
  (forall t, BigInt (CreateCampaignParams.targetAmount params) = Ok t ->
     (t <= 0 -> createCampaign params clk = Throw (Error "Target amount must be positive")) /\
     (0 < t -> CreateCampaignParams.deadline params <= now ->
      createCampaign params clk = Throw (Error "Deadline must be in the future")) /\
     (0 < t -> now < CreateCampaignParams.deadline params ->
      exists c,
        createCampaign params clk = Ok (c, later 2 clk) /\
        Campaign.status c = draft /\
        Campaign.pledges c = [] /\
        Campaign.targetAmount c = CreateCampaignParams.targetAmount params /\
        Campaign.deadline c = CreateCampaignParams.deadline params /\
        Campaign.createdAt c = readings clk (S (reads clk)) /\
        verifyCampaignTotal c = Ok true /\
        checkFundingStatus c
          = Ok {| FundingStatus.isFunded := false;
                  FundingStatus.totalPledged := 0;
                  FundingStatus.isVerified := true |})).
Proof.
  cbv zeta. split.
  - intros x Hx. unfold createCampaign, tbind, tlift. now rewrite Hx.
  - intros t Ht. split; [|split].
    + intros Hle. unfold createCampaign, tbind, tlift. rewrite Ht.
      destruct (Z.leb_spec t 0); [reflexivity|lia].
    + intros Hpos Hdl. unfold createCampaign, tbind, tlift, Date_now. rewrite Ht.
      destruct (Z.leb_spec t 0); [lia|].
      destruct (Z.leb_spec (CreateCampaignParams.deadline params) (readings clk (reads clk)));
        [reflexivity|lia].
    + intros Hpos Hdl. eexists. split.
      * unfold createCampaign, tbind, tlift, Date_now, tret. rewrite Ht.
        destruct (Z.leb_spec t 0); [lia|].
        destruct (Z.leb_spec (CreateCampaignParams.deadline params) (readings clk (reads clk)));
          [lia|].
        cbn [readings reads]. reflexivity.
      * cbn. repeat split.
        unfold checkFundingStatus, verifyCampaignTotal. cbn. rewrite Ht. cbn.
        destruct (Z.leb_spec t 0); [lia|reflexivity].
Qed.

(** ** The life of a campaign *)

Lemma activateCampaign_inv c clk c' clk' :
  activateCampaign c clk = Ok (c', clk') ->
  Campaign.status c = draft /\
  readings clk (reads clk) < Campaign.deadline c /\
  c' = withStatus c active (Campaign.settledAt c) /\ clk' = later 1 clk.
Proof.
  unfold activateCampaign. case_bool_decide as Hst; [|discriminate]. cbn [negb].
  intros Ha. apply tbind_Ok in Ha as (now & c1 & Hnow & Ha).
  apply Date_now_Ok in Hnow as [-> ->].
  destruct (Z.leb_spec (Campaign.deadline c) (readings clk (reads clk))); [discriminate|].
  apply tret_Ok in Ha as [-> ->]. auto.
Qed.

Lemma settleCampaign_inv c clk c' clk' :
  settleCampaign c clk = Ok (c', clk') ->
  (Campaign.status c = funded \/ Campaign.status c = failed) /\
  c' = withStatus c settled (Some (readings clk (reads clk))) /\ clk' = later 1 clk.
Proof.
  unfold settleCampaign. intros Hs.
  assert (Hst : Campaign.status c = funded \/ Campaign.status c = failed).
  { destruct (Campaign.status c); auto; discriminate. }
  split; [exact Hst|].
  assert (Hg : negb (bool_decide (Campaign.status c = funded))
               && negb (bool_decide (Campaign.status c = failed)) = false)
    by (destruct Hst as [-> | ->]; reflexivity).
  rewrite Hg in Hs. apply tbind_Ok in Hs as (now & c1 & Hnow & Hs).
  apply Date_now_Ok in Hnow as [-> ->]. apply tret_Ok in Hs as [-> ->]. auto.
Qed.

Lemma checkFundingStatus_verified c fs :
  checkFundingStatus c = Ok fs -> FundingStatus.isVerified fs = true ->
  exists S t,
    verifyCampaignTotal c = Ok true /\
    sumOpenings (Campaign.pledges c) 0 = Some S /\
    BigInt (Campaign.targetAmount c) = Ok t /\
    fs = {| FundingStatus.isFunded := t <=? S;
            FundingStatus.totalPledged := S;
            FundingStatus.isVerified := true |}.
Proof.
  unfold checkFundingStatus. intros Hfs Hv.
  apply bind_Ok in Hfs as (b & Hb & Hfs).
  destruct (sumOpenings _ _) as [S|]; [|injection Hfs as <-; discriminate].
  apply bind_Ok in Hfs as (t & Ht & [= <-]). cbn in Hv. subst b.
  exists S, t. auto.
Qed.

Lemma closeCampaign_Ok c clk c' clk' :
  closeCampaign c clk = Ok (c', clk') <->
  exists S t,
    Campaign.status c = active /\
    verifyCampaignTotal c = Ok true /\
    sumOpenings (Campaign.pledges c) 0 = Some S /\
    BigInt (Campaign.targetAmount c) = Ok t /\
    (t <= S \/ Campaign.deadline c <= readings clk (reads clk)) /\
    c' = withStatus c (if t <=? S then funded else failed) (Campaign.settledAt c) /\
    clk' = later 1 clk.
Proof.
  unfold closeCampaign. cbv zeta. split.
  - case_bool_decide as Hst; [|discriminate]. cbn [negb]. intros Hc.
    apply tbind_Ok in Hc as (now & c1 & Hnow & Hc). apply Date_now_Ok in Hnow as [-> ->].
    apply tbind_Ok in Hc as (fs & c1 & Hfs & Hc). apply tlift_Ok in Hfs as [Hfs ->].
    destruct (FundingStatus.isVerified fs) eqn:Hv; [|discriminate]. cbn [negb] in Hc.
    destruct (checkFundingStatus_verified c fs Hfs Hv) as (S & t & Hver & HS & Ht & ->).
    cbn [FundingStatus.isFunded] in Hc.
    apply tbind_Ok in Hc as (st & c1 & Hst' & Hc). apply tret_Ok in Hc as [-> ->].
    exists S, t. repeat (split; [assumption|]).
    destruct (Z.leb_spec (Campaign.deadline c) (readings clk (reads clk))) as [Hdl|Hdl],
             (Z.leb_spec t S) as [Hf|Hf];
      try discriminate; apply tret_Ok in Hst' as [-> ->]; (split; [lia|auto]).
  - intros (S & t & Hst & Hver & HS & Ht & Hcan & -> & ->).
    rewrite bool_decide_eq_true_2 by assumption. cbn [negb].
    unfold tbind, Date_now, tlift, checkFundingStatus. rewrite Hver, HS, Ht. cbn.
    destruct (Z.leb_spec (Campaign.deadline c) (readings clk (reads clk))) as [Hdl|Hdl],
             (Z.leb_spec t S) as [Hf|Hf]; cbn; try reflexivity. lia.
Qed.

(** X25.  [closeCampaign] returns exactly when the campaign is active, its
    total verifies, every opening decodes, the target reads as an integer
    and either the target is met or the deadline has passed; the result is
    the same campaign with status funded when the target is met and failed
    otherwise, after one reading of the clock. *)
Theorem closeCampaign_outcome c clk c' clk' :
  closeCampaign c clk = Ok (c', clk') <->
  exists S t,
    Campaign.status c = active /\
    verifyCampaignTotal c = Ok true /\
    sumOpenings (Campaign.pledges c) 0 = Some S /\
    BigInt (Campaign.targetAmount c) = Ok t /\
    (t <= S \/ Campaign.deadline c <= readings clk (reads clk)) /\
    c' = withStatus c (if t <=? S then funded else failed) (Campaign.settledAt c) /\
    clk' = later 1 clk.
Proof. apply closeCampaign_Ok. Qed.

(** X26.  Every successful call of [activateCampaign], [submitPledge],
    [closeCampaign] or [settleCampaign] moves the status along draft ->
    active -> funded or failed -> settled (a pledge keeps it active), keeps
    the id, the target and the deadline, and only appends pledges; pledges
    and total change on active campaigns only. *)
Theorem campaign_lifecycle c c' :
  campaignStep c c' ->
  statusNext (Campaign.status c) (Campaign.status c') = true /\
  Campaign.campaignId c' = Campaign.campaignId c /\
  Campaign.targetAmount c' = Campaign.targetAmount c /\
  Campaign.deadline c' = Campaign.deadline c /\
  (exists new, Campaign.pledges c' = Campaign.pledges c ++ new /\
     (Campaign.status c <> active -> new = [])) /\
  (Campaign.status c <> active -> Campaign.totalCommit c' = Campaign.totalCommit c).
Proof.
  intros [c0 clk c1 clk' Ha|c0 params clk c1 clk' Hs|c0 clk c1 clk' Hc|c0 clk c1 clk' Hs].
  - apply activateCampaign_inv in Ha as (Hst & _ & -> & _). cbn. rewrite Hst.
    repeat split. exists []. now rewrite app_nil_r.
  - apply submitPledge_inv in Hs as (a & cm & total & Hst & _ & _ & _ & _ & _ & _ & _ & ->).
    cbn. rewrite Hst. repeat split; try congruence. eexists. split; [reflexivity|congruence].
  - apply closeCampaign_Ok in Hc as (S & t & Hst & _ & _ & _ & _ & -> & _).
    cbn. rewrite Hst. split; [now destruct (t <=? S)|].
    repeat split; try congruence. exists []. now rewrite app_nil_r.
  - apply settleCampaign_inv in Hs as (Hst & -> & _). cbn.
    split; [now destruct Hst as [-> | ->]|].
    repeat split. exists []. now rewrite app_nil_r.
Qed.

End FundraisingProperties.

(* ================================================================== *)
(** * Properties of the stablecoin operations *)
(* ================================================================== *)

Section StablecoinProperties.
Context {curve : Ristretto255} {platform : Platform} {format : NumberFormat}.

Lemma bind_always_throws {A B} (m : result A) (k : A -> result B) :
  (forall a, exists x, k a = Throw x) -> exists x, Js.bind m k = Throw x.
Proof. intros Hk. destruct m as [a|x]; cbn; eauto. Qed.

(** X27.  [mint], [burn] and [transfer] of the stablecoin never return a
    state: on every input each of them throws. *)
Theorem stablecoin_updates_never_return :
  (forall state authority recipient amount reason recipientKey checkAuthority,
     exists x,
       stablecoin.mint state authority recipient amount reason recipientKey checkAuthority
       = Throw x) /\
  (forall state authority holder amount reason holderKey checkAuthority,
     exists x,
       stablecoin.burn state authority holder amount reason holderKey checkAuthority
       = Throw x) /\
  (forall state from to amount memo fromKey toKey,
     exists x, stablecoin.transfer state from to amount memo fromKey toKey = Throw x).
Proof.
  split; [|split].
  - intros. unfold stablecoin.mint. cbv zeta.
    apply bind_always_throws. intros _. apply bind_always_throws. intros _.
    destruct (_ && _); eauto.
  - intros. unfold stablecoin.burn. cbv zeta.
    apply bind_always_throws. intros _.
    destruct holderKey; [|eauto]. destruct (list_find _ _); eauto.
  - intros. unfold stablecoin.transfer.
    repeat match goal with
    | |- context [match ?x with _ => _ end] => destruct x
    | |- context [if ?x then _ else _] => destruct x
    end; eauto.
Qed.

(** ** [createAsset] *)

Lemma reduceM_supply (allocs : list AssetAllocation.t) acc :
  Forall (fun a => exists z, AssetAllocation.amount a = Integral z) allocs ->
  reduceM (fun sum alloc =>
             let* a := BigInt_of_number (AssetAllocation.amount alloc) in Ok (sum + a))
          allocs acc
  = Ok (acc + initialSupply allocs).
Proof.
  intros Hall. revert acc. induction Hall as [|a allocs (z & Hz) _ IH]; intros acc.
  - cbn. f_equal. lia.
  - cbn [reduceM initialSupply foldr]. rewrite Hz. cbn [BigInt_of_number Js.bind].
    rewrite IH. f_equal. unfold initialSupply. lia.
Qed.

Lemma toLedgerAllocation_amounts (holderKeys : gmap string KeyPair.t) allocs las :
  mapM (stablecoin.toLedgerAllocation holderKeys) allocs = Ok las ->
  Forall2 (fun alloc la =>
             holderKeys !! AssetAllocation.recipient alloc = Some (MintAllocation.holder la) /\
             MintAllocation.amount la = AssetAllocation.amount alloc) allocs las.
Proof.
  intros Hm. apply mapM_Ok in Hm.
  induction Hm as [|alloc la allocs las Hla _ IH]; constructor; [|exact IH].
  unfold stablecoin.toLedgerAllocation in Hla.
  destruct (holderKeys !! AssetAllocation.recipient alloc); [|discriminate].
  injection Hla as <-. auto.
Qed.

Lemma initialSupply_totalAmount allocs las :
  Forall2 (fun alloc la => MintAllocation.amount la = AssetAllocation.amount alloc)
          allocs las ->
  totalAmount las = initialSupply allocs.
Proof.
  induction 1 as [|alloc la allocs las Ha _ IH]; [reflexivity|].
  unfold totalAmount, initialSupply, amountValue in *. cbn [foldr]. now rewrite Ha, IH.
Qed.

Lemma initialOperation_Ok (authorities : Authorities.t) index alloc w :
  exists op w',
    stablecoin.initialOperation authorities index alloc w = Ok (op, w') /\
    recordsAllocation authorities alloc op.
Proof.
  unfold stablecoin.initialOperation, stablecoin.generateOperationId,
    ibind, ofTimed, Date_now, randomSuffix, iret.
  cbn. do 2 eexists. split; [reflexivity|]. repeat split.
Qed.

Lemma imapM_initialOperation_Ok (authorities : Authorities.t) allocs index w :
  exists ops w',
    imapM (stablecoin.initialOperation authorities) index allocs w = Ok (ops, w') /\
    Forall2 (recordsAllocation authorities) allocs ops.
Proof.
  revert index w. induction allocs as [|alloc allocs IH]; intros index w.
  - exists [], w. split; [reflexivity|constructor].
  - destruct (initialOperation_Ok authorities index alloc w) as (op & w1 & Hop & Hrec).
    destruct (IH (S index) w1) as (ops & w2 & Hops & Hall).
    exists (op :: ops), w2. split; [|now constructor].
    cbn [imapM]. unfold ibind at 1. rewrite Hop. unfold ibind at 1. rewrite Hops.
    reflexivity.
Qed.

Lemma imapM_initialOperation_inv (authorities : Authorities.t) allocs index w ops w' :
  imapM (stablecoin.initialOperation authorities) index allocs w = Ok (ops, w') ->
  Forall2 (recordsAllocation authorities) allocs ops.
Proof.
  intros Hm. destruct (imapM_initialOperation_Ok authorities allocs index w)
    as (ops0 & w0 & Hm0 & Hall).
  rewrite Hm in Hm0. now injection Hm0 as -> _.
Qed.

Lemma createAsset_inv assetId assetName authorities rules allocs
    (holderKeys : gmap string KeyPair.t) w state w' :
  stablecoin.createAsset assetId assetName authorities rules allocs holderKeys w
    = Ok (state, w') ->
  exists las e' ops,
    stablecoin.checkInitialSupply rules allocs = Ok tt /\
    mapM (stablecoin.toLedgerAllocation holderKeys) allocs = Ok las /\
    mintPoC las (truthy (AssetRules.allowSelfMint rules)
                 || truthy (AssetRules.allowSelfBurn rules)) (w_entropy w)
      = Ok (AssetState.ledger state, e') /\
    Forall2 (recordsAllocation authorities) allocs ops /\
    state = {| AssetState.version := "1";
               AssetState.assetId := assetId;
               AssetState.assetName := assetName;
               AssetState.ledger := AssetState.ledger state;
               AssetState.operations := ops;
               AssetState.authorities := authorities;
               AssetState.rules := rules |}.
Proof.
  unfold stablecoin.createAsset. intros Hc.
  apply ibind_Ok in Hc as ([] & w1 & Hcap & Hc). apply ofResult_Ok in Hcap as [Hcap ->].
  apply ibind_Ok in Hc as (las & w1 & Hlas & Hc). apply ofResult_Ok in Hlas as [Hlas ->].
  apply ibind_Ok in Hc as (ledger & w1 & Hmint & Hc).
  apply ofRand_Ok in Hmint as (e' & Hmint & ->).
  apply ibind_Ok in Hc as (ops & w2 & Hops & Hc). apply iret_Ok in Hc as [-> ->].
  exists las, e', ops. cbn [AssetState.ledger].
  split; [exact Hcap|]. split; [exact Hlas|]. split; [exact Hmint|].
  split; [eapply imapM_initialOperation_inv, Hops|reflexivity].
Qed.

(** X28.  [createAsset] on integer amounts.  With a cap that the sum of the
    amounts exceeds it throws the cap error and mints nothing.  Within the
    cap, every recipient having a key pair and the allocations being valid
    for the ledger, it returns a state whose ledger is the ledger [mintPoC]
    mints for them, whose supply is the sum of the amounts, with one holder
    and one confirmed mint operation per allocation, in order, and the
    rules and authorities given.  At the first recipient without a key pair
    it throws, naming the recipient. *)
Theorem createAsset_mints assetId assetName authorities rules
    (allocs : list AssetAllocation.t) (holderKeys : gmap string KeyPair.t) (w : World) :
  let capped :=
    truthy (AssetRules.cappedSupply rules) && truthyString (AssetRules.maxSupply rules) in
  let selfUpdate :=
    truthy (AssetRules.allowSelfMint rules) || truthy (AssetRules.allowSelfBurn rules) in
  Forall (fun a => exists z, AssetAllocation.amount a = Integral z) allocs ->
  (forall m, capped = true ->
     BigInt (default EmptyString (AssetRules.maxSupply rules)) = Ok m ->
     m < initialSupply allocs ->
     stablecoin.createAsset assetId assetName authorities rules allocs holderKeys w
     = Throw (Error ("Initial allocations total (" ++ toString10 (initialSupply allocs)
                     ++ ") would exceed max supply of " ++ toString10 m))) /\
  (forall las,
     (capped = true ->
      exists m, BigInt (default EmptyString (AssetRules.maxSupply rules)) = Ok m /\
                initialSupply allocs <= m) ->
     mapM (stablecoin.toLedgerAllocation holderKeys) allocs = Ok las ->
     Forall validAllocation las ->
     exists state w' e',
       stablecoin.createAsset assetId assetName authorities rules allocs holderKeys w
         = Ok (state, w') /\
       mintPoC las selfUpdate (w_entropy w) = Ok (AssetState.ledger state, e') /\
       stablecoin.getTotalSupply state = Ok (initialSupply allocs) /\
       stablecoin.getHolderCount state = length allocs /\
       Forall2 (recordsAllocation authorities) allocs (AssetState.operations state) /\
       AssetState.rules state = rules /\
       AssetState.authorities state = authorities /\
       exists summary,
         stablecoin.getPublicSummary state = Ok summary /\
         AssetPublicSummary.holderCount summary = length allocs /\
         AssetPublicSummary.operationCount summary = length allocs /\
         AssetPublicSummary.totalSupply summary = toString10 (initialSupply allocs)) /\
  (forall pre a post,
     (capped = true ->
      exists m, BigInt (default EmptyString (AssetRules.maxSupply rules)) = Ok m /\
                initialSupply allocs <= m) ->
     allocs = pre ++ a :: post ->
     Forall (fun a => is_Some (holderKeys !! AssetAllocation.recipient a)) pre ->
     holderKeys !! AssetAllocation.recipient a = None ->
     stablecoin.createAsset assetId assetName authorities rules allocs holderKeys w
     = Throw (Error ("No KeyPair found for recipient " ++ dq
                     ++ AssetAllocation.recipient a ++ dq
                     ++ ". Create the identity first."))).
Proof.
  cbv zeta. intros Hint.
  assert (Hcheck : (truthy (AssetRules.cappedSupply rules)
                    && truthyString (AssetRules.maxSupply rules) = true ->
                    exists m, BigInt (default EmptyString (AssetRules.maxSupply rules)) = Ok m /\
                              initialSupply allocs <= m) ->
                   stablecoin.checkInitialSupply rules allocs = Ok tt).
  { intros Hcap. unfold stablecoin.checkInitialSupply.
    destruct (truthy _ && truthyString _); [|reflexivity].
    destruct (Hcap eq_refl) as (m & Hm & Hle).
    rewrite (reduceM_supply allocs 0 Hint). cbn [Js.bind]. rewrite Hm. cbn [Js.bind].
    rewrite Z.add_0_l. destruct (Z.ltb_spec m (initialSupply allocs)); [lia|reflexivity]. }
  split; [|split].
  - intros m Hcap Hm Hlt.
    unfold stablecoin.createAsset, ibind, ofResult, stablecoin.checkInitialSupply.
    rewrite Hcap, (reduceM_supply allocs 0 Hint). cbn [Js.bind]. rewrite Hm. cbn [Js.bind].
    rewrite Z.add_0_l. destruct (Z.ltb_spec m (initialSupply allocs)); [reflexivity|lia].
  - intros las Hcap Hlas Hvalid. specialize (Hcheck Hcap).
    set (flag := truthy (AssetRules.allowSelfMint rules)
                 || truthy (AssetRules.allowSelfBurn rules)).
    destruct (mintPoC_Ok las flag (w_entropy w) Hvalid)
      as (l & e' & Rsum & Hmint & _ & Hopen & HT & _).
    set (w1 := {| w_entropy := e'; w_clock := w_clock w;
                  w_suffixes := w_suffixes w; w_drawn := w_drawn w |}).
    destruct (imapM_initialOperation_Ok authorities allocs 0 w1) as (ops & w2 & Hops & Hall).
    pose proof (toLedgerAllocation_amounts _ _ _ Hlas) as Ham.
    assert (Hsum : totalAmount las = initialSupply allocs).
    { apply initialSupply_totalAmount. eapply Forall2_impl; [exact Ham|]. now intros ? ? [_ ?]. }
    eexists. exists w2, e'. split.
    { unfold stablecoin.createAsset. unfold ibind at 1. unfold ofResult at 1. rewrite Hcheck.
      unfold ibind at 1. unfold ofResult at 1. rewrite Hlas.
      unfold ibind at 1. unfold ofRand at 1. fold flag. rewrite Hmint. fold w1.
      unfold ibind at 1. rewrite Hops. reflexivity. }
    cbn [AssetState.ledger AssetState.operations AssetState.rules AssetState.authorities].
    split; [exact Hmint|]. split.
    { unfold stablecoin.getTotalSupply. cbn [AssetState.ledger].
      unfold decToBig in HT. now rewrite HT, Hsum. }
    split.
    { unfold stablecoin.getHolderCount. cbn [AssetState.ledger].
      rewrite <- (Forall2_length _ _ _ Hopen). symmetry. eapply Forall2_length, Ham. }
    split; [exact Hall|]. split; [reflexivity|]. split; [reflexivity|].
    destruct (verifyTotal_Ok l) as (b & Hb).
    eexists. split.
    { unfold stablecoin.getPublicSummary, stablecoin.getTotalSupply.
      cbn [AssetState.ledger]. rewrite Hb. cbn [Js.bind].
      unfold decToBig in HT. rewrite HT. cbn [Js.bind]. reflexivity. }
    cbn. unfold stablecoin.getHolderCount. cbn [AssetState.ledger].
    rewrite <- (Forall2_length _ _ _ Hopen), <- (Forall2_length _ _ _ Ham), Hsum.
    rewrite (Forall2_length _ _ _ Hall). auto.
  - intros pre a post Hcap -> Hpre Hnone. specialize (Hcheck Hcap).
    unfold stablecoin.createAsset. unfold ibind at 1. unfold ofResult at 1. rewrite Hcheck.
    unfold ibind at 1. unfold ofResult at 1.
    assert (Hthrow : mapM (stablecoin.toLedgerAllocation holderKeys) (pre ++ a :: post)
                     = Throw (Error ("No KeyPair found for recipient " ++ dq
                                     ++ AssetAllocation.recipient a ++ dq
                                     ++ ". Create the identity first."))).
    { clear Hcheck Hcap Hint. induction Hpre as [|p pre [k Hk] _ IH].
      - cbn. unfold stablecoin.toLedgerAllocation at 1. now rewrite Hnone.
      - cbn [app mapM]. unfold stablecoin.toLedgerAllocation at 1. rewrite Hk.
        cbn [Js.bind]. now rewrite IH. }
    now rewrite Hthrow.
Qed.

(** ** [verifyAssetState] *)

Lemma duplicateErrors_nil (ops : list Operation.t) (seen : gset string) :
  stablecoin.duplicateErrors ops seen = [] <->
  NoDup (Operation.id <$> ops) /\ Forall (fun op => Operation.id op ∉ seen) ops.
Proof.
  revert seen. induction ops as [|op ops IH]; intros seen.
  - cbn. split; [intros _; split; constructor|reflexivity].
  - cbn [stablecoin.duplicateErrors fmap list_fmap]. split.
    + intros Hnil. apply app_eq_nil in Hnil as [Hop Hrest].
      case_bool_decide as Hin; [discriminate|].
      apply IH in Hrest as [Hnd Hall]. split.
      * constructor; [|exact Hnd]. intros Hmem.
        apply list_elem_of_fmap in Hmem as (op' & Hid & Hop').
        rewrite Forall_forall in Hall. apply (Hall op' Hop').
        apply elem_of_union_l, elem_of_singleton. now symmetry.
      * constructor; [exact Hin|]. eapply Forall_impl; [exact Hall|].
        intros x Hx Hs. apply Hx, elem_of_union_r, Hs.
    + intros [Hnd Hall]. apply NoDup_cons in Hnd as [Hnotin Hnd].
      apply Forall_cons in Hall as [Hin Hall].
      rewrite bool_decide_eq_false_2 by assumption. cbn [app].
      apply IH. split; [exact Hnd|].
      apply Forall_forall. intros op' Hop'. rewrite Forall_forall in Hall.
      specialize (Hall op' Hop').
      assert (Operation.id op' <> Operation.id op).
      { intros Heq. apply Hnotin. rewrite <- Heq. apply list_elem_of_fmap. eauto. }
      intros [Hl|Hr]%elem_of_union; [|contradiction].
      apply elem_of_singleton in Hl. contradiction.
Qed.

(** X29.  [verifyAssetState] returns on every state without an effective cap;
    when it returns, [valid] is [true] exactly when no error is listed, and
    exactly when [verifyTotal] accepts the ledger, the operation ids are
    pairwise distinct and, with a cap set, the total supply reads as an
    integer within the cap. *)
Theorem verifyAssetState_valid (state : AssetState.t) :
  let capped :=
    truthy (AssetRules.cappedSupply (AssetState.rules state))
    && truthyString (AssetRules.maxSupply (AssetState.rules state)) in
  (capped = false -> exists r, stablecoin.verifyAssetState state = Ok r) /\
  (forall valid errors, stablecoin.verifyAssetState state = Ok (valid, errors) ->
     (valid = true <-> errors = []) /\
     (valid = true <->
        verifyTotal (AssetState.ledger state) = Ok true /\
        NoDup (Operation.id <$> AssetState.operations state) /\
        (capped = true ->
         exists T m,
           stablecoin.getTotalSupply state = Ok T /\
           BigInt (default EmptyString (AssetRules.maxSupply (AssetState.rules state)))
             = Ok m /\
           T <= m))).
Proof.
  cbv zeta. unfold stablecoin.verifyAssetState. cbv zeta.
  destruct (verifyTotal_Ok (AssetState.ledger state)) as (b & Hb). rewrite Hb. cbn [Js.bind].
  assert (Hcount : (Z.of_nat (stablecoin.getHolderCount state) <? 0) = false)
    by (apply Z.ltb_ge; lia).
  rewrite Hcount. cbn [app].
  split.
  - intros ->. cbn. eauto.
  - intros valid errors Hv.
    apply bind_Ok in Hv as (errors2 & He2 & [= <- <-]).
    assert (Hlen : forall xs : list string, bool_decide (length xs = 0%nat) = true <-> xs = []).
    { intros xs. rewrite bool_decide_eq_true. destruct xs; cbn; split; congruence. }
    split; [apply Hlen|]. rewrite Hlen. split.
    + intros Hnil. apply app_eq_nil in Hnil as [H1 Hnil].
      apply app_eq_nil in Hnil as [H2 H4]. subst errors2.
      apply duplicateErrors_nil in H4 as [Hnd _].
      split; [destruct b; [reflexivity|discriminate]|]. split; [exact Hnd|].
      intros Hcap. rewrite Hcap in He2.
      apply bind_Ok in He2 as (T & HT & He2). apply bind_Ok in He2 as (m & Hm & He2).
      exists T, m. split; [exact HT|]. split; [exact Hm|].
      destruct (Z.ltb_spec m T); [discriminate|lia].
    + intros ([= ->] & Hnd & Hcap). cbn [negb app].
      assert (errors2 = []) as ->.
      { destruct (truthy _ && truthyString _); [|now injection He2].
        destruct (Hcap eq_refl) as (T & m & HT & Hm & Hle).
        rewrite HT, Hm in He2. cbn in He2.
        destruct (Z.ltb_spec m T); [lia|now injection He2]. }
      cbn [app]. apply duplicateErrors_nil. split; [exact Hnd|].
      apply Forall_forall. intros op _. apply not_elem_of_empty.
Qed.

(** ** The wallet of a created asset *)

(** X30.  The wallet of a created asset: for each initial allocation with
    distinct recipients' ids, [getWalletView] with the recipient's key pair
    shows the allocated amount as a valid balance; [canMint] and [canBurn]
    agree with [hasMintAuthority] and [hasBurnAuthority]; the operations
    are those of [getUserOperations]; the public supply is the sum of the
    amounts when the ledger verifies and [null] when it does not. *)
Theorem created_asset_wallet assetId assetName authorities rules
    (allocs : list AssetAllocation.t) (holderKeys : gmap string KeyPair.t) (w w' : World)
    (state : AssetState.t) las i la :
  stablecoin.createAsset assetId assetName authorities rules allocs holderKeys w
    = Ok (state, w') ->
  mapM (stablecoin.toLedgerAllocation holderKeys) allocs = Ok las ->
  Forall validAllocation las ->
  NoDup (holderIds las) ->
  las !! i = Some la ->
  exists view,
    stablecoin.getWalletView state (MintAllocation.holder la) = Ok view /\
    WalletView.myBalance view = Some (amountValue la) /\
    WalletView.myBalanceValid view = true /\
    WalletView.canMint view
      = stablecoin.hasMintAuthority state (KeyPair.id (MintAllocation.holder la)) /\
    WalletView.canBurn view
      = stablecoin.hasBurnAuthority state (KeyPair.id (MintAllocation.holder la)) /\
    WalletView.myOperations view
      = stablecoin.getUserOperations state (KeyPair.id (MintAllocation.holder la)) /\
    (verifyTotal (AssetState.ledger state) = Ok true ->
     WalletView.publicTotalSupply view = Some (initialSupply allocs)) /\
    (verifyTotal (AssetState.ledger state) = Ok false ->
     WalletView.publicTotalSupply view = None).
Proof.
  intros Hc Hlas Hvalid Hnd Hi.
  apply createAsset_inv in Hc as (las' & e' & ops & _ & Hlas' & Hmint & _ & Hstate).
  rewrite Hlas in Hlas'. injection Hlas' as <-.
  destruct (mintPoC_view las _ _ _ _ i la Hvalid Hnd Hmint Hi)
    as (view & Hview & Hbal & Hval & _ & _ & Hsome & Hnone).
  pose proof (toLedgerAllocation_amounts _ _ _ Hlas) as Ham.
  assert (Hsum : totalAmount las = initialSupply allocs).
  { apply initialSupply_totalAmount. eapply Forall2_impl; [exact Ham|]. now intros ? ? [_ ?]. }
  eexists. split.
  { unfold stablecoin.getWalletView. rewrite Hview. cbn [Js.bind]. reflexivity. }
  cbn. rewrite <- Hsum. auto 10.
Qed.

End StablecoinProperties.

(* ================================================================== *)
(** * The small implementation satisfies the contracts *)
(* ================================================================== *)

Module ToyImpl.

Lemma toy_L_pos : 0 < L.
Proof. reflexivity. Qed.

#[global] Instance toy_Point_eq_dec : EqDecision Toy.Point.
Proof.
  intros x y. destruct (Z.eq_dec (Zmod.to_Z x) (Zmod.to_Z y)) as [e|n].
  - left. exact (Zmod.unsigned_inj _ _ _ e).
  - right. intros ->. exact (n eq_refl).
Defined.

Lemma toy_byteToZ_range b : 0 <= Toy.byteToZ b < 256.
Proof. unfold Toy.byteToZ. pose proof (Byte.to_N_bounded b). lia. Qed.

Lemma toy_byteToZ_byteOfZ z : Toy.byteToZ (Toy.byteOfZ z) = z mod 256.
Proof.
  unfold Toy.byteToZ, Toy.byteOfZ.
  assert (Hr : 0 <= z mod 256 < 256) by (apply Z.mod_pos_bound; lia).
  destruct (Byte.of_N (Z.to_N (z mod 256))) as [b|] eqn:E.
  - simpl. apply Byte.to_of_N in E. rewrite E. lia.
  - apply Byte.of_N_None_iff in E. lia.
Qed.

Lemma toy_decodeLE_encodeLE n z : Toy.decodeLE (Toy.encodeLE n z) = z mod 256 ^ Z.of_nat n.
Proof.
  revert z. induction n as [|n IH]; intros z.
  - simpl. now rewrite Z.mod_1_r.
  - cbn [Toy.encodeLE Toy.decodeLE foldr]. fold (Toy.decodeLE (Toy.encodeLE n (z / 256))).
    rewrite IH, toy_byteToZ_byteOfZ, Nat2Z.inj_succ, Z.pow_succ_r by lia.
    rewrite Z.rem_mul_r by lia. lia.
Qed.

Lemma toy_length_encodeLE n z : length (Toy.encodeLE n z) = n.
Proof. revert z. induction n; intros; simpl; auto. Qed.

Lemma toy_fromBytes_toBytes P : Toy.fromBytes (Toy.toBytes P) = Ok P.
Proof.
  unfold Toy.fromBytes, Toy.toBytes.
  pose proof (Zmod.unsigned_pos_bound P toy_L_pos) as Hb.
  rewrite toy_length_encodeLE, toy_decodeLE_encodeLE.
  assert (HL : L < 256 ^ Z.of_nat 32) by reflexivity.
  rewrite Z.mod_small by lia.
  rewrite bool_decide_eq_true_2 by reflexivity.
  destruct (Z.ltb_spec (Zmod.to_Z P) L); [|lia]. simpl.
  now rewrite Zmod.of_Z_unsigned.
Qed.

Lemma toy_smul_0 P : Toy.smul 0 P = Toy.ZERO.
Proof. apply Zmod.unsigned_inj. unfold Toy.smul, Toy.ZERO. rewrite Zmod.unsigned_mul, Zmod.unsigned_of_Z. reflexivity. Qed.

Lemma toy_smul_1 P : Toy.smul 1 P = P.
Proof. unfold Toy.smul. rewrite Zmod.of_Z_1. apply Zmod.mul_1_l. Qed.

Lemma toy_smul_add a b P : Toy.smul (a + b) P = Toy.padd (Toy.smul a P) (Toy.smul b P).
Proof. unfold Toy.smul, Toy.padd. rewrite Zmod.of_Z_add. apply Zmod.mul_add_l. Qed.

Lemma toy_smul_L P : Toy.smul L P = Toy.ZERO.
Proof.
  apply Zmod.unsigned_inj. unfold Toy.smul, Toy.ZERO.
  rewrite Zmod.unsigned_mul, Zmod.unsigned_of_Z, Z.mod_same by (pose proof toy_L_pos; lia).
  reflexivity.
Qed.

Lemma toy_BASE_order k : Toy.smul k Toy.BASE = Toy.ZERO -> k mod L = 0.
Proof.
  intros E. apply (f_equal Zmod.to_Z) in E. unfold Toy.smul, Toy.BASE, Toy.ZERO in E.
  rewrite Zmod.unsigned_mul, !Zmod.unsigned_of_Z, Zmod.unsigned_0 in E.
  rewrite (Z.mod_small 1 L) in E by (split; [lia|reflexivity]).
  rewrite Z.mul_1_r, Z.mod_mod in E by (pose proof toy_L_pos; lia). exact E.
Qed.

Lemma toy_H_order k : Toy.smul k (Toy.hashToCurve (text "conf-ledger:H:v1")) = Toy.ZERO -> k mod L = 0.
Proof.
  intros E. apply (f_equal Zmod.to_Z) in E. unfold Toy.smul, Toy.hashToCurve, Toy.ZERO in E.
  rewrite Zmod.unsigned_mul, !Zmod.unsigned_of_Z, Zmod.unsigned_0 in E.
  rewrite (Z.mod_small 2 L) in E by (split; [lia|reflexivity]).
  pose proof toy_L_pos as HL.
  pose proof (Z.mod_pos_bound k L HL) as Hk.
  apply Z.mod_divide in E; [|lia].
  rewrite Z.mul_comm in E. apply Z.gauss in E; [|reflexivity].
  destruct E as [q Hq]. assert (q = 0) by nia. lia.
Qed.

#[global, refine] Instance curve : Ristretto255 := {|
  Point := Toy.Point;
  Point_eq_dec := toy_Point_eq_dec;
  ZERO := Toy.ZERO;
  BASE := Toy.BASE;
  hashToCurve := Toy.hashToCurve;
  padd := Toy.padd;
  smul := Toy.smul;
  Point_toBytes := Toy.toBytes;
  Point_fromBytes := Toy.fromBytes;
|}.
Proof.
  - intros; apply Zmod.add_assoc.
  - intros; apply Zmod.add_comm.
  - intros; apply Zmod.add_0_l.
  - exact toy_smul_0.
  - exact toy_smul_1.
  - exact toy_smul_add.
  - exact toy_smul_L.
  - exact toy_BASE_order.
  - exact toy_H_order.
  - exact toy_fromBytes_toBytes.
Defined.

Lemma toy_addBytes_comm a b : Toy.addBytes a b = Toy.addBytes b a.
Proof. unfold Toy.addBytes. now rewrite Z.add_comm. Qed.

Lemma toy_zip_addBytes_comm (a b : bytes) : zip_with Toy.addBytes a b = zip_with Toy.addBytes b a.
Proof.
  revert b. induction a as [|x a IH]; intros [|y b]; simpl; auto.
  now rewrite IH, toy_addBytes_comm.
Qed.

Lemma toy_agreement (a b : bytes) :
  length a = 32%nat -> length b = 32%nat ->
  exists s, Toy.getSharedSecret a (Toy.getPublicKey b) = Ok s /\
            Toy.getSharedSecret b (Toy.getPublicKey a) = Ok s.
Proof.
  intros Ha Hb. exists (zip_with Toy.addBytes a b). unfold Toy.getSharedSecret, Toy.getPublicKey.
  rewrite !bool_decide_eq_true_2 by assumption. simpl.
  split; [reflexivity|]. now rewrite toy_zip_addBytes_comm.
Qed.

Lemma toy_hkdf_length (ikm salt info : bytes) n : length (Toy.hkdf ikm salt info n) = n.
Proof.
  unfold Toy.hkdf. rewrite length_take, length_app, length_replicate. lia.
Qed.

Lemma toy_encrypt_ok (key iv pt : bytes) :
  length key = 32%nat -> length iv = 12%nat -> exists ct, Toy.encrypt key iv pt = Ok ct.
Proof.
  intros Hk _. unfold Toy.encrypt. rewrite bool_decide_eq_true_2 by assumption. eauto.
Qed.

Lemma toy_decrypt_encrypt (key iv pt ct : bytes) :
  Toy.encrypt key iv pt = Ok ct -> Toy.decrypt key iv ct = Ok pt.
Proof.
  unfold Toy.encrypt, Toy.decrypt. case_bool_decide as Hk; [|discriminate].
  intros [= <-]. rewrite (assoc_L (++)).
  rewrite take_app_length, drop_app_length, bool_decide_eq_true_2 by reflexivity.
  reflexivity.
Qed.

Lemma toy_readUnary_unary n r : Toy.readUnary (Toy.unary n ++ r) = Some (n, r).
Proof. induction n as [|n IH]; simpl; [reflexivity|]. now rewrite IH. Qed.

Lemma toy_splitAt_app a b : Toy.splitAt (String.length a) (a ++ b) = (a, b).
Proof.
  induction a as [|c a IH]; simpl.
  - now destruct b.
  - now rewrite IH.
Qed.

Lemma toy_parse_stringify sv sr :
  Toy.parse_vr (text (Toy.stringify_vr sv sr)) = Ok (JsString sv, JsString sr).
Proof.
  unfold Toy.parse_vr, text, Toy.stringify_vr.
  rewrite string_of_list_byte_of_string, toy_readUnary_unary, toy_splitAt_app. reflexivity.
Qed.

#[global, refine] Instance platform : Platform := {|
  x25519_getPublicKey := Toy.getPublicKey;
  x25519_getSharedSecret := Toy.getSharedSecret;
  ed25519_getPublicKey := Toy.getPublicKey;
  hkdf_sha256 := Toy.hkdf;
  aes_gcm_encrypt := Toy.encrypt;
  aes_gcm_decrypt := Toy.decrypt;
  btoa := Toy.btoa;
  atob := Toy.atob;
  JSON_stringify_vr := Toy.stringify_vr;
  JSON_parse_vr := Toy.parse_vr;
|}.
Proof.
  - intros sk Hsk. exact Hsk.
  - exact toy_agreement.
  - exact toy_hkdf_length.
  - exact toy_encrypt_ok.
  - exact toy_decrypt_encrypt.
  - reflexivity.
  - exact toy_parse_stringify.
Defined.

(** ** The text of a pledge opening and of a number *)

Lemma toy_decode_encode_pledgeOpening amount r :
  ToyText.decodePledgeOpening (ToyText.encodePledgeOpening amount r) = Ok (JsString amount, r).
Proof.
  unfold ToyText.decodePledgeOpening, ToyText.encodePledgeOpening.
  rewrite toy_readUnary_unary, toy_splitAt_app.
  now rewrite list_byte_of_string_of_list_byte.
Qed.

#[global] Instance codec : PledgeCodec := {|
  encodePledgeOpening := ToyText.encodePledgeOpening;
  decodePledgeOpening := ToyText.decodePledgeOpening;
  decode_encode_pledgeOpening := toy_decode_encode_pledgeOpening;
|}.

#[global] Instance format : NumberFormat := {|
  Number_toString := ToyText.Number_toString;
|}.

End ToyImpl.

(* ================================================================== *)
(** * A run: alice, bob and carol *)
(* ================================================================== *)

Module Scenario.

Definition keyPair (id : string) (b : byte) : KeyPair.t :=
  let keys := {| KeyPair.publicKey := replicate 32 b; KeyPair.secretKey := replicate 32 b |} in
  {| KeyPair.id := id; KeyPair.ed25519 := keys; KeyPair.x25519 := keys |}.

Definition alice : KeyPair.t := keyPair "alice" x01.
Definition bob : KeyPair.t := keyPair "bob" x02.
Definition carol : KeyPair.t := keyPair "carol" x03.

Definition allocate (k : KeyPair.t) (z : Z) : MintAllocation.t :=
  {| MintAllocation.holder := k; MintAllocation.amount := Integral z |}.

Definition allocations : list MintAllocation.t :=
  [allocate alice 100; allocate bob 200; allocate carol 300].

Definition emptyLedger : LedgerState.t :=
  {| LedgerState.version := "1"; LedgerState.entries := [];
     LedgerState.total := {| LedgerTotal.T := "0"; LedgerTotal.R := "0";
                             LedgerTotal.commitSum := "" |};
     LedgerState.allowSelfUpdate := false |}.

Definition option_of {A} (m : result A) : option A :=
  match m with Ok a => Some a | Throw _ => None end.

(** The ledger value of a run that returns. *)
Definition ledgerOf (m : Rand LedgerState.t) (e : Entropy) : LedgerState.t :=
  match m e with Ok (l, _) => l | Throw _ => emptyLedger end.

(** [mintPoC([alice: 100, bob: 200, carol: 300], true)] *)
Definition ledger : LedgerState.t :=
  Eval vm_compute in ledgerOf (mintPoC allocations true) Toy.entropy.

Definition noEntry : LedgerEntry.t :=
  {| LedgerEntry.holderId := ""; LedgerEntry.commit := "";
     LedgerEntry.openingEncrypted := "" |}.

(** Alice's entry in [ledger], and the blinding of her commitment. *)
Definition aliceEntry : LedgerEntry.t :=
  Eval vm_compute in hd noEntry (LedgerState.entries ledger).

Definition aliceBlinding : Z :=
  Eval vm_compute in
    match decryptOpening (KeyPair.secretKey (KeyPair.x25519 alice))
            (LedgerEntry.openingEncrypted aliceEntry) with
    | Ok (_, r) => r
    | Throw _ => 0
    end.

Definition bobEntry : LedgerEntry.t :=
  Eval vm_compute in nth 1 (LedgerState.entries ledger) noEntry.

(** Where the tape stands after the mint: three entries, each drawing a
    blinding (32 bytes), an ephemeral key (32) and a nonce (12). *)
Definition entropyAfterMint : Entropy :=
  {| tape := tape Toy.entropy; pos := 228 |}.

Definition dave : KeyPair.t := keyPair "dave" x04.

(** Alice's id with keys that are not hers. *)
Definition mallory : KeyPair.t := keyPair "alice" x09.

(** [ledger] with self-update switched off. *)
Definition lockedLedger : LedgerState.t :=
  {| LedgerState.version := LedgerState.version ledger;
     LedgerState.entries := LedgerState.entries ledger;
     LedgerState.total := LedgerState.total ledger;
     LedgerState.allowSelfUpdate := false |}.

(** A ledger in which nothing decodes. *)
Definition garbageLedger : LedgerState.t :=
  {| LedgerState.version := "1";
     LedgerState.entries :=
       [ {| LedgerEntry.holderId := "alice"; LedgerEntry.commit := "zz";
            LedgerEntry.openingEncrypted := "!!" |} ];
     LedgerState.total :=
       {| LedgerTotal.T := "six hundred"; LedgerTotal.R := "1e3";
          LedgerTotal.commitSum := "0g" |};
     LedgerState.allowSelfUpdate := true |}.

(** Letters [a]-[f] in upper case. *)
Fixpoint upperHex (s : string) : string :=
  match s with
  | EmptyString => EmptyString
  | String c s' =>
      let n := code c in
      String (if (97 <=? n) && (n <=? 102) then ascii_of_N (Z.to_N (n - 32)) else c)
             (upperHex s')
  end.



(** A heap holding the array of entries of [ledger] at address 1. *)
Definition heap : Heap := {[ 1%positive := LedgerState.entries ledger ]}.

Definition ledgerObj : LedgerObj :=
  {| o_version := LedgerState.version ledger;
     o_entries := 1%positive;
     o_total := LedgerState.total ledger;
     o_allowSelfUpdate := LedgerState.allowSelfUpdate ledger |}.

Lemma allocations_valid : Forall validAllocation allocations.
Proof.
  repeat constructor; try (eexists; split; [reflexivity|split; [lia|reflexivity]]).
Qed.

Lemma ledger_minted : exists e', mintPoC allocations true Toy.entropy = Ok (ledger, e').
Proof. eexists. vm_compute. reflexivity. Qed.

Lemma ledger_verifies : verifyTotal ledger = Ok true.
Proof. vm_compute. reflexivity. Qed.


(** X1, run: a single allocation of 0, whose total parses to 0. *)
Lemma zero_total_never_verifies_witness :
  verifyTotal (ledgerOf (mintPoC [allocate alice 0] false) Toy.entropy) = Ok false.
Proof.
  apply (zero_total_never_verifies
           (ledgerOf (mintPoC [allocate alice 0] false) Toy.entropy)).
  left. vm_compute. reflexivity.
Defined.


(** The zero case: a single allocation of 0 gives total ["0"], which
    [verifyTotal] rejects. *)
Lemma mintPoC_zero_total_rejected :
  exists l e',
    mintPoC [allocate alice 0] false Toy.entropy = Ok (l, e') /\
    LedgerTotal.T (LedgerState.total l) = "0" /\
    verifyTotal l = Ok false.
Proof.
  do 2 eexists. split; [vm_compute; reflexivity|].
  split; [vm_compute; reflexivity|]. vm_compute. reflexivity.
Qed.

(** C2, run: total 600 replaced by 601. *)
Lemma tamper_detected_witness :
  verifyTotal (tamperT ledger "601") = Ok false /\
  forall me : KeyPair.t,
    exists view, getUserView (tamperT ledger "601") me = Ok view /\
                 UserView.publicTotal view = None.
Proof.
  apply (tamper_detected ledger (tamperT ledger "601")).
  - vm_compute. reflexivity.
  - apply tampered_T. vm_compute. discriminate.
Defined.

(** C2 as stated fails: ["0600"] is a different value of [total.T] and the
    ledger still verifies; every view still shows the total. *)
Lemma tamper_same_number_accepted :
  verifyTotal ledger = Ok true /\
  LedgerTotal.T (LedgerState.total ledger) <> "0600" /\
  verifyTotal (tamperT ledger "0600") = Ok true /\
  UserView.publicTotal <$> option_of (getUserView (tamperT ledger "0600") alice)
    = Some (Some 600).
Proof. repeat split; try (vm_compute; reflexivity). vm_compute. discriminate. Qed.

(** C5, run: an opening sent to alice comes back. *)
Lemma opening_round_trip_witness :
  exists blob e',
    encryptOpening (KeyPair.publicKey (KeyPair.x25519 alice)) 100 7 Toy.entropy
      = Ok (blob, e') /\
    decryptOpening (KeyPair.secretKey (KeyPair.x25519 alice)) blob = Ok (100, 7).
Proof.
  apply (opening_round_trip (KeyPair.x25519 alice) 100 7 Toy.entropy).
  split; reflexivity.
Defined.



(** C4, run. *)
Lemma commitment_homomorphism_witness :
  (exists C1 C2,
     commit 100 5 = Ok C1 /\ commit 200 7 = Ok C2 /\
     commit (100 + 200) (modL (5 + 7)) = Ok (padd C1 C2)) /\
  (exists c1 c2 c3,
     pedersen (-100) [x05] = Ok c1 /\ pedersen (L + 200) [x07] = Ok c2 /\
     pedersen (-100 + (L + 200)) [x0c] = Ok c3 /\ ristrettoAdd c1 c2 = Ok c3).
Proof.
  split.
  - apply (proj1 commitment_homomorphism 100 200 5 7); vm_compute;
      try split; discriminate || reflexivity.
  - apply (proj2 commitment_homomorphism (-100) (L + 200) [x05] [x07] [x0c]);
      try discriminate. vm_compute. reflexivity.
Defined.

(** C4 as stated fails: both commitments exist and the commitment to the
    sum does not; nor does a commitment to a negative value. *)
Lemma commit_sum_out_of_range :
  (exists C1, commit (L - 1) 1 = Ok C1) /\
  commit (L - 1 + (L - 1)) (modL (1 + 1)) = Throw CurveError /\
  commit (-1) 1 = Throw CurveError.
Proof.
  split; [eexists; vm_compute; reflexivity|]. split; vm_compute; reflexivity.
Qed.

(** C6, run: the three errors and a successful update. *)
Lemma updateOwnEntry_errors_witness :
  updateOwnEntry lockedLedger dave (Integral 150) Toy.entropy = Throw PermissionDenied /\
  updateOwnEntry ledger dave (Integral 150) Toy.entropy = Throw NotFound /\
  updateOwnEntry ledger mallory (Integral 150) Toy.entropy = Throw DecryptionFailure /\
  exists l' e', updateOwnEntry ledger alice (Integral 150) Toy.entropy = Ok (l', e').
Proof.
  split; [|split; [|split]].
  - apply (proj1 (updateOwnEntry_errors lockedLedger dave (Integral 150) Toy.entropy)).
    reflexivity.
  - apply (proj1 (proj2 (updateOwnEntry_errors ledger dave (Integral 150) Toy.entropy))).
    + reflexivity.
    + repeat constructor; vm_compute; discriminate.
  - apply (proj1 (proj2 (proj2
      (updateOwnEntry_errors ledger mallory (Integral 150) Toy.entropy)))
      0%nat aliceEntry CryptoError).
    + reflexivity.
    + vm_compute. reflexivity.
    + vm_compute. reflexivity.
  - apply (proj2 (proj2 (proj2
      (updateOwnEntry_errors ledger alice (Integral 150) Toy.entropy)))
      0%nat aliceEntry 100 aliceBlinding 150 600
      2496474772858741392062836756862091108011440224269620993645122096560939943065).
    + reflexivity.
    + vm_compute. reflexivity.
    + vm_compute. reflexivity.
    + reflexivity.
    + vm_compute. split; [discriminate|reflexivity].
    + split; reflexivity.
    + vm_compute. reflexivity.
    + vm_compute. reflexivity.
    + intros j en' Hj Hen'.
      destruct j as [|[|[|j]]]; [congruence| | |discriminate Hen'];
        vm_compute in Hen'; injection Hen' as <-; eexists; vm_compute; reflexivity.
Defined.

(** C6 as stated fails: past the three checks the call can still throw, on
    a negative amount and on a fractional one. *)
Lemma updateOwnEntry_other_throws :
  LedgerState.allowSelfUpdate ledger = true /\
  list_find (isHolder (KeyPair.id alice)) (LedgerState.entries ledger)
    = Some (0%nat, aliceEntry) /\
  decryptOpening (KeyPair.secretKey (KeyPair.x25519 alice))
                 (LedgerEntry.openingEncrypted aliceEntry) = Ok (100, aliceBlinding) /\
  updateOwnEntry ledger alice (Integral (-1)) Toy.entropy = Throw CurveError /\
  updateOwnEntry ledger alice NonIntegral Toy.entropy = Throw RangeError.
Proof. repeat split; vm_compute; reflexivity. Qed.

(** C7, run: alice's commitment replaced by bob's. *)
Lemma commitment_tamper_flags_entry_witness :
  exists view,
    getUserView (tamperCommit ledger 0 (LedgerEntry.commit bobEntry)) alice = Ok view /\
    UserView.myBalance view = Some 100 /\
    UserView.myEntryValid view = false.
Proof.
  apply (commitment_tamper_flags_entry allocations true Toy.entropy entropyAfterMint
           ledger 0 (allocate alice 100) aliceEntry (LedgerEntry.commit bobEntry)).
  - repeat constructor; try (eexists; split; [reflexivity|split; [lia|reflexivity]]).
  - apply (bool_decide_unpack _). vm_compute. exact I.
  - vm_compute. reflexivity.
  - reflexivity.
  - reflexivity.
  - vm_compute. discriminate.
Defined.

(** C7 as stated fails: the same commitment written in upper case is
    another string, and alice's entry is still flagged valid. *)
Lemma commitment_recased_accepted :
  upperHex (LedgerEntry.commit aliceEntry) <> LedgerEntry.commit aliceEntry /\
  exists view,
    getUserView (tamperCommit ledger 0 (upperHex (LedgerEntry.commit aliceEntry))) alice
      = Ok view /\
    UserView.myBalance view = Some 100 /\
    UserView.myEntryValid view = true.
Proof.
  split; [vm_compute; discriminate|].
  eexists. split; [vm_compute; reflexivity|]. split; reflexivity.
Qed.

(** C8, run: a ledger in which nothing decodes is not accepted, and alice
    sees no total, no balance and an entry that is not valid. *)
Lemma verification_never_throws_witness :
  verifyTotal garbageLedger = Ok false /\
  exists view,
    getUserView garbageLedger alice = Ok view /\
    UserView.publicTotal view = None /\
    UserView.myBalance view = None /\
    UserView.myEntryValid view = false.
Proof.
  destruct (verification_never_throws garbageLedger alice)
    as (_ & Hbad & _ & view & Hview & Hpub & Hown).
  assert (Hfalse : verifyTotal garbageLedger = Ok false).
  { apply Hbad. apply (malformed_T garbageLedger SyntaxError). reflexivity. }
  split; [exact Hfalse|].
  exists view. split; [exact Hview|]. split; [exact (Hpub Hfalse)|].
  apply (proj1 (proj2 (Hown 0%nat
                         {| LedgerEntry.holderId := "alice"; LedgerEntry.commit := "zz";
                            LedgerEntry.openingEncrypted := "!!" |} eq_refl)) CurveError).
  vm_compute. reflexivity.
Defined.

(** C9, run: the update on the heap. *)
Lemma updateOwnEntry_copy_on_write_witness :
  exists h' o' e',
    updateOwnEntry_heap heap ledgerObj alice (Integral 150) Toy.entropy
      = Ok ((h', o'), e') /\
    load h' ledgerObj = Some ledger /\
    exists l',
      load h' o' = Some l' /\
      length (LedgerState.entries l') = 3%nat /\
      LedgerState.entries l' !! 1%nat = Some bobEntry /\
      LedgerState.version l' = "1" /\
      LedgerState.allowSelfUpdate l' = true.
Proof.
  assert (Hrun : exists h' o' e',
    updateOwnEntry_heap heap ledgerObj alice (Integral 150) Toy.entropy = Ok ((h', o'), e')).
  { do 3 eexists. vm_compute. reflexivity. }
  destruct Hrun as (h' & o' & e' & Hrun).
  destruct (updateOwnEntry_copy_on_write heap ledgerObj ledger alice (Integral 150)
              Toy.entropy e' h' o' eq_refl Hrun)
    as (_ & Hsame & l' & i & en & Hload & _ & Hfind & Hlen & Hother & _ & Hver & Hflag).
  exists h', o', e'. split; [exact Hrun|]. split; [exact Hsame|].
  exists l'. split; [exact Hload|].
  vm_compute in Hfind. injection Hfind as <- <-.
  split; [exact Hlen|]. split; [|split; [exact Hver|exact Hflag]].
  rewrite (Hother 1%nat) by discriminate. reflexivity.
Defined.

(** C10, run: dave has no entry. *)
Lemma view_without_entry_witness :
  exists view, getUserView ledger dave = Ok view /\
    UserView.myBalance view = None /\ UserView.myEntryValid view = true.
Proof.
  apply (proj1 (view_without_entry ledger dave)).
  repeat constructor; vm_compute; discriminate.
Defined.
End Scenario.

(* ================================================================== *)
(** * More runs: views, a campaign and an asset *)
(* ================================================================== *)

Module Scenario2.
Import Scenario.

(** ** The ledger *)

(** X7, run: alice's view of [ledger]: 100, with bob and carol as the others and
    600 in total. *)
Lemma minted_view_shows_balance_witness :
  exists view,
    getUserView ledger alice = Ok view /\
    UserView.myBalance view = Some 100 /\
    UserView.myEntryValid view = true /\
    UserView.holderId <$> UserView.others view = ["bob"; "carol"]%string /\
    length (UserView.others view) = 2%nat /\
    UserView.publicTotal view = Some 600.
Proof.
  destruct (minted_view_shows_balance allocations true Toy.entropy entropyAfterMint
              ledger 0 (allocate alice 100))
    as (view & Hview & Hbal & Hval & Hothers & Hlen & Htotal & _).
  - exact allocations_valid.
  - apply (bool_decide_unpack _). vm_compute. exact I.
  - vm_compute. reflexivity.
  - reflexivity.
  - exists view. split; [exact Hview|]. split; [exact Hbal|]. split; [exact Hval|].
    split; [exact Hothers|]. split; [exact Hlen|]. apply Htotal. exact ledger_verifies.
Defined.

(** X8, run: alice raises her balance to 150: she sees 150. *)
Lemma updateOwnEntry_then_view_witness :
  exists l' e' view,
    updateOwnEntry ledger alice (Integral 150) Toy.entropy = Ok (l', e') /\
    getUserView l' alice = Ok view /\
    UserView.myBalance view = Some 150 /\
    UserView.myEntryValid view = true.
Proof.
  assert (Hrun : exists l' e',
    updateOwnEntry ledger alice (Integral 150) Toy.entropy = Ok (l', e')).
  { do 2 eexists. vm_compute. reflexivity. }
  destruct Hrun as (l' & e' & Hrun).
  destruct (updateOwnEntry_then_view ledger l' alice (Integral 150) Toy.entropy e' Hrun)
    as (z & view & Hz & _ & Hview & Hbal & Hval).
  - split; reflexivity.
  - injection Hz as <-. exists l', e', view. auto.
Defined.

(** X9, run: ... and bob still sees 200. *)
Lemma updateOwnEntry_keeps_other_views_witness :
  exists l' e' view',
    updateOwnEntry ledger alice (Integral 150) Toy.entropy = Ok (l', e') /\
    getUserView l' bob = Ok view' /\
    UserView.myBalance view' = Some 200 /\
    UserView.myEntryValid view' = true.
Proof.
  assert (Hrun : exists l' e',
    updateOwnEntry ledger alice (Integral 150) Toy.entropy = Ok (l', e')).
  { do 2 eexists. vm_compute. reflexivity. }
  destruct Hrun as (l' & e' & Hrun).
  destruct (updateOwnEntry_keeps_other_views ledger l' alice bob (Integral 150)
              Toy.entropy e' Hrun)
    as (view & view' & Hview & Hview' & Hbal & Hval).
  - discriminate.
  - exists l', e', view'. split; [exact Hrun|]. split; [exact Hview'|].
    vm_compute in Hview. injection Hview as <-. auto.
Defined.

(** X10, run: a negative amount and a fractional one, after a good allocation. *)
Lemma mintPoC_rejects_bad_amount_witness :
  mintPoC [allocate alice 100; allocate bob (-5); allocate carol 300] false Toy.entropy
    = Throw CurveError /\
  mintPoC [allocate alice 100;
           {| MintAllocation.holder := bob; MintAllocation.amount := NonIntegral |}]
          false Toy.entropy
    = Throw RangeError.
Proof.
  assert (Hpre : Forall validAllocation [allocate alice 100]).
  { repeat constructor; try (eexists; split; [reflexivity|split; [lia|reflexivity]]). }
  split.
  - apply (proj2 (mintPoC_rejects_bad_amount [allocate alice 100] [allocate carol 300]
                    (allocate bob (-5)) false Toy.entropy Hpre) (-5)); [reflexivity|lia].
  - apply (proj1 (mintPoC_rejects_bad_amount [allocate alice 100] []
                    {| MintAllocation.holder := bob; MintAllocation.amount := NonIntegral |}
                    false Toy.entropy Hpre)). reflexivity.
Defined.

(** X11, run: the entries of [ledger] in reverse order. *)
Lemma verifyTotal_ignores_entry_order_witness :
  verifyTotal (withEntries ledger (reverse (LedgerState.entries ledger)))
  = verifyTotal ledger.
Proof.
  apply (verifyTotal_ignores_entry_order ledger (reverse (LedgerState.entries ledger))).
  symmetry. apply reverse_Permutation.
Defined.

(** A commitment of the small implementation, in which [H] is [2·G]: the
    commitment to 100 under the blinding 5. *)
Definition doubleCommit : string :=
  Eval vm_compute in
    match commit 100 5 with Ok C => pointToHex C | Throw _ => EmptyString end.

(** X12, run: in the small implementation [doubleCommit] opens both to
    [(100, 5)] and to [(98, 6)], which differ in the value and in the
    blinding. *)
Lemma verifyOpening_determines_opening_witness :
  verifyOpening doubleCommit 100 5 = Ok true /\
  verifyOpening doubleCommit 98 6 = Ok true /\
  0 <= 100 < L /\ 0 <= 5 < L /\ (100 = 98 <-> 5 = 6).
Proof.
  assert (Hone : verifyOpening doubleCommit 100 5 = Ok true) by (vm_compute; reflexivity).
  assert (Htwo : verifyOpening doubleCommit 98 6 = Ok true) by (vm_compute; reflexivity).
  split; [exact Hone|]. split; [exact Htwo|].
  exact (verifyOpening_determines_opening doubleCommit 100 5 98 6 Hone Htwo).
Defined.

(** X14, run: [-100] and [L - 100]; [05] and [00 05]. *)
Lemma pedersen_reduces_modulo_L_witness :
  pedersen (-100) [x05] = pedersen (L - 100) [x00; x05].
Proof.
  apply (pedersen_reduces_modulo_L (-100) (L - 100) [x05] [x00; x05]);
    try discriminate; vm_compute; reflexivity.
Defined.

(** X18, run: the status of [ledger]. *)
Lemma minted_ledger_status_witness :
  exists st sm,
    getVerificationStatus ledger = Ok st /\ getPublicSummary ledger = Ok sm /\
    LedgerPublicSummary.version sm = "1"%string /\
    LedgerPublicSummary.participantCount sm = 3%nat /\
    decToBig (LedgerTotal.T (LedgerPublicSummary.total sm)) = Ok 600 /\
    (VerificationStatus.verified st = true <->
       allocations <> [] /\ LedgerPublicSummary.verified sm = true).
Proof.
  apply (minted_ledger_status allocations true Toy.entropy entropyAfterMint ledger).
  - exact allocations_valid.
  - vm_compute. reflexivity.
Defined.

(** ** A campaign: a school trip, target 1000, two pledges *)

(** A clock that reads 1000, 1001, ... *)
Definition clock : Clock := {| readings := fun n => 1000 + Z.of_nat n; reads := 0 |}.

Definition tripParams : CreateCampaignParams.t :=
  {| CreateCampaignParams.campaignId := "campaign_trip_2025";
     CreateCampaignParams.name := "Edinburgh School Trip 2025";
     CreateCampaignParams.description := "Fundraising for the annual school trip";
     CreateCampaignParams.targetAmount := "1000";
     CreateCampaignParams.deadline := 5000;
     CreateCampaignParams.beneficiary :=
       {| Beneficiary.type := Beneficiary.budget; Beneficiary.id := "budget_trip_2025" |};
     CreateCampaignParams.createdBy := "did:keri:ptfa_chair";
     CreateCampaignParams.assetId := None |}.

Definition emptyCampaign : Campaign.t :=
  {| Campaign.version := ""; Campaign.campaignId := ""; Campaign.name := "";
     Campaign.description := ""; Campaign.targetAmount := ""; Campaign.deadline := 0;
     Campaign.beneficiary := {| Beneficiary.type := Beneficiary.budget; Beneficiary.id := "" |};
     Campaign.pledges := []; Campaign.totalCommit := ""; Campaign.status := draft;
     Campaign.createdAt := 0; Campaign.createdBy := ""; Campaign.settledAt := None;
     Campaign.assetId := None |}.

(** The campaign of a run that returns. *)
Definition campaignOf (m : Timed Campaign.t) (clk : Clock) : Campaign.t :=
  match m clk with Ok (c, _) => c | Throw _ => emptyCampaign end.

Definition pledgeOf (id amount : string) (b : byte) : SubmitPledgeParams.t :=
  {| SubmitPledgeParams.pledgerId := id;
     SubmitPledgeParams.amount := amount;
     SubmitPledgeParams.blinding := [b];
     SubmitPledgeParams.recipientPublicKey := [] |}.

Definition draftCampaign : Campaign.t :=
  Eval vm_compute in campaignOf (createCampaign tripParams) clock.

Definition activeCampaign : Campaign.t :=
  Eval vm_compute in campaignOf (activateCampaign draftCampaign) (later 2 clock).

(** Alice pledges 600. *)
Definition pledgedCampaign : Campaign.t :=
  Eval vm_compute in
    campaignOf (submitPledge activeCampaign (pledgeOf "alice" "600" x05)) (later 3 clock).

(** Bob pledges 400. *)
Definition fundedCampaign : Campaign.t :=
  Eval vm_compute in
    campaignOf (submitPledge pledgedCampaign (pledgeOf "bob" "400" x07)) (later 5 clock).

(** X24, run: the school trip campaign, created when the clock reads 1000. *)
Lemma createCampaign_fresh_witness :
  exists c,
    createCampaign tripParams clock = Ok (c, later 2 clock) /\
    Campaign.status c = draft /\
    Campaign.pledges c = [] /\
    Campaign.targetAmount c = "1000"%string /\
    Campaign.deadline c = 5000 /\
    Campaign.createdAt c = 1001 /\
    verifyCampaignTotal c = Ok true /\
    checkFundingStatus c
      = Ok {| FundingStatus.isFunded := false;
              FundingStatus.totalPledged := 0;
              FundingStatus.isVerified := true |}.
Proof.
  apply (proj2 (proj2 (proj2 (createCampaign_fresh tripParams clock) 1000 eq_refl)));
    vm_compute; reflexivity.
Defined.

(** X23, run: a pledge to the draft campaign; one after the deadline; an amount
    that is no number; an amount of 0; alice pledging twice. *)
Lemma submitPledge_checks_witness :
  submitPledge draftCampaign (pledgeOf "alice" "600" x05) clock
    = Throw (Error "Cannot submit pledge to draft campaign") /\
  submitPledge activeCampaign (pledgeOf "alice" "600" x05) (later 4000 clock)
    = Throw (Error "Campaign deadline has passed") /\
  submitPledge activeCampaign (pledgeOf "alice" "lots" x05) clock = Throw SyntaxError /\
  submitPledge activeCampaign (pledgeOf "alice" "0" x05) clock
    = Throw (Error "Pledge amount must be positive") /\
  submitPledge pledgedCampaign (pledgeOf "alice" "10" x05) clock
    = Throw (Error "alice has already pledged to this campaign").
Proof.
  split; [|split; [|split; [|split]]].
  - apply (proj1 (submitPledge_checks draftCampaign (pledgeOf "alice" "600" x05) clock)).
    discriminate.
  - apply (proj1 (proj2 (submitPledge_checks activeCampaign (pledgeOf "alice" "600" x05)
                           (later 4000 clock)))); [reflexivity|vm_compute; discriminate].
  - apply (proj1 (proj1 (proj2 (proj2
             (submitPledge_checks activeCampaign (pledgeOf "alice" "lots" x05) clock)))
             eq_refl eq_refl)). reflexivity.
  - apply (proj1 (proj2 (proj1 (proj2 (proj2
             (submitPledge_checks activeCampaign (pledgeOf "alice" "0" x05) clock)))
             eq_refl eq_refl) 0 eq_refl)). lia.
  - apply (proj2 (proj2 (proj1 (proj2 (proj2
             (submitPledge_checks pledgedCampaign (pledgeOf "alice" "10" x05) clock)))
             eq_refl eq_refl) 10 eq_refl)); [lia|].
    apply Exists_exists. eexists. split; [apply list_elem_of_here|reflexivity].
Defined.

(** X19, run: alice pledges 600 under the blinding 5. *)
Lemma submitPledge_accumulates_witness :
  exists c' pledge,
    submitPledge activeCampaign (pledgeOf "alice" "600" x05) (later 3 clock)
      = Ok (c', later 2 (later 3 clock)) /\
    Campaign.pledges c' = [pledge] /\
    PledgeEntry.pledgerId pledge = "alice"%string /\
    pointFromHex (PledgeEntry.commit pledge) = Ok (padd (smul 600 G) (smul 5 H)) /\
    pointFromHex (Campaign.totalCommit c')
      = Ok (padd ZERO (padd (smul 600 G) (smul 5 H))) /\
    Campaign.status c' = active.
Proof.
  apply (submitPledge_accumulates activeCampaign (pledgeOf "alice" "600" x05)
           (later 3 clock) 600 ZERO).
  - reflexivity.
  - vm_compute. reflexivity.
  - reflexivity.
  - lia.
  - constructor.
  - discriminate.
  - vm_compute. reflexivity.
Defined.

(** X20, run: the campaign still verifies after bob's pledge. *)
Lemma submitPledge_preserves_verification_witness :
  verifyCampaignTotal fundedCampaign = Ok true.
Proof.
  apply (submitPledge_preserves_verification pledgedCampaign (pledgeOf "bob" "400" x07)
           (later 5 clock) fundedCampaign (later 2 (later 5 clock)));
    vm_compute; reflexivity.
Defined.

(** X21, run: the total left as it was before bob's pledge; alice's pledge replaced
    by a commitment to 100. *)
Lemma verifyCampaignTotal_tamper_witness :
  verifyCampaignTotal
    (withTotalCommit fundedCampaign (Campaign.totalCommit pledgedCampaign))
    = Ok false /\
  verifyCampaignTotal
    (withPledges fundedCampaign
       [ withPledgeCommit "6400000000000000000000000000000000000000000000000000000000000000"
           (hd {| PledgeEntry.pledgerId := ""; PledgeEntry.commit := "";
                  PledgeEntry.openingEncrypted := ""; PledgeEntry.signedAt := 0;
                  PledgeEntry.signature := None |} (Campaign.pledges fundedCampaign));
         nth 1 (Campaign.pledges fundedCampaign)
           {| PledgeEntry.pledgerId := ""; PledgeEntry.commit := "";
              PledgeEntry.openingEncrypted := ""; PledgeEntry.signedAt := 0;
              PledgeEntry.signature := None |} ])
    = Ok false.
Proof.
  assert (Hv : verifyCampaignTotal fundedCampaign = Ok true) by (vm_compute; reflexivity).
  split.
  - apply (proj1 (verifyCampaignTotal_tamper fundedCampaign Hv)).
    vm_compute. intros E. discriminate E.
  - eapply (proj1 (proj2 (verifyCampaignTotal_tamper fundedCampaign Hv)) 0%nat).
    + reflexivity.
    + vm_compute. reflexivity.
    + vm_compute. intros E. discriminate E.
Defined.

(** X22, run: 600 pledged before bob's pledge and 1000 after, which meets the
    target. *)
Lemma submitPledge_counts_amount_witness :
  checkFundingStatus pledgedCampaign
    = Ok {| FundingStatus.isFunded := false;
            FundingStatus.totalPledged := 600;
            FundingStatus.isVerified := true |} /\
  checkFundingStatus fundedCampaign
    = Ok {| FundingStatus.isFunded := true;
            FundingStatus.totalPledged := 1000;
            FundingStatus.isVerified := true |}.
Proof.
  destruct (submitPledge_counts_amount pledgedCampaign (pledgeOf "bob" "400" x07)
              (later 5 clock) fundedCampaign (later 2 (later 5 clock)) 600 1000)
    as (a & Ha & _ & H1 & H2); try (vm_compute; reflexivity).
  injection Ha as <-. split; [exact H1|exact H2].
Defined.

(** X25, run: closing the funded campaign before the deadline. *)
Lemma closeCampaign_outcome_witness :
  closeCampaign fundedCampaign (later 7 clock)
    = Ok (withStatus fundedCampaign funded None, later 1 (later 7 clock)).
Proof.
  apply (proj2 (closeCampaign_outcome fundedCampaign (later 7 clock)
                  (withStatus fundedCampaign funded None) (later 1 (later 7 clock)))).
  exists 1000, 1000. repeat split; try (vm_compute; reflexivity). left. lia.
Defined.

(** X26, run: closing the funded campaign: from active to funded, target and
    deadline kept. *)
Lemma campaign_lifecycle_witness :
  statusNext (Campaign.status fundedCampaign) funded = true /\
  Campaign.targetAmount (withStatus fundedCampaign funded None) = "1000"%string /\
  Campaign.deadline (withStatus fundedCampaign funded None) = 5000.
Proof.
  destruct (campaign_lifecycle fundedCampaign (withStatus fundedCampaign funded None))
    as (Hnext & _ & Htarget & Hdeadline & _).
  - apply (step_close fundedCampaign (later 7 clock) _ (later 1 (later 7 clock))).
    vm_compute. reflexivity.
  - split; [exact Hnext|]. split; [exact Htarget|exact Hdeadline].
Defined.

(** ** An asset: 600 for alice, 400 for bob, capped at 1000 *)

Definition holderKeys : gmap string KeyPair.t :=
  <["alice" := alice]> (<["bob" := bob]> ∅).

Definition grant (aid : string) (z : Z) : AssetAllocation.t :=
  {| AssetAllocation.recipient := aid; AssetAllocation.amount := Integral z |}.

Definition grants : list AssetAllocation.t := [grant "alice" 600; grant "bob" 400].

Definition treasury : Authorities.t :=
  {| Authorities.mintAuthority := ["treasurer"]; Authorities.burnAuthority := [] |}.

Definition cappedRules : AssetRules.t :=
  {| AssetRules.allowSelfMint := None;
     AssetRules.allowSelfBurn := Some true;
     AssetRules.transferable := None;
     AssetRules.cappedSupply := Some true;
     AssetRules.maxSupply := Some "1000"%string |}.

Definition world : World :=
  {| w_entropy := Toy.entropy;
     w_clock := clock;
     w_suffixes := fun n => toString10 (Z.of_nat n);
     w_drawn := 0 |}.

(** X28, run: 600 for alice and 400 for bob under a cap of 1000. *)
Lemma createAsset_mints_witness :
  exists state w' e',
    stablecoin.createAsset "GBP-T" "Token Pound" treasury cappedRules grants holderKeys world
      = Ok (state, w') /\
    mintPoC [allocate alice 600; allocate bob 400] true Toy.entropy
      = Ok (AssetState.ledger state, e') /\
    stablecoin.getTotalSupply state = Ok 1000 /\
    stablecoin.getHolderCount state = 2%nat /\
    Forall2 (recordsAllocation treasury) grants (AssetState.operations state).
Proof.
  destruct (proj1 (proj2 (createAsset_mints "GBP-T" "Token Pound" treasury cappedRules
                            grants holderKeys world
                            ltac:(repeat constructor; eexists; reflexivity)))
              [allocate alice 600; allocate bob 400])
    as (state & w' & e' & Hrun & Hmint & Hsupply & Hcount & Hops & _).
  - intros _. exists 1000. split; [reflexivity|vm_compute; discriminate].
  - vm_compute. reflexivity.
  - repeat constructor; try (eexists; split; [reflexivity|split; [lia|reflexivity]]).
  - exists state, w', e'. split; [exact Hrun|]. split; [exact Hmint|].
    split; [exact Hsupply|]. split; [exact Hcount|exact Hops].
Defined.

Definition emptyAsset : AssetState.t :=
  {| AssetState.version := ""; AssetState.assetId := ""; AssetState.assetName := "";
     AssetState.ledger := emptyLedger; AssetState.operations := [];
     AssetState.authorities := treasury; AssetState.rules := cappedRules |}.

Definition asset : AssetState.t :=
  Eval vm_compute in
    match stablecoin.createAsset "GBP-T" "Token Pound" treasury cappedRules grants
            holderKeys world with
    | Ok (state, _) => state
    | Throw _ => emptyAsset
    end.

(** X30, run: bob's wallet of the new asset. *)
Lemma created_asset_wallet_witness :
  exists view,
    stablecoin.getWalletView asset bob = Ok view /\
    WalletView.myBalance view = Some 400 /\
    WalletView.myBalanceValid view = true /\
    WalletView.canMint view = false /\
    WalletView.canBurn view = true.
Proof.
  destruct (created_asset_wallet "GBP-T" "Token Pound" treasury cappedRules grants
              holderKeys world
              {| w_entropy := {| tape := tape Toy.entropy; pos := 152 |};
                 w_clock := later 4 clock;
                 w_suffixes := w_suffixes world;
                 w_drawn := 2 |}
              asset [allocate alice 600; allocate bob 400] 1%nat (allocate bob 400))
    as (view & Hview & Hbal & Hvalid & Hmint & Hburn & _).
  - vm_compute. reflexivity.
  - vm_compute. reflexivity.
  - repeat constructor; try (eexists; split; [reflexivity|split; [lia|reflexivity]]).
  - apply (bool_decide_unpack _). vm_compute. exact I.
  - reflexivity.
  - exists view. split; [exact Hview|]. split; [exact Hbal|]. split; [exact Hvalid|].
    split; [rewrite Hmint|rewrite Hburn]; vm_compute; reflexivity.
Defined.

(** X29, run: the new asset passes [verifyAssetState]. *)
Lemma verifyAssetState_valid_witness :
  stablecoin.verifyAssetState asset = Ok (true, []) /\
  verifyTotal (AssetState.ledger asset) = Ok true /\
  NoDup (Operation.id <$> AssetState.operations asset).
Proof.
  assert (Hrun : stablecoin.verifyAssetState asset = Ok (true, []))
    by (vm_compute; reflexivity).
  split; [exact Hrun|].
  destruct (proj1 (proj2 (proj2 (verifyAssetState_valid asset) true [] Hrun)) eq_refl)
    as (Hv & Hnd & _).
  split; [exact Hv|exact Hnd].
Defined.

End Scenario2.
